(** * Shift scheduling by goal programming: the model built by [model.ipynb]

    A shallow embedding of the notebook that assembles the docplex model
    (decision variables, objective, hard constraints, goal constraints),
    followed by the properties of the assembled model.

    Python integers are [Z]; dictionaries keyed by index tuples are
    [gmap]s; the global docplex [model] that every cell mutates is a
    [Model] threaded through a state-and-exception monad, one definition
    per notebook cell.  The docplex calls ([binary_var],
    [continuous_var_matrix], [continuous_var_list], [sum], [add_constraint],
    [minimize] and the operators on expressions) are given the meaning the
    library documents for them. *)

From Stdlib Require Import ZArith List String Ascii Lia Bool.
From Stdlib Require Import Decimal DecimalString DecimalZ.
From Stdlib Require Import QArith Lqa.
From stdpp Require Import base decidable option list numbers strings gmap.

Local Open Scope Z_scope.

(** ** Python exceptions and the cell monad *)

Inductive error : Type :=
| KeyError            (* dict[key] on an absent key *)
| IndexError          (* list[i] out of range *)
| AttributeError      (* None.get(...) *)
| DOcplexException.   (* docplex refuses an operand or an argument *)

Inductive result (A : Type) : Type :=
| Ok (a : A)
| Raise (e : error).
Arguments Ok {A} a.
Arguments Raise {A} e.

Definition rbind {A B} (r : result A) (f : A -> result B) : result B :=
  match r with
  | Ok a => f a
  | Raise e => Raise e
  end.

Declare Scope res_scope.
Delimit Scope res_scope with res.
Notation "x <~ c1 ;; c2" := (rbind c1 (fun x => c2))
  (at level 100, c1 at next level, right associativity) : res_scope.

(** [mapR f l]: evaluate a generator expression [f(x) for x in l], left to
    right, stopping at the first exception. *)
Fixpoint mapR {A B} (f : A -> result B) (l : list A) : result (list B) :=
  match l with
  | [] => Ok []
  | x :: l' =>
      (y <~ f x ;; ys <~ mapR f l' ;; Ok (y :: ys))%res
  end.

(** ** Integers as Python prints them *)

(** [str z] is Python's [str(z)] for an [int]: decimal digits, a leading
    minus sign for negatives, ["0"] for zero. *)
Definition str (z : Z) : string := NilEmpty.string_of_int (Z.to_int z).

(** Python's [range(a, b)] and [range(b)]. *)
Definition range (a b : Z) : list Z := seqZ a (b - a).
Definition range0 (b : Z) : list Z := range 0 b.

(** Modelled from the spec: [list_range] of [src/utils.py], which is
    imported by the notebook but is not part of the sources at hand.  The
    spec has every index run over [1, x] ("integer id in [1, n]") and a
    degenerate range be empty, never an error. *)
Definition list_range (x : Z) : list Z := range 1 (x + 1).

(** ** docplex objects *)

Inductive vartype : Type := Binary | Continuous.

(** A decision variable as the notebook creates it: a name and a type. *)
Record Var : Type := mkVar { var_name : string; var_type : vartype }.

Global Instance vartype_eq_dec : EqDecision vartype.
Proof. solve_decision. Defined.
Global Instance Var_eq_dec : EqDecision Var.
Proof. solve_decision. Defined.

(** A linear expression: the monomials in the order in which they were
    written, and the constant.  docplex keeps one coefficient per
    variable; [coef] below is that coefficient. *)
Record LinExpr : Type := mkLin { terms : list (Var * Z); constant : Z }.

Definition of_var (v : Var) : LinExpr := mkLin [(v, 1)] 0.
Definition of_num (c : Z) : LinExpr := mkLin [] c.

Definition negate (ts : list (Var * Z)) : list (Var * Z) :=
  map (fun t => (fst t, - snd t)) ts.

(** [e1 + e2] and [e1 - e2] *)
Definition eadd (e1 e2 : LinExpr) : LinExpr :=
  mkLin (terms e1 ++ terms e2) (constant e1 + constant e2).
Definition esub (e1 e2 : LinExpr) : LinExpr :=
  mkLin (terms e1 ++ negate (terms e2)) (constant e1 - constant e2).

Declare Scope expr_scope.
Delimit Scope expr_scope with expr.
Infix "⊕" := eadd (at level 50, left associativity) : expr_scope.
Infix "⊖" := esub (at level 50, left associativity) : expr_scope.

(** [model.sum(es)] *)
Definition msum (es : list LinExpr) : LinExpr :=
  fold_right eadd (of_num 0) es.

(** docplex takes [1e20] for infinity, and cuts a coefficient beyond it,
    on either side, down to it. *)
Definition docplex_infinity : Z := 10 ^ 20.
Definition truncate (c : Z) : Z :=
  Z.max (- docplex_infinity) (Z.min c docplex_infinity).

(** [v * c] for a number [c]: the zero expression, which has no monomial,
    when [c] is [0]; otherwise the monomial of [v] with the coefficient
    [c], cut down to [±1e20]. *)
Definition monomial (v : Var) (c : Z) : LinExpr :=
  if decide (c = 0) then of_num 0 else mkLin [(v, truncate c)] 0.

(** [v * c] where [c] is what [person_competency] returned: a number, or
    [None], which docplex does not accept as a factor. *)
Definition times (v : Var) (c : option Z) : result LinExpr :=
  match c with
  | Some c => Ok (monomial v c)
  | None => Raise DOcplexException
  end.

(** The coefficient of [v] in an expression. *)
Fixpoint coef_terms (ts : list (Var * Z)) (v : Var) : Z :=
  match ts with
  | [] => 0
  | (w, c) :: ts' => (if decide (w = v) then c else 0) + coef_terms ts' v
  end.
Definition coef (e : LinExpr) (v : Var) : Z := coef_terms (terms e) v.

(** The variables an expression mentions. *)
Definition expr_vars (e : LinExpr) : list Var := map fst (terms e).

Inductive sense : Type := LE | GE | EQ.
Global Instance sense_eq_dec : EqDecision sense.
Proof. solve_decision. Defined.

(** [lhs <= rhs], [lhs >= rhs], [lhs == rhs] with the name given to
    [add_constraint]. *)
Record Constraint : Type := mkCt {
  ct_lhs : LinExpr;
  ct_sense : sense;
  ct_rhs : LinExpr;
  ct_name : string
}.

Definition ct_vars (c : Constraint) : list Var :=
  expr_vars (ct_lhs c) ++ expr_vars (ct_rhs c).

(** The docplex model: variables and constraints in creation order, and
    the objective once [minimize] has been called. *)
Record Model : Type := mkModel {
  variables : list Var;
  constraints : list Constraint;
  objective : option LinExpr
}.

Definition empty_model : Model := mkModel [] [] None.

(** A cell runs against the model, and either raises or returns a value
    and the model as it left it. *)
Definition M (A : Type) : Type := Model -> result (A * Model).

Definition ret {A} (a : A) : M A := fun mdl => Ok (a, mdl).
Definition bind {A B} (c : M A) (f : A -> M B) : M B :=
  fun mdl => match c mdl with
             | Ok (a, mdl') => f a mdl'
             | Raise e => Raise e
             end.
Definition lift {A} (r : result A) : M A :=
  fun mdl => match r with
             | Ok a => Ok (a, mdl)
             | Raise e => Raise e
             end.

Declare Scope cell_scope.
Delimit Scope cell_scope with cell.
Notation "x <- c1 ;; c2" := (bind c1 (fun x => c2))
  (at level 100, c1 at next level, right associativity) : cell_scope.
Notation "c1 ;; c2" := (bind c1 (fun _ => c2))
  (at level 100, right associativity) : cell_scope.

(** [for x in l: body] *)
Fixpoint forM_ {A} (l : list A) (body : A -> M unit) : M unit :=
  match l with
  | [] => ret tt
  | x :: l' => (body x ;; forM_ l' body)%cell
  end.

(** A comprehension whose element expression runs against the model. *)
Fixpoint collectM {A B} (f : A -> M B) (l : list A) : M (list B) :=
  match l with
  | [] => ret []
  | x :: l' => (y <- f x ;; ys <- collectM f l' ;; ret (y :: ys))%cell
  end.

(** [model.binary_var(name=...)] *)
Definition binary_var (name : string) : M Var :=
  fun mdl =>
    let v := mkVar name Binary in
    Ok (v, mkModel (variables mdl ++ [v]) (constraints mdl) (objective mdl)).

(** The name docplex derives for a keyed variable: the given name followed
    by ["_%s"] of every key. *)
Definition keyed_name (name : string) (keys : list Z) : string :=
  fold_left (fun acc k => acc +:+ "_" +:+ str k) keys name.

(** [model.continuous_var_matrix(keys1, keys2, name=...)]: a dictionary
    from every [(k1, k2)] to a fresh continuous variable.  docplex refuses
    to make it when there is no pair of keys at all ("multidict has no keys
    to index the variables"). *)
Definition matrix_entries (keys1 keys2 : list Z) (name : string)
  : list ((Z * Z) * Var) :=
  k1 ← keys1; k2 ← keys2;
  [((k1, k2), mkVar (keyed_name name [k1; k2]) Continuous)].

Definition continuous_var_matrix (keys1 keys2 : list Z) (name : string)
  : M (gmap (Z * Z) Var) :=
  fun mdl =>
    let es := matrix_entries keys1 keys2 name in
    match es with
    | [] => Raise DOcplexException
    | _ :: _ =>
        Ok (list_to_map es,
            mkModel (variables mdl ++ map snd es) (constraints mdl)
              (objective mdl))
    end.

(** [model.continuous_var_list(keys, name=...)]: a list with one fresh
    continuous variable per key, named after the key. *)
Definition continuous_var_list (keys : list Z) (name : string)
  : M (list Var) :=
  fun mdl =>
    let vs := map (fun k => mkVar (keyed_name name [k]) Continuous) keys in
    Ok (vs, mkModel (variables mdl ++ vs) (constraints mdl) (objective mdl)).

(** [model.add_constraint(ct, name)] *)
Definition add_constraint (c : Constraint) : M unit :=
  fun mdl =>
    Ok (tt, mkModel (variables mdl) (constraints mdl ++ [c]) (objective mdl)).

(** [model.minimize(e)] *)
Definition minimize (e : LinExpr) : M unit :=
  fun mdl => Ok (tt, mkModel (variables mdl) (constraints mdl) (Some e)).

(** [d[key]] on a dictionary. *)
Definition dict_get `{Countable K} {V} (d : gmap K V) (k : K) : result V :=
  match d !! k with
  | Some v => Ok v
  | None => Raise KeyError
  end.

(** [l[i]] on a list: negative indices count from the end. *)
Definition list_get {V} (l : list V) (i : Z) : result V :=
  let len := Z.of_nat (length l) in
  let j := if Z.ltb i 0 then i + len else i in
  if Z.ltb j 0 then Raise IndexError
  else match l !! Z.to_nat j with
       | Some v => Ok v
       | None => Raise IndexError
       end.

(** ** The notebook *)

(** The variable dictionaries the notebook binds at top level. *)
Record Env : Type := mkEnv {
  X : gmap (Z * Z * Z * Z) Var;
  h : gmap (Z * Z) Var;
  d_neg_1 : gmap (Z * Z) Var;  d_pos_1 : gmap (Z * Z) Var;
  d_neg_2 : gmap (Z * Z) Var;  d_pos_2 : gmap (Z * Z) Var;
  d_neg_3 : list Var;          d_pos_3 : list Var;
  d_neg_4 : gmap (Z * Z) Var;  d_pos_4 : gmap (Z * Z) Var;
  d_neg_5 : gmap (Z * Z) Var;  d_pos_5 : gmap (Z * Z) Var;
  d_neg_6 : gmap (Z * Z) Var;  d_pos_6 : gmap (Z * Z) Var;
  d_neg_7 : gmap (Z * Z) Var;  d_pos_7 : gmap (Z * Z) Var;
  d_neg_8 : gmap (Z * Z) Var;  d_pos_8 : gmap (Z * Z) Var;
  d_neg_9 : gmap (Z * Z) Var;  d_pos_9 : gmap (Z * Z) Var;
  d_neg_10 : gmap (Z * Z) Var; d_pos_10 : gmap (Z * Z) Var
}.

(** A variable, or a dictionary entry, used as an operand. *)
Definition operand (r : result Var) : result LinExpr :=
  (v <~ r ;; Ok (of_var v))%res.

(** [model.sum(gen(x) for x in l)] *)
Definition model_sum {A} (gen : A -> result LinExpr) (l : list A)
  : result LinExpr :=
  (es <~ mapR gen l ;; Ok (msum es))%res.

(** [model.add_constraint(<expression that may raise>, name)] *)
Definition add_constraint_of (r : result Constraint) : M unit :=
  (c <- lift r ;; add_constraint c)%cell.

Section Notebook.

(** The parameters cell ([n = 80], [m = 30], [s = 7], [t = 2] in the
    notebook) and the competency table.  The table is what
    [competency_dict] makes of the spreadsheet; neither is among the
    sources, so it is a parameter here: a dictionary of rows, one per
    person, each a dictionary from section to score, the scores being
    integer points. *)
Variables n m s t : Z.
Variable competency : gmap Z (gmap Z Z).

(** [competency.get(person_id).get(section_id)]: [dict.get] answers
    [None] for an absent key, and [None] has no [get]. *)
Definition person_competency (person_id section_id : Z)
  : result (option Z) :=
  match competency !! person_id with
  | Some row => Ok (row !! section_id)
  | None => Raise AttributeError
  end.

(** *** Decision variables *)

Definition X_name (i j k l : Z) : string :=
  "X_" +:+ str i +:+ "_" +:+ str j +:+ "_" +:+ str k +:+ "_" +:+ str l.
Definition h_name (i j : Z) : string :=
  "h_" +:+ str i +:+ "_" +:+ str j.

Definition X_keys : list (Z * Z * Z * Z) :=
  i ← list_range n; j ← list_range m; k ← list_range s; l ← list_range t;
  [(i, j, k, l)].
Definition h_keys : list (Z * Z) :=
  i ← list_range n; j ← list_range m; [(i, j)].

Definition cell_X : M (gmap (Z * Z * Z * Z) Var) :=
  (es <- collectM (fun '(i, j, k, l) =>
                 v <- binary_var (X_name i j k l) ;;
                 ret ((i, j, k, l), v)) X_keys ;;
   ret (list_to_map es))%cell.

Definition cell_h : M (gmap (Z * Z) Var) :=
  (es <- collectM (fun '(i, j) =>
                 v <- binary_var (h_name i j) ;;
                 ret ((i, j), v)) h_keys ;;
   ret (list_to_map es))%cell.

(** *** Deviation variables *)

Definition declare_variables : M Env :=
  (X <- cell_X ;;
   h <- cell_h ;;
   d_neg_1 <- continuous_var_matrix (range 1 (n+1)) (range 1 (m+1)) "d_neg_1" ;;
   d_pos_1 <- continuous_var_matrix (range 1 (n+1)) (range 1 (m+1)) "d_pos_1" ;;
   d_neg_2 <- continuous_var_matrix (range 1 (n+1)) (range 1 (m+1)) "d_neg_2" ;;
   d_pos_2 <- continuous_var_matrix (range 1 (n+1)) (range 1 (m+1)) "d_pos_2" ;;
   d_neg_3 <- continuous_var_list (range 1 (n+1)) "d_neg_3" ;;
   d_pos_3 <- continuous_var_list (range 1 (n+1)) "d_pos_3" ;;
   d_neg_4 <- continuous_var_matrix (range 1 (m+1)) (range 1 (t+1)) "d_neg_4" ;;
   d_pos_4 <- continuous_var_matrix (range 1 (m+1)) (range 1 (t+1)) "d_pos_4" ;;
   d_neg_5 <- continuous_var_matrix (range 1 (m+1)) (range 1 (t+1)) "d_neg_5" ;;
   d_pos_5 <- continuous_var_matrix (range 1 (m+1)) (range 1 (t+1)) "d_pos_5" ;;
   d_neg_6 <- continuous_var_matrix (range 1 (m+1)) (range0 (t+1)) "d_neg_6" ;;
   d_pos_6 <- continuous_var_matrix (range 1 (m+1)) (range 1 (t+1)) "d_pos_6" ;;
   d_neg_7 <- continuous_var_matrix (range 1 (m+1)) (range 1 (t+1)) "d_neg_7" ;;
   d_pos_7 <- continuous_var_matrix (range 1 (m+1)) (range 1 (t+1)) "d_pos_7" ;;
   d_neg_8 <- continuous_var_matrix (range 1 (m+1)) (range 1 (t+1)) "d_neg_8" ;;
   d_pos_8 <- continuous_var_matrix (range 1 (m+1)) (range 1 (t+1)) "d_pos_8" ;;
   d_neg_9 <- continuous_var_matrix (range 1 (m+1)) (range 1 (t+1)) "d_neg_9" ;;
   d_pos_9 <- continuous_var_matrix (range 1 (m+1)) (range 1 (t+1)) "d_pos_9" ;;
   d_neg_10 <- continuous_var_matrix (range 1 (m+1)) (range 1 (t+1)) "d_neg_10" ;;
   d_pos_10 <- continuous_var_matrix (range 1 (m+1)) (range 1 (t+1)) "d_pos_10" ;;
   ret (mkEnv X h d_neg_1 d_pos_1 d_neg_2 d_pos_2 d_neg_3 d_pos_3
          d_neg_4 d_pos_4 d_neg_5 d_pos_5 d_neg_6 d_pos_6 d_neg_7 d_pos_7
          d_neg_8 d_pos_8 d_neg_9 d_pos_9 d_neg_10 d_pos_10))%cell.

Variable env : Env.

(** *** Objective *)

(** [model.sum(d_neg[i, j] + d_pos[i, j] for i in ... for j in ...)] *)
Definition both_deviations (d_neg d_pos : gmap (Z * Z) Var)
  : result LinExpr :=
  model_sum (fun '(i, j) =>
               a <~ operand (dict_get d_neg (i, j)) ;;
               b <~ operand (dict_get d_pos (i, j)) ;;
               Ok (eadd a b))%res
            (i ← list_range n; j ← list_range m; [(i, j)]).

(** [model.sum(d_pos[j, l] for j in ... for l in ...)] *)
Definition over_deviation (d_pos : gmap (Z * Z) Var) : result LinExpr :=
  model_sum (fun '(j, l) => operand (dict_get d_pos (j, l)))
            (j ← list_range m; l ← list_range t; [(j, l)]).

Definition objective_expr : result LinExpr :=
  (g1 <~ both_deviations (d_neg_1 env) (d_pos_1 env) ;;
   g2 <~ both_deviations (d_neg_2 env) (d_pos_2 env) ;;
   g3 <~ model_sum (fun i =>
                      a <~ operand (list_get (d_neg_3 env) i) ;;
                      b <~ operand (list_get (d_pos_3 env) i) ;;
                      Ok (eadd a b)) (range 0 n) ;;
   g4 <~ over_deviation (d_pos_4 env) ;;
   g5 <~ over_deviation (d_pos_5 env) ;;
   g6 <~ over_deviation (d_pos_6 env) ;;
   g7 <~ over_deviation (d_pos_7 env) ;;
   g8 <~ over_deviation (d_pos_8 env) ;;
   g9 <~ over_deviation (d_pos_9 env) ;;
   g10 <~ over_deviation (d_pos_10 env) ;;
   Ok (eadd (eadd (eadd (eadd (eadd (eadd (eadd (eadd (eadd
         g1 g2) g3) g4) g5) g6) g7) g8) g9) g10))%res.

Definition cell_objective : M unit :=
  (e <- lift objective_expr ;; minimize e)%cell.

(** *** Hard constraints *)

(** [model.sum(X[i, j, k, l] for k in list_range(s) for l in list_range(t))] *)
Definition day_load (i j : Z) : result LinExpr :=
  model_sum (fun '(k, l) => operand (dict_get (X env) (i, j, k, l)))
            (k ← list_range s; l ← list_range t; [(k, l)]).

(** [model.sum(X[i, j, k, l] for j in list_range(m) for k in list_range(s))] *)
Definition shift_load (i l : Z) : result LinExpr :=
  model_sum (fun '(j, k) => operand (dict_get (X env) (i, j, k, l)))
            (j ← list_range m; k ← list_range s; [(j, k)]).

(** [model.sum(X[i, j, k, l] for k in list_range(s))] *)
Definition section_sum (i j l : Z) : result LinExpr :=
  model_sum (fun k => operand (dict_get (X env) (i, j, k, l)))
            (list_range s).

(** The seven cells of equations 6 to 12 differ in four places: the
    section index inside the sum, the right-hand side, and the equation
    and section numbers in the label. *)
Definition coverage_cell (k req : Z) (label : string) : M unit :=
  forM_ (list_range m) (fun j =>
    forM_ (list_range t) (fun l =>
      add_constraint_of
        (lhs <~ model_sum (fun i => operand (dict_get (X env) (i, j, k, l)))
                          (list_range n) ;;
         Ok (mkCt lhs EQ (of_num req)
               (label +:+ "_Day_" +:+ str j +:+ "_Shift_" +:+ str l)))%res)).

Definition cell_10 := coverage_cell 1 3 "Equation_6_Personnel_Requirement_Section_1".
Definition cell_11 := coverage_cell 2 4 "Equation_7_Personnel_Requirement_Section_2".
Definition cell_12 := coverage_cell 3 4 "Equation_8_Personnel_Requirement_Section_3".
Definition cell_13 := coverage_cell 3 4 "Equation_9_Personnel_Requirement_Section_4".
Definition cell_14 := coverage_cell 5 6 "Equation_10_Personnel_Requirement_Section_5".
Definition cell_15 := coverage_cell 6 8 "Equation_11_Personnel_Requirement_Section_6".
Definition cell_16 := coverage_cell 7 5 "Equation_12_Personnel_Requirement_Section_7".

Definition cell_17 : M unit :=
  forM_ (list_range n) (fun i =>
    forM_ (list_range m) (fun j =>
      add_constraint_of
        (lhs <~ day_load i j ;;
         Ok (mkCt lhs LE (of_num 1)
               ("Equation_13_Single_Shift_Per_Day_" +:+ str i +:+ "_" +:+ str j)))%res)).

Definition cell_18 : M unit :=
  forM_ (list_range n) (fun i =>
    forM_ (list_range m) (fun j =>
      add_constraint_of
        (lhs <~ day_load i j ;;
         hij <~ operand (dict_get (h env) (i, j)) ;;
         Ok (mkCt lhs LE (esub (of_num 1) hij)
               ("Equation_14_No_Work_On_Vacation_" +:+ str i +:+ "_" +:+ str j)))%res)).

(** [model.sum(h[i, j + d] for d in range(7))] *)
Definition leave_window (i j : Z) : result LinExpr :=
  model_sum (fun d => operand (dict_get (h env) (i, j + d))) (range0 7).

Definition cell_19 : M unit :=
  forM_ (list_range n) (fun i =>
    forM_ (list_range (m - 6)) (fun j =>
      (add_constraint_of
         (lhs <~ leave_window i j ;;
          Ok (mkCt lhs LE (of_num 2)
                ("Equation_15_Max_2_Vacations_7_Days_" +:+ str i +:+ "_" +:+ str j)))%res ;;
       add_constraint_of
         (lhs <~ leave_window i j ;;
          Ok (mkCt lhs GE (of_num 1)
                ("Equation_16_Min_1_Vacation_7_Days_" +:+ str i +:+ "_" +:+ str j)))%res)%cell)).

Definition cell_20 : M unit :=
  forM_ (list_range n) (fun i =>
    (add_constraint_of
       (lhs <~ shift_load i 1 ;;
        Ok (mkCt lhs LE (of_num 12)
              ("Equation_17_Max_Shift_1_Assignments_" +:+ str i)))%res ;;
     add_constraint_of
       (lhs <~ shift_load i 2 ;;
        Ok (mkCt lhs LE (of_num 12)
              ("Equation_18_Max_Shift_2_Assignments_" +:+ str i)))%res)%cell).

Definition cell_21 : M unit :=
  forM_ (list_range n) (fun i =>
    (add_constraint_of
       (lhs <~ shift_load i 1 ;;
        Ok (mkCt lhs GE (of_num 10)
              ("Equation_19_Min_Shift_1_Assignments_" +:+ str i)))%res ;;
     add_constraint_of
       (lhs <~ shift_load i 2 ;;
        Ok (mkCt lhs GE (of_num 10)
              ("Equation_20_Min_Shift_2_Assignments_" +:+ str i)))%res)%cell).

Definition cell_22 : M unit :=
  forM_ (list_range n) (fun i =>
    forM_ (list_range (m - 1)) (fun j =>
      add_constraint_of
        (a <~ section_sum i j 2 ;;
         b <~ section_sum i (j + 1) 1 ;;
         Ok (mkCt (eadd a b) LE (of_num 1)
               ("Equation_21_No_Night_To_Morning_Consecutive_Shift_"
                  +:+ str i +:+ "_" +:+ str j)))%res)).

(** *** Goal constraints *)

Definition cell_23 : M unit :=
  forM_ (list_range n) (fun i =>
    forM_ (list_range (m - 2)) (fun j =>
      add_constraint_of
        (a <~ operand (dict_get (h env) (i, j)) ;;
         b <~ day_load i (j + 1) ;;
         c <~ operand (dict_get (h env) (i, j + 2)) ;;
         dn <~ operand (dict_get (d_neg_1 env) (i, j)) ;;
         dp <~ operand (dict_get (d_pos_1 env) (i, j)) ;;
         Ok (mkCt (esub (eadd (eadd (eadd a b) c) dn) dp) EQ (of_num 2)
               ("Goal_Constraint_Equation_22_" +:+ str i +:+ "_" +:+ str j)))%res)).

Definition cell_24 : M unit :=
  forM_ (list_range n) (fun i =>
    forM_ (list_range (m - 2)) (fun j =>
      add_constraint_of
        (a <~ day_load i j ;;
         b <~ operand (dict_get (h env) (i, j + 1)) ;;
         c <~ day_load i (j + 1) ;;
         dn <~ operand (dict_get (d_neg_2 env) (i, j)) ;;
         dp <~ operand (dict_get (d_pos_2 env) (i, j)) ;;
         Ok (mkCt (esub (eadd (eadd (eadd a b) c) dn) dp) EQ (of_num 2)
               ("Goal_Constraint_Equation_23_" +:+ str i +:+ "_" +:+ str j)))%res)).

Definition cell_25 : M unit :=
  forM_ (list_range n) (fun i =>
    add_constraint_of
      (a <~ model_sum (fun '(j, k, l) => operand (dict_get (X env) (i, j, k, l)))
              (j ← list_range m; k ← list_range s; l ← list_range t; [(j, k, l)]) ;;
       dn <~ operand (list_get (d_neg_3 env) (i - 1)) ;;
       dp <~ operand (list_get (d_pos_3 env) (i - 1)) ;;
       Ok (mkCt (esub (eadd a dn) dp) EQ (of_num 22)
             ("Goal_Constraint_Equation_24_" +:+ str i)))%res).

(** The seven cells of equations 25 to 31 differ in the section, the
    deviation pair, the target and the label. *)
Definition quality_cell (k : Z) (d_neg d_pos : gmap (Z * Z) Var)
    (target : Z) (label : string) : M unit :=
  forM_ (list_range m) (fun j =>
    forM_ (list_range t) (fun l =>
      add_constraint_of
        (a <~ model_sum (fun i =>
                           x <~ dict_get (X env) (i, j, k, l) ;;
                           c <~ person_competency i k ;;
                           times x c) (list_range n) ;;
         dn <~ operand (dict_get d_neg (j, l)) ;;
         dp <~ operand (dict_get d_pos (j, l)) ;;
         Ok (mkCt (esub (eadd a dn) dp) EQ (of_num target)
               (label +:+ "_" +:+ str j +:+ "_" +:+ str l)))%res)).

Definition cell_26 := quality_cell 1 (d_neg_4 env) (d_pos_4 env) 3 "Equation_25".
Definition cell_27 := quality_cell 2 (d_neg_5 env) (d_pos_5 env) 4 "Equation_26".
Definition cell_28 := quality_cell 3 (d_neg_6 env) (d_pos_6 env) 4 "Equation_27".
Definition cell_29 := quality_cell 4 (d_neg_7 env) (d_pos_7 env) 4 "Equation_28".
Definition cell_30 := quality_cell 5 (d_neg_8 env) (d_pos_8 env) 6 "Equation_29".
Definition cell_31 := quality_cell 6 (d_neg_9 env) (d_pos_9 env) 8 "Equation_30".
Definition cell_32 := quality_cell 7 (d_neg_10 env) (d_pos_10 env) 5 "Equation_31".

Definition hard_constraints : M unit :=
  (cell_10 ;; cell_11 ;; cell_12 ;; cell_13 ;; cell_14 ;; cell_15 ;; cell_16 ;;
   cell_17 ;; cell_18 ;; cell_19 ;; cell_20 ;; cell_21 ;; cell_22)%cell.

Definition goal_constraints : M unit :=
  (cell_23 ;; cell_24 ;; cell_25 ;; cell_26 ;; cell_27 ;; cell_28 ;; cell_29 ;;
   cell_30 ;; cell_31 ;; cell_32)%cell.

End Notebook.

(** Every cell up to, and not including, the solve cell. *)
Definition build (n m s t : Z) (competency : gmap Z (gmap Z Z)) : M Env :=
  (env <- declare_variables n m s t ;;
   cell_objective n m t env ;;
   hard_constraints n m s t env ;;
   goal_constraints n m s t competency env ;;
   ret env)%cell.

(** The solve cell hands the model to CPLEX, an oracle here: it answers
    with a solution (values by variable name) or with none. *)
Inductive outcome : Type :=
| Stopped (e : error)                 (* a cell raised: the run ends there *)
| NoSolution (submitted : Model)
| Solved (submitted : Model) (values : list (string * Z)).

Definition run (solve : Model -> option (list (string * Z)))
    (n m s t : Z) (competency : gmap Z (gmap Z Z)) : outcome :=
  match build n m s t competency empty_model with
  | Raise e => Stopped e
  | Ok (_, mdl) =>
      match solve mdl with
      | Some values => Solved mdl values
      | None => NoSolution mdl
      end
  end.

(** The models on which the solver was called during a run. *)
Definition solver_calls (o : outcome) : list Model :=
  match o with
  | Stopped _ => []
  | NoSolution mdl => [mdl]
  | Solved mdl _ => [mdl]
  end.

(** ** Variable names and their decoding *)

(** The variable families of the model: the assignment variables [X], the
    leave variables [h], and for every goal [g] the under-achievement
    ([over = false], named [d_neg_g]) and over-achievement ([over = true],
    named [d_pos_g]) deviations. *)
Inductive family : Type :=
| FamX
| Famh
| FamD (over : bool) (goal : Z).

Global Instance family_eq_dec : EqDecision family.
Proof. solve_decision. Defined.

Definition family_name (f : family) : string :=
  match f with
  | FamX => "X"
  | Famh => "h"
  | FamD false g => "d_neg_" +:+ str g
  | FamD true g => "d_pos_" +:+ str g
  end.

(** The number of indices of a family: goal 3 is indexed by the person
    alone, every other goal by a pair. *)
Definition arity (f : family) : nat :=
  match f with
  | FamX => 4
  | Famh => 2
  | FamD _ g => if decide (g = 3) then 1 else 2
  end.

Definition family_type (f : family) : vartype :=
  match f with
  | FamD _ _ => Continuous
  | _ => Binary
  end.

(** The identifier under which the solver knows the variable of family
    [f] at index tuple [key]. *)
Definition encode (f : family) (key : list Z) : string :=
  keyed_name (family_name f) key.

(** The variable of family [f] at [key]. *)
Definition var_of (f : family) (key : list Z) : Var :=
  mkVar (encode f key) (family_type f).

Definition X_var (i j k l : Z) : Var := mkVar (X_name i j k l) Binary.
Definition h_var (i j : Z) : Var := mkVar (h_name i j) Binary.
Definition dev_var (name : string) (key : list Z) : Var :=
  mkVar (keyed_name name key) Continuous.
(** [d⁻_g] and [d⁺_g] at an index tuple *)
Definition d_neg (g : Z) (key : list Z) : Var := var_of (FamD false g) key.
Definition d_pos (g : Z) (key : list Z) : Var := var_of (FamD true g) key.

(** Python's [s.split(sep)] *)
Fixpoint split_on (sep : ascii) (s : string) : list string :=
  match s with
  | EmptyString => [EmptyString]
  | String c s' =>
      if decide (c = sep) then EmptyString :: split_on sep s'
      else match split_on sep s' with
           | tok :: rest => String c tok :: rest
           | [] => [String c EmptyString]
           end
  end.

(** Python's [sep.join(toks)] *)
Definition join (sep : ascii) (toks : list string) : string :=
  match toks with
  | [] => EmptyString
  | tok :: rest => fold_left (fun acc x => acc +:+ String sep x) rest tok
  end.

(** An integer token, accepted only in the form [str] prints. *)
Definition parse_int (s : string) : option Z :=
  match NilEmpty.int_of_string s with
  | Some d => let z := Z.of_int d in
              if decide (str z = s) then Some z else None
  | None => None
  end.

Definition parse_keys (toks : list string) : option (list Z) :=
  mapM parse_int toks.

(** Modelled from the spec: the first step of the Schedule Decoder
    ([src/scheduller.py], imported by the notebook, is not part of the
    sources at hand).  "For every variable, resolve its originating family
    and index tuple (the inverse of the Builder's bijection)": the
    identifier is cut at the underscores, the leading tokens give the
    family and the remaining ones the index tuple. *)
Definition decode (name : string) : option (family * list Z) :=
  match split_on "_" name with
  | "X" :: toks =>
      key ← parse_keys toks;
      if decide (length key = 4%nat) then Some (FamX, key) else None
  | "h" :: toks =>
      key ← parse_keys toks;
      if decide (length key = 2%nat) then Some (Famh, key) else None
  | "d" :: sg :: g :: toks =>
      over ← (if decide (sg = "pos") then Some true
              else if decide (sg = "neg") then Some false else None);
      goal ← parse_int g;
      key ← parse_keys toks;
      if decide (length key = arity (FamD over goal))
      then Some (FamD over goal, key) else None
  | _ => None
  end.

Fixpoint no_sep (sep : ascii) (s : string) : Prop :=
  match s with
  | EmptyString => True
  | String c s' => c <> sep /\ no_sep sep s'
  end.

Definition family_tokens (f : family) : list string :=
  match f with
  | FamX => ["X"]
  | Famh => ["h"]
  | FamD over g => ["d"; if over then "pos" else "neg"; str g]
  end.

(** ** Tables of the instance *)

(** Headcount required per shift in section [k]. *)
Definition requirement (k : Z) : Z :=
  match k with
  | 1 => 3 | 2 => 4 | 3 => 4 | 4 => 4 | 5 => 6 | 6 => 8 | 7 => 5
  | _ => 0
  end.

(** Quality target of section [k]. *)
Definition target (k : Z) : Z :=
  match k with
  | 1 => 3 | 2 => 4 | 3 => 4 | 4 => 4 | 5 => 6 | 6 => 8 | 7 => 5
  | _ => 0
  end.

(** The score the table holds for a pair, [0] when it holds none. *)
Definition score (competency : gmap Z (gmap Z Z)) (i k : Z) : Z :=
  default 0 (competency !! i ≫= fun row => row !! k).

(** The table has a score for every person in [1, n] and every section in
    [1, 7]. *)
Definition covers (competency : gmap Z (gmap Z Z)) (n : Z) : bool :=
  forallb (fun i =>
    forallb (fun k =>
      bool_decide (is_Some (competency !! i ≫= fun row => row !! k)))
      (list_range 7))
    (list_range n).

(** The table has a score in section [k] for every person in [1, n]. *)
Definition section_covered (competency : gmap Z (gmap Z Z)) (n k : Z) : Prop :=
  Forall (fun i => is_Some (competency !! i ≫= fun row => row !! k))
    (list_range n).

(** A table that scores every person of [1, n] with [c] in every section. *)
Definition uniform_competency (n c : Z) : gmap Z (gmap Z Z) :=
  list_to_map (map (fun i =>
    (i, list_to_map (map (fun k => (k, c)) (list_range 7)))) (list_range n)).

(** ** The assembled model in closed form *)

(** [add_cts cs mdl]: the model once the constraints [cs] have been added,
    in that order. *)
Definition add_cts (cs : list Constraint) (mdl : Model) : Model :=
  mkModel (variables mdl) (constraints mdl ++ cs) (objective mdl).

(** A cell that cannot raise and whose whole effect is to add [cs]. *)
Definition adds (c : M unit) (cs : list Constraint) : Prop :=
  forall mdl, c mdl = Ok (tt, add_cts cs mdl).

(** A cell that raises [e], whatever the model. *)
Definition raises {A} (c : M A) (e : error) : Prop :=
  forall mdl, c mdl = Raise e.

Definition matrix_dict (keys1 keys2 : list Z) (name : string)
  : gmap (Z * Z) Var :=
  list_to_map (matrix_entries keys1 keys2 name).
Definition matrix_vars (keys1 keys2 : list Z) (name : string) : list Var :=
  map snd (matrix_entries keys1 keys2 name).
Definition list_vars (keys : list Z) (name : string) : list Var :=
  map (fun k => dev_var name [k]) keys.

Section ClosedForm.

Variables n m s t : Z.
Variable competency : gmap Z (gmap Z Z).

Definition X_entry (key : Z * Z * Z * Z) : Var :=
  let '(i, j, k, l) := key in X_var i j k l.
Definition h_entry (key : Z * Z) : Var :=
  let '(i, j) := key in h_var i j.

(** The dictionaries bound by the declaration cells. *)
Definition declared_env : Env :=
  mkEnv
    (list_to_map (map (fun key => (key, X_entry key)) (X_keys n m s t)))
    (list_to_map (map (fun key => (key, h_entry key)) (h_keys n m)))
    (matrix_dict (range 1 (n+1)) (range 1 (m+1)) "d_neg_1")
    (matrix_dict (range 1 (n+1)) (range 1 (m+1)) "d_pos_1")
    (matrix_dict (range 1 (n+1)) (range 1 (m+1)) "d_neg_2")
    (matrix_dict (range 1 (n+1)) (range 1 (m+1)) "d_pos_2")
    (list_vars (range 1 (n+1)) "d_neg_3")
    (list_vars (range 1 (n+1)) "d_pos_3")
    (matrix_dict (range 1 (m+1)) (range 1 (t+1)) "d_neg_4")
    (matrix_dict (range 1 (m+1)) (range 1 (t+1)) "d_pos_4")
    (matrix_dict (range 1 (m+1)) (range 1 (t+1)) "d_neg_5")
    (matrix_dict (range 1 (m+1)) (range 1 (t+1)) "d_pos_5")
    (matrix_dict (range 1 (m+1)) (range0 (t+1)) "d_neg_6")
    (matrix_dict (range 1 (m+1)) (range 1 (t+1)) "d_pos_6")
    (matrix_dict (range 1 (m+1)) (range 1 (t+1)) "d_neg_7")
    (matrix_dict (range 1 (m+1)) (range 1 (t+1)) "d_pos_7")
    (matrix_dict (range 1 (m+1)) (range 1 (t+1)) "d_neg_8")
    (matrix_dict (range 1 (m+1)) (range 1 (t+1)) "d_pos_8")
    (matrix_dict (range 1 (m+1)) (range 1 (t+1)) "d_neg_9")
    (matrix_dict (range 1 (m+1)) (range 1 (t+1)) "d_pos_9")
    (matrix_dict (range 1 (m+1)) (range 1 (t+1)) "d_neg_10")
    (matrix_dict (range 1 (m+1)) (range 1 (t+1)) "d_pos_10").

(** The variables of the model, in creation order. *)
Definition declared_variables : list Var :=
  map X_entry (X_keys n m s t) ++
  map h_entry (h_keys n m) ++
  matrix_vars (range 1 (n+1)) (range 1 (m+1)) "d_neg_1" ++
  matrix_vars (range 1 (n+1)) (range 1 (m+1)) "d_pos_1" ++
  matrix_vars (range 1 (n+1)) (range 1 (m+1)) "d_neg_2" ++
  matrix_vars (range 1 (n+1)) (range 1 (m+1)) "d_pos_2" ++
  list_vars (range 1 (n+1)) "d_neg_3" ++
  list_vars (range 1 (n+1)) "d_pos_3" ++
  matrix_vars (range 1 (m+1)) (range 1 (t+1)) "d_neg_4" ++
  matrix_vars (range 1 (m+1)) (range 1 (t+1)) "d_pos_4" ++
  matrix_vars (range 1 (m+1)) (range 1 (t+1)) "d_neg_5" ++
  matrix_vars (range 1 (m+1)) (range 1 (t+1)) "d_pos_5" ++
  matrix_vars (range 1 (m+1)) (range0 (t+1)) "d_neg_6" ++
  matrix_vars (range 1 (m+1)) (range 1 (t+1)) "d_pos_6" ++
  matrix_vars (range 1 (m+1)) (range 1 (t+1)) "d_neg_7" ++
  matrix_vars (range 1 (m+1)) (range 1 (t+1)) "d_pos_7" ++
  matrix_vars (range 1 (m+1)) (range 1 (t+1)) "d_neg_8" ++
  matrix_vars (range 1 (m+1)) (range 1 (t+1)) "d_pos_8" ++
  matrix_vars (range 1 (m+1)) (range 1 (t+1)) "d_neg_9" ++
  matrix_vars (range 1 (m+1)) (range 1 (t+1)) "d_pos_9" ++
  matrix_vars (range 1 (m+1)) (range 1 (t+1)) "d_neg_10" ++
  matrix_vars (range 1 (m+1)) (range 1 (t+1)) "d_pos_10".

(** *** Sums of assignment and leave variables *)

(** [Σ_i X(i, j, k, l)] *)
Definition headcount (j k l : Z) : LinExpr :=
  msum (map (fun i => of_var (X_var i j k l)) (list_range n)).

(** [Σ_{k,l} X(i, j, k, l)] *)
Definition day_sum (i j : Z) : LinExpr :=
  msum (map (fun '(k, l) => of_var (X_var i j k l))
          (k ← list_range s; l ← list_range t; [(k, l)])).

(** [Σ_{j,k} X(i, j, k, l)] *)
Definition shift_sum (i l : Z) : LinExpr :=
  msum (map (fun '(j, k) => of_var (X_var i j k l))
          (j ← list_range m; k ← list_range s; [(j, k)])).

(** [Σ_k X(i, j, k, l)] *)
Definition sections_sum (i j l : Z) : LinExpr :=
  msum (map (fun k => of_var (X_var i j k l)) (list_range s)).

(** [Σ_{j,k,l} X(i, j, k, l)] *)
Definition person_sum (i : Z) : LinExpr :=
  msum (map (fun '(j, k, l) => of_var (X_var i j k l))
          (j ← list_range m; k ← list_range s; l ← list_range t; [(j, k, l)])).

(** [Σ_{d=0}^{6} h(i, j+d)] *)
Definition window_sum (i j : Z) : LinExpr :=
  msum (map (fun d => of_var (h_var i (j + d))) (range0 7)).

(** [Σ_i X(i, j, k, l) · CompetencyScore(i, k)], every product as
    docplex makes it: see [monomial]. *)
Definition quality_sum (j k l : Z) : LinExpr :=
  msum (map (fun i => monomial (X_var i j k l) (score competency i k))
          (list_range n)).

(** *** The constraints each cell adds *)

Definition coverage_cts (k req : Z) (label : string) : list Constraint :=
  j ← list_range m; l ← list_range t;
  [mkCt (headcount j k l) EQ (of_num req)
     (label +:+ "_Day_" +:+ str j +:+ "_Shift_" +:+ str l)].

Definition cts_17 : list Constraint :=
  i ← list_range n; j ← list_range m;
  [mkCt (day_sum i j) LE (of_num 1)
     ("Equation_13_Single_Shift_Per_Day_" +:+ str i +:+ "_" +:+ str j)].

Definition cts_18 : list Constraint :=
  i ← list_range n; j ← list_range m;
  [mkCt (day_sum i j) LE (esub (of_num 1) (of_var (h_var i j)))
     ("Equation_14_No_Work_On_Vacation_" +:+ str i +:+ "_" +:+ str j)].

Definition window_max (i j : Z) : Constraint :=
  mkCt (window_sum i j) LE (of_num 2)
    ("Equation_15_Max_2_Vacations_7_Days_" +:+ str i +:+ "_" +:+ str j).
Definition window_min (i j : Z) : Constraint :=
  mkCt (window_sum i j) GE (of_num 1)
    ("Equation_16_Min_1_Vacation_7_Days_" +:+ str i +:+ "_" +:+ str j).

Definition cts_19 : list Constraint :=
  i ← list_range n; j ← list_range (m - 6);
  [window_max i j; window_min i j].

Definition cts_20 : list Constraint :=
  i ← list_range n;
  [mkCt (shift_sum i 1) LE (of_num 12)
     ("Equation_17_Max_Shift_1_Assignments_" +:+ str i);
   mkCt (shift_sum i 2) LE (of_num 12)
     ("Equation_18_Max_Shift_2_Assignments_" +:+ str i)].

Definition cts_21 : list Constraint :=
  i ← list_range n;
  [mkCt (shift_sum i 1) GE (of_num 10)
     ("Equation_19_Min_Shift_1_Assignments_" +:+ str i);
   mkCt (shift_sum i 2) GE (of_num 10)
     ("Equation_20_Min_Shift_2_Assignments_" +:+ str i)].

Definition cts_22 : list Constraint :=
  i ← list_range n; j ← list_range (m - 1);
  [mkCt (eadd (sections_sum i j 2) (sections_sum i (j + 1) 1)) LE (of_num 1)
     ("Equation_21_No_Night_To_Morning_Consecutive_Shift_"
        +:+ str i +:+ "_" +:+ str j)].

(** [h(i,j) + Σ_{k,l} X(i,j+1,k,l) + h(i,j+2) + d⁻₁(i,j) − d⁺₁(i,j)] *)
Definition goal_1_lhs (i j : Z) : LinExpr :=
  esub (eadd (eadd (eadd (of_var (h_var i j)) (day_sum i (j + 1)))
                (of_var (h_var i (j + 2))))
          (of_var (dev_var "d_neg_1" [i; j])))
    (of_var (dev_var "d_pos_1" [i; j])).

(** [Σ_{k,l} X(i,j,k,l) + h(i,j+1) + Σ_{k,l} X(i,j+1,k,l) + d⁻₂(i,j) − d⁺₂(i,j)] *)
Definition goal_2_lhs (i j : Z) : LinExpr :=
  esub (eadd (eadd (eadd (day_sum i j) (of_var (h_var i (j + 1))))
                (day_sum i (j + 1)))
          (of_var (dev_var "d_neg_2" [i; j])))
    (of_var (dev_var "d_pos_2" [i; j])).

(** [Σ_{j,k,l} X(i,j,k,l) + d⁻₃(i) − d⁺₃(i)] *)
Definition goal_3_lhs (i : Z) : LinExpr :=
  esub (eadd (person_sum i) (of_var (dev_var "d_neg_3" [i])))
    (of_var (dev_var "d_pos_3" [i])).

(** [Σ_i X(i,j,k,l)·CompetencyScore(i,k) + d⁻(j,l) − d⁺(j,l)] for the
    deviation pair named [dn], [dp] *)
Definition quality_lhs (k : Z) (dn dp : string) (j l : Z) : LinExpr :=
  esub (eadd (quality_sum j k l) (of_var (dev_var dn [j; l])))
    (of_var (dev_var dp [j; l])).

Definition cts_23 : list Constraint :=
  i ← list_range n; j ← list_range (m - 2);
  [mkCt (goal_1_lhs i j) EQ (of_num 2)
     ("Goal_Constraint_Equation_22_" +:+ str i +:+ "_" +:+ str j)].

Definition cts_24 : list Constraint :=
  i ← list_range n; j ← list_range (m - 2);
  [mkCt (goal_2_lhs i j) EQ (of_num 2)
     ("Goal_Constraint_Equation_23_" +:+ str i +:+ "_" +:+ str j)].

Definition cts_25 : list Constraint :=
  i ← list_range n;
  [mkCt (goal_3_lhs i) EQ (of_num 22)
     ("Goal_Constraint_Equation_24_" +:+ str i)].

Definition quality_cts (k : Z) (dn dp : string) (tgt : Z) (label : string)
  : list Constraint :=
  j ← list_range m; l ← list_range t;
  [mkCt (quality_lhs k dn dp j l) EQ (of_num tgt)
     (label +:+ "_" +:+ str j +:+ "_" +:+ str l)].

Definition hard_cts : list Constraint :=
  coverage_cts 1 3 "Equation_6_Personnel_Requirement_Section_1" ++
  coverage_cts 2 4 "Equation_7_Personnel_Requirement_Section_2" ++
  coverage_cts 3 4 "Equation_8_Personnel_Requirement_Section_3" ++
  coverage_cts 3 4 "Equation_9_Personnel_Requirement_Section_4" ++
  coverage_cts 5 6 "Equation_10_Personnel_Requirement_Section_5" ++
  coverage_cts 6 8 "Equation_11_Personnel_Requirement_Section_6" ++
  coverage_cts 7 5 "Equation_12_Personnel_Requirement_Section_7" ++
  cts_17 ++ cts_18 ++ cts_19 ++ cts_20 ++ cts_21 ++ cts_22.

Definition goal_cts : list Constraint :=
  cts_23 ++ cts_24 ++ cts_25 ++
  quality_cts 1 "d_neg_4" "d_pos_4" 3 "Equation_25" ++
  quality_cts 2 "d_neg_5" "d_pos_5" 4 "Equation_26" ++
  quality_cts 3 "d_neg_6" "d_pos_6" 4 "Equation_27" ++
  quality_cts 4 "d_neg_7" "d_pos_7" 4 "Equation_28" ++
  quality_cts 5 "d_neg_8" "d_pos_8" 6 "Equation_29" ++
  quality_cts 6 "d_neg_9" "d_pos_9" 8 "Equation_30" ++
  quality_cts 7 "d_neg_10" "d_pos_10" 5 "Equation_31".

Definition all_cts : list Constraint := hard_cts ++ goal_cts.

(** *** The objective *)

(** [Σ_{i∈[1,n], j∈[1,m]} (d⁻_g(i,j) + d⁺_g(i,j))] *)
Definition both_directions (g : Z) : LinExpr :=
  msum (map (fun '(i, j) => eadd (of_var (d_neg g [i; j])) (of_var (d_pos g [i; j])))
          (i ← list_range n; j ← list_range m; [(i, j)])).

(** [Σ_{i∈[1,n]} (d⁻₃(i) + d⁺₃(i))] *)
Definition both_directions_3 : LinExpr :=
  msum (map (fun i => eadd (of_var (d_neg 3 [i])) (of_var (d_pos 3 [i])))
          (list_range n)).

(** [Σ_{j∈[1,m], l∈[1,t]} d⁺_g(j,l)] *)
Definition over_only (g : Z) : LinExpr :=
  msum (map (fun '(j, l) => of_var (d_pos g [j; l]))
          (j ← list_range m; l ← list_range t; [(j, l)])).

(** The objective in the words of the specification: both directions
    for goals 1, 2 and 3, the over-achievement alone for goals 4 to 10,
    every deviation with coefficient one. *)
Definition spec_objective : LinExpr :=
  eadd (eadd (eadd (eadd (eadd (eadd (eadd (eadd (eadd
    (both_directions 1) (both_directions 2)) both_directions_3)
    (over_only 4)) (over_only 5)) (over_only 6)) (over_only 7))
    (over_only 8)) (over_only 9)) (over_only 10).

(** The model the notebook hands to the solver. *)
Definition built_model : Model :=
  mkModel declared_variables all_cts (Some spec_objective).

End ClosedForm.

Global Instance LinExpr_eq_dec : EqDecision LinExpr.
Proof. solve_decision. Defined.
Global Instance Constraint_eq_dec : EqDecision Constraint.
Proof. solve_decision. Defined.

(** ** The forms of the constraints *)

Definition is_assignment (v : Var) : Prop :=
  exists i j k l, v = X_var i j k l.
Definition is_leave (v : Var) : Prop :=
  exists i j, v = h_var i j.
Definition is_deviation (v : Var) : Prop :=
  exists over g key, length key = arity (FamD over g) /\ v = var_of (FamD over g) key.

(** The deviations the objective may mention: any of goals 1 to 3, and
    the over-achievements of the other goals. *)
Definition penalised (v : Var) : Prop :=
  exists over g key,
    v = var_of (FamD over g) key /\ length key = arity (FamD over g)
    /\ (over = true \/ 1 <= g <= 3).

Section Shapes.

Variables n m s t : Z.
Variable competency : gmap Z (gmap Z Z).

(** The forms a constraint of the model can take, the rolling leave
    windows of equations 15 and 16 apart. *)
Inductive shape : Constraint -> Prop :=
| shape_coverage k req name j l :
    k <> 4 ->
    shape (mkCt (headcount n j k l) EQ (of_num req) name)
| shape_single_shift i j name :
    shape (mkCt (day_sum s t i j) LE (of_num 1) name)
| shape_no_work_on_leave i j name :
    shape (mkCt (day_sum s t i j) LE (esub (of_num 1) (of_var (h_var i j))) name)
| shape_shift_load i l rel bound name :
    rel <> EQ ->
    shape (mkCt (shift_sum m s i l) rel (of_num bound) name)
| shape_night_morning i j name :
    shape (mkCt (eadd (sections_sum s i j 2) (sections_sum s i (j + 1) 1))
             LE (of_num 1) name)
| shape_goal_1 i j name :
    1 <= j <= m - 2 ->
    shape (mkCt (goal_1_lhs s t i j) EQ (of_num 2) name)
| shape_goal_2 i j name :
    1 <= j <= m - 2 ->
    shape (mkCt (goal_2_lhs s t i j) EQ (of_num 2) name)
| shape_goal_3 i name :
    shape (mkCt (goal_3_lhs m s t i) EQ (of_num 22) name)
| shape_quality k dn dp g tgt name j l :
    4 <= g <= 10 ->
    dev_var dn = d_neg g -> dev_var dp = d_pos g ->
    shape (mkCt (quality_lhs n competency k dn dp j l) EQ (of_num tgt) name).

(** The constraints added before and after the rolling-window cell. *)
Definition before_windows : list Constraint :=
  coverage_cts n m t 1 3 "Equation_6_Personnel_Requirement_Section_1" ++
  coverage_cts n m t 2 4 "Equation_7_Personnel_Requirement_Section_2" ++
  coverage_cts n m t 3 4 "Equation_8_Personnel_Requirement_Section_3" ++
  coverage_cts n m t 3 4 "Equation_9_Personnel_Requirement_Section_4" ++
  coverage_cts n m t 5 6 "Equation_10_Personnel_Requirement_Section_5" ++
  coverage_cts n m t 6 8 "Equation_11_Personnel_Requirement_Section_6" ++
  coverage_cts n m t 7 5 "Equation_12_Personnel_Requirement_Section_7" ++
  cts_17 n m s t ++ cts_18 n m s t.

Definition after_windows : list Constraint :=
  cts_20 n m s ++ cts_21 n m s ++ cts_22 n m s ++ goal_cts n m s t competency.

End Shapes.

(** ** Counting variables by name *)

Definition named_with (prefix : string) (v : Var) : bool :=
  String.prefix prefix (var_name v).

Definition count_named (prefix : string) (vs : list Var) : nat :=
  length (filter (fun v => named_with prefix v = true) vs).

Definition count_binary (vs : list Var) : nat :=
  length (filter (fun v => var_type v = Binary) vs).

(** ** The rows of the repeated cells *)

(** Equations 6 to 12 as the notebook has them: the section index inside
    the sum, the right-hand side, the label. *)
Definition coverage_rows : list (Z * Z * string) :=
  [(1, 3, "Equation_6_Personnel_Requirement_Section_1");
   (2, 4, "Equation_7_Personnel_Requirement_Section_2");
   (3, 4, "Equation_8_Personnel_Requirement_Section_3");
   (3, 4, "Equation_9_Personnel_Requirement_Section_4");
   (5, 6, "Equation_10_Personnel_Requirement_Section_5");
   (6, 8, "Equation_11_Personnel_Requirement_Section_6");
   (7, 5, "Equation_12_Personnel_Requirement_Section_7")].

(** Equations 25 to 31: section, deviation pair, target, label. *)
Definition quality_rows : list (Z * string * string * Z * string) :=
  [(1, "d_neg_4", "d_pos_4", 3, "Equation_25");
   (2, "d_neg_5", "d_pos_5", 4, "Equation_26");
   (3, "d_neg_6", "d_pos_6", 4, "Equation_27");
   (4, "d_neg_7", "d_pos_7", 4, "Equation_28");
   (5, "d_neg_8", "d_pos_8", 6, "Equation_29");
   (6, "d_neg_9", "d_pos_9", 8, "Equation_30");
   (7, "d_neg_10", "d_pos_10", 5, "Equation_31")].

(** A cell that leaves the variables of the model as they are. *)
Definition keeps_variables {A} (c : M A) : Prop :=
  forall mdl a mdl', c mdl = Ok (a, mdl') -> variables mdl' = variables mdl.

(** The exceptions a competency lookup can end in. *)
Definition lookup_error (e : error) : Prop :=
  e = AttributeError \/ e = DOcplexException.

(** The variables a constraint of the model may mention: any assignment
    or leave variable, and any deviation, those of goals 1 and 2 at days
    up to [m − 2] only. *)
Definition constrained (m : Z) (w : Var) : Prop :=
  is_assignment w \/ is_leave w \/
  exists over g key,
    w = var_of (FamD over g) key /\ length key = arity (FamD over g) /\
    (g = 1 \/ g = 2 -> exists i j, key = [i; j] /\ 1 <= j <= m - 2).

(** ** Proof steps that recur *)

(** Take apart the membership of an element in a list built by nested
    comprehensions and appends. *)
Ltac member_of_cell :=
  repeat match goal with
  | H : _ ∈ _ ++ _ |- _ => apply elem_of_app in H as [H|H]
  | H : _ ∈ _ ≫= _ |- _ => apply list_elem_of_bind in H as (? & H & ?)
  | H : _ ∈ _ :: _ |- _ => apply elem_of_cons in H as [->|H]
  | H : _ ∈ [] |- _ => by apply elem_of_nil in H
  end.

(** The same for a tuple in a comprehension of tuples. *)
Ltac bind_inv :=
  repeat match goal with
  | H : _ ∈ _ ≫= _ |- _ => apply list_elem_of_bind in H as (? & H & ?)
  | H : _ ∈ [_] |- _ => apply list_elem_of_singleton in H; simplify_eq
  end.

(** ** The declared variables by family *)

Definition pair_keys (keys1 keys2 : list Z) : list (list Z) :=
  map (fun key : Z * Z => [key.1; key.2]) (k1 ← keys1; k2 ← keys2; [(k1, k2)]).
Definition single_keys (keys : list Z) : list (list Z) :=
  map (fun k => [k]) keys.

(** The families in declaration order, each with the index tuples it is
    declared over. *)
Definition declared_tuples (n m s t : Z) : list (family * list (list Z)) :=
  [(FamX, map (fun '(i, j, k, l) => [i; j; k; l]) (X_keys n m s t));
   (Famh, map (fun '(i, j) => [i; j]) (h_keys n m));
   (FamD false 1, pair_keys (range 1 (n+1)) (range 1 (m+1)));
   (FamD true 1, pair_keys (range 1 (n+1)) (range 1 (m+1)));
   (FamD false 2, pair_keys (range 1 (n+1)) (range 1 (m+1)));
   (FamD true 2, pair_keys (range 1 (n+1)) (range 1 (m+1)));
   (FamD false 3, single_keys (range 1 (n+1)));
   (FamD true 3, single_keys (range 1 (n+1)));
   (FamD false 4, pair_keys (range 1 (m+1)) (range 1 (t+1)));
   (FamD true 4, pair_keys (range 1 (m+1)) (range 1 (t+1)));
   (FamD false 5, pair_keys (range 1 (m+1)) (range 1 (t+1)));
   (FamD true 5, pair_keys (range 1 (m+1)) (range 1 (t+1)));
   (FamD false 6, pair_keys (range 1 (m+1)) (range0 (t+1)));
   (FamD true 6, pair_keys (range 1 (m+1)) (range 1 (t+1)));
   (FamD false 7, pair_keys (range 1 (m+1)) (range 1 (t+1)));
   (FamD true 7, pair_keys (range 1 (m+1)) (range 1 (t+1)));
   (FamD false 8, pair_keys (range 1 (m+1)) (range 1 (t+1)));
   (FamD true 8, pair_keys (range 1 (m+1)) (range 1 (t+1)));
   (FamD false 9, pair_keys (range 1 (m+1)) (range 1 (t+1)));
   (FamD true 9, pair_keys (range 1 (m+1)) (range 1 (t+1)));
   (FamD false 10, pair_keys (range 1 (m+1)) (range 1 (t+1)));
   (FamD true 10, pair_keys (range 1 (m+1)) (range 1 (t+1)))].

(** Every declared (family, tuple). *)
Definition declared_tagged (n m s t : Z) : list (family * list Z) :=
  g ← declared_tuples n m s t; map (fun key => (g.1, key)) g.2.

(** ** The variables a model is written over *)

(** The variables that occur in the constraints of a model, in its
    objective, and in either. *)
Definition constraint_vars (mdl : Model) : list Var :=
  constraints mdl ≫= ct_vars.
Definition objective_vars (mdl : Model) : list Var :=
  match objective mdl with
  | Some e => expr_vars e
  | None => []
  end.
Definition mentioned (mdl : Model) : list Var :=
  constraint_vars mdl ++ objective_vars mdl.

(** The variables the cells of equations 6 to 31 look up: every
    assignment and leave variable of the index domains, the deviations of
    goals 1 and 2 up to day [m − 2], those of goal 3, and those of goals 4
    to 10 at the shifts [1] to [t]. *)
Definition in_constraints (n m s t : Z) (w : Var) : Prop :=
  (exists i j k l, w = X_var i j k l /\
     1 <= i <= n /\ 1 <= j <= m /\ 1 <= k <= s /\ 1 <= l <= t) \/
  (exists i j, w = h_var i j /\ 1 <= i <= n /\ 1 <= j <= m) \/
  (exists over g i j, w = var_of (FamD over g) [i; j] /\
     (g = 1 \/ g = 2) /\ 1 <= i <= n /\ 1 <= j <= m - 2) \/
  (exists over i, w = var_of (FamD over 3) [i] /\ 1 <= i <= n) \/
  (exists over g j l, w = var_of (FamD over g) [j; l] /\
     4 <= g <= 10 /\ 1 <= j <= m /\ 1 <= l <= t).

(** The deviations of goals 1 and 2 at the last two days. *)
Definition last_days (n m : Z) (w : Var) : Prop :=
  exists over g i j, w = var_of (FamD over g) [i; j] /\
    (g = 1 \/ g = 2) /\ 1 <= i <= n /\ 1 <= j <= m /\ m - 2 < j.

(** The shift-0 column of [d_neg_6]. *)
Definition shift_zero (m : Z) (w : Var) : Prop :=
  exists j, 1 <= j <= m /\ w = d_neg 6 [j; 0].

(** ** Solutions *)

(** A solution gives every variable a value, its [solution_value]; the
    values are rational numbers here. *)
Definition sumQ (l : list Q) : Q := fold_right Qplus 0%Q l.

(** The value of a linear expression under a solution. *)
Definition eval_terms (σ : Var -> Q) (ts : list (Var * Z)) : Q :=
  sumQ (map (fun tm => (inject_Z (snd tm) * σ (fst tm))%Q) ts).
Definition eval (σ : Var -> Q) (e : LinExpr) : Q :=
  (eval_terms σ (terms e) + inject_Z (constant e))%Q.

(** A constraint holds under a solution. *)
Definition holds (σ : Var -> Q) (c : Constraint) : Prop :=
  match ct_sense c with
  | LE => (eval σ (ct_lhs c) <= eval σ (ct_rhs c))%Q
  | GE => (eval σ (ct_rhs c) <= eval σ (ct_lhs c))%Q
  | EQ => (eval σ (ct_lhs c) == eval σ (ct_rhs c))%Q
  end.

(** The values a variable may take: [0] or [1] for a variable made by
    [binary_var]; any value from [0] on for one made by
    [continuous_var_matrix] or [continuous_var_list], whose lower bound
    docplex sets to [0] when none is given. *)
Definition in_domain (σ : Var -> Q) (v : Var) : Prop :=
  match var_type v with
  | Binary => (σ v == 0 \/ σ v == 1)%Q
  | Continuous => (0 <= σ v)%Q
  end.

(** A solution is feasible for a model when every variable is within its
    domain and every constraint holds. *)
Definition feasible (mdl : Model) (σ : Var -> Q) : Prop :=
  Forall (in_domain σ) (variables mdl) /\ Forall (holds σ) (constraints mdl).

(** The sum of the values of the assignment variables at the index tuples
    [keys]. *)
Definition assignments (σ : Var -> Q) (keys : list (Z * Z * Z * Z)) : Q :=
  sumQ (map (fun key => σ (X_entry key)) keys).

(** The sections that have a coverage constraint of their own. *)
Definition covered_sections : list Z := [1; 2; 3; 5; 6; 7].

(** The index tuples of the sums [Σ_i X(i,j,k,l)], [Σ_{k,l} X(i,j,k,l)]
    and [Σ_{j,k} X(i,j,k,l)]. *)
Definition headcount_keys (n j k l : Z) : list (Z * Z * Z * Z) :=
  map (fun i => (i, j, k, l)) (list_range n).
Definition day_keys (s t i j : Z) : list (Z * Z * Z * Z) :=
  map (fun p : Z * Z => (i, j, p.1, p.2))
    (k ← list_range s; l ← list_range t; [(k, l)]).
Definition shift_keys (m s i l : Z) : list (Z * Z * Z * Z) :=
  map (fun p : Z * Z => (i, p.1, p.2, l))
    (j ← list_range m; k ← list_range s; [(j, k)]).

(** ** The solve cell *)

(** A Python dictionary with string keys: the entries in the order in
    which their keys were first assigned; assigning to a key that is
    present replaces its value where it stands. *)
Fixpoint dict_set {V} (d : list (string * V)) (k : string) (v : V)
  : list (string * V) :=
  match d with
  | [] => [(k, v)]
  | (k', v') :: d' =>
      if decide (k' = k) then (k', v) :: d' else (k', v') :: dict_set d' k v
  end.

(** [{var.name: var.solution_value for var in model.iter_variables()}],
    [iter_variables] going through the variables in creation order.  The
    entries of this dictionary, in this order, are the rows of the data
    frame the cell writes to [solution.xlsx]. *)
Definition solution_dict {V} (solution_value : Var -> V) (mdl : Model)
  : list (string * V) :=
  fold_left (fun d var => dict_set d (var_name var) (solution_value var))
    (variables mdl) [].

(** ** The labels of the constraints *)

(** [name.startswith(p)] *)
Fixpoint starts_with (p name : string) : bool :=
  match p with
  | EmptyString => true
  | String a p' =>
      match name with
      | EmptyString => false
      | String b name' => if Ascii.eqb a b then starts_with p' name' else false
      end
  end.

(** How the labels of the cells begin, cell by cell in the order of the
    notebook. *)
Definition label_prefixes : list string :=
  ["Equation_6_"; "Equation_7_"; "Equation_8_"; "Equation_9_";
   "Equation_10_"; "Equation_11_"; "Equation_12_"; "Equation_13_";
   "Equation_14_"; "Equation_15_"; "Equation_16_"; "Equation_17_";
   "Equation_18_"; "Equation_19_"; "Equation_20_"; "Equation_21_";
   "Goal_Constraint_Equation_22_"; "Goal_Constraint_Equation_23_";
   "Goal_Constraint_Equation_24_";
   "Equation_25_"; "Equation_26_"; "Equation_27_"; "Equation_28_";
   "Equation_29_"; "Equation_30_"; "Equation_31_"].

(** The position in [ps] of the first beginning of [name]. *)
Fixpoint label_index (ps : list string) (name : string) : nat :=
  match ps with
  | [] => 0
  | p :: ps' => if starts_with p name then 0%nat else S (label_index ps' name)
  end.

(** The equation a constraint belongs to, by its label. *)
Definition label_of (c : Constraint) : nat :=
  label_index label_prefixes (ct_name c).

(** ** Deviations that close the gap *)

(** What a goal constraint compares with its target: the left-hand side
    without the two deviations.  Goals 1 and 2 are indexed by person and
    day, goal 3 by person, goal [g] of 4 to 10 by day and shift for the
    section [g − 3]. *)
Definition achieved (n m s t : Z) (competency : gmap Z (gmap Z Z))
    (g : Z) (key : list Z) : LinExpr :=
  match key with
  | [a; b] =>
      if decide (g = 1) then
        (of_var (h_var a b) ⊕ day_sum s t a (b + 1) ⊕ of_var (h_var a (b + 2)))%expr
      else if decide (g = 2) then
        (day_sum s t a b ⊕ of_var (h_var a (b + 1)) ⊕ day_sum s t a (b + 1))%expr
      else quality_sum n competency a (g - 3) b
  | [a] => person_sum m s t a
  | _ => of_num 0
  end.

Definition goal_target (g : Z) : Z :=
  if decide (g = 1) then 2
  else if decide (g = 2) then 2
  else if decide (g = 3) then 22
  else target (g - 3).

(** The positive part of a number. *)
Definition positive_part (x : Q) : Q := if Qle_bool 0 x then x else 0%Q.

(** The solution that keeps the values of the binary variables and gives
    every deviation the value that closes the gap of its goal: the excess
    over the target to [d⁺], the shortfall to [d⁻]. *)
Definition absorb (n m s t : Z) (competency : gmap Z (gmap Z Z))
    (σ : Var -> Q) (v : Var) : Q :=
  match var_type v with
  | Binary => σ v
  | Continuous =>
      match decode (var_name v) with
      | Some (FamD over g, key) =>
          let gap := (eval σ (achieved n m s t competency g key)
                      - inject_Z (goal_target g))%Q in
          if over then positive_part gap else positive_part (- gap)
      | _ => 0%Q
      end
  end.

(** * Properties *)

(** ** Ranges *)

Lemma elem_of_range a b x : x ∈ range a b <-> a <= x < b.
Proof. unfold range. rewrite elem_of_seqZ. lia. Qed.

Lemma elem_of_list_range x k : k ∈ list_range x <-> 1 <= k <= x.
Proof. unfold list_range. rewrite elem_of_range. lia. Qed.

Lemma NoDup_range a b : NoDup (range a b).
Proof. apply NoDup_seqZ. Qed.

Lemma NoDup_list_range x : NoDup (list_range x).
Proof. apply NoDup_range. Qed.

Lemma length_range a b : length (range a b) = Z.to_nat (b - a).
Proof. apply length_seqZ. Qed.

Lemma length_list_range x : length (list_range x) = Z.to_nat x.
Proof. unfold list_range. rewrite length_range. f_equal. lia. Qed.

Lemma list_range_nonpos x : x <= 0 -> list_range x = [].
Proof.
  intros Hx. apply length_zero_iff_nil. rewrite length_list_range. lia.
Qed.

Lemma range_cons a b : a < b -> range a b = a :: range (a + 1) b.
Proof.
  intros Hab. unfold range. rewrite seqZ_cons by lia.
  f_equal. f_equal; lia.
Qed.

Lemma list_range_cons x : 1 <= x -> list_range x = 1 :: range 2 (x + 1).
Proof. intros Hx. unfold list_range. by rewrite range_cons by lia. Qed.

(** ** Generators and sums *)

Lemma mapR_ok {A B} (f : A -> result B) (g : A -> B) (l : list A) :
  (forall x, x ∈ l -> f x = Ok (g x)) -> mapR f l = Ok (map g l).
Proof.
  induction l as [|x l IH]; intros Hf; [done|].
  simpl. rewrite Hf by left. simpl. rewrite IH; [done|].
  intros y Hy. apply Hf. by right.
Qed.

Lemma model_sum_ok {A} (gen : A -> result LinExpr) (g : A -> LinExpr) l :
  (forall x, x ∈ l -> gen x = Ok (g x)) ->
  model_sum gen l = Ok (msum (map g l)).
Proof. intros Hg. unfold model_sum. by rewrite (mapR_ok _ g). Qed.

Lemma mapR_raise {A B} (f : A -> result B) (l : list A) (P : error -> Prop) :
  (forall x, x ∈ l -> (exists y, f x = Ok y) \/ (exists e, f x = Raise e /\ P e)) ->
  (exists x, x ∈ l /\ exists e, f x = Raise e) ->
  exists e, mapR f l = Raise e /\ P e.
Proof.
  induction l as [|x l IH]; intros Hall (x0 & Hin & e0 & He0).
  - by apply elem_of_nil in Hin.
  - simpl. destruct (Hall x) as [[y Hy]|(e & Hx & HP)]; [by left| |].
    + rewrite Hy. simpl.
      destruct IH as (e & -> & HP).
      * intros z Hz. apply Hall. by right.
      * apply elem_of_cons in Hin as [->|Hin]; [congruence|]. eauto.
      * eauto.
    + rewrite Hx. simpl. eauto.
Qed.

(** ** Dictionaries built by comprehension *)

Lemma lookup_keyed `{Countable K} {V} (g : K -> V) (keys : list K) (k : K) :
  (list_to_map (map (fun k => (k, g k)) keys) : gmap K V) !! k
  = if decide (k ∈ keys) then Some (g k) else None.
Proof.
  induction keys as [|k' keys IH].
  - cbn [map]. rewrite list_to_map_nil, lookup_empty.
    destruct (decide (k ∈ [])) as [Hin|]; [|done].
    by apply elem_of_nil in Hin.
  - change (map (fun k0 => (k0, g k0)) (k' :: keys))
      with ((k', g k') :: map (fun k0 => (k0, g k0)) keys).
    rewrite list_to_map_cons.
    destruct (decide (k' = k)) as [->|Hne].
    + rewrite lookup_insert_eq.
      destruct (decide (k ∈ k :: keys)) as [|Hnin]; [done|].
      destruct Hnin. by left.
    + rewrite lookup_insert_ne by done. rewrite IH.
      destruct (decide (k ∈ keys)) as [Hin|Hnin];
        destruct (decide (k ∈ k' :: keys)) as [Hin'|Hnin']; try done.
      * destruct Hnin'. by right.
      * apply elem_of_cons in Hin' as [?|?]; congruence.
Qed.

Lemma dict_get_keyed `{Countable K} {V} (g : K -> V) (keys : list K) (k : K) :
  k ∈ keys ->
  dict_get (list_to_map (map (fun k => (k, g k)) keys) : gmap K V) k = Ok (g k).
Proof.
  intros Hin. unfold dict_get. rewrite lookup_keyed. by rewrite decide_True.
Qed.

Lemma matrix_entries_keyed keys1 keys2 name :
  matrix_entries keys1 keys2 name
  = map (fun key => (key, dev_var name [key.1; key.2]))
      (k1 ← keys1; k2 ← keys2; [(k1, k2)]).
Proof.
  unfold matrix_entries.
  induction keys1 as [|k1 keys1 IH]; [done|].
  cbn [mbind list_bind]. rewrite map_app. f_equal; [|apply IH].
  clear IH. induction keys2 as [|k2 keys2 IH]; [done|].
  cbn [mbind list_bind]. cbn [app map]. f_equal. apply IH.
Qed.

Lemma elem_of_pairs {A B} (l1 : list A) (l2 : list B) (a : A) (b : B) :
  (a, b) ∈ (x ← l1; y ← l2; [(x, y)]) <-> a ∈ l1 /\ b ∈ l2.
Proof.
  rewrite list_elem_of_bind. split.
  - intros (x & Hin & Hx). apply list_elem_of_bind in Hin as (y & Hin & Hy).
    apply list_elem_of_singleton in Hin. by injection Hin as -> ->.
  - intros [Ha Hb]. exists a. split; [|done].
    apply list_elem_of_bind. exists b. split; [|done]. by left.
Qed.

Lemma elem_of_triples {A B C} (l1 : list A) (l2 : list B) (l3 : list C) a b c :
  (a, b, c) ∈ (x ← l1; y ← l2; z ← l3; [(x, y, z)])
  <-> a ∈ l1 /\ b ∈ l2 /\ c ∈ l3.
Proof.
  rewrite list_elem_of_bind. split.
  - intros (x & Hin & Hx). apply list_elem_of_bind in Hin as (y & Hin & Hy).
    apply list_elem_of_bind in Hin as (z & Hin & Hz).
    apply list_elem_of_singleton in Hin. by injection Hin as -> -> ->.
  - intros (Ha & Hb & Hc). exists a. split; [|done].
    apply list_elem_of_bind. exists b. split; [|done].
    apply list_elem_of_bind. exists c. split; [|done]. by left.
Qed.

Lemma elem_of_X_keys n m s t i j k l :
  (i, j, k, l) ∈ X_keys n m s t
  <-> 1 <= i <= n /\ 1 <= j <= m /\ 1 <= k <= s /\ 1 <= l <= t.
Proof.
  unfold X_keys. rewrite <- !elem_of_list_range. rewrite list_elem_of_bind. split.
  - intros (x & Hin & Hx). apply list_elem_of_bind in Hin as (y & Hin & Hy).
    apply list_elem_of_bind in Hin as (z & Hin & Hz).
    apply list_elem_of_bind in Hin as (w & Hin & Hw).
    apply list_elem_of_singleton in Hin. by injection Hin as -> -> -> ->.
  - intros (Ha & Hb & Hc & Hd). exists i. split; [|done].
    apply list_elem_of_bind. exists j. split; [|done].
    apply list_elem_of_bind. exists k. split; [|done].
    apply list_elem_of_bind. exists l. split; [|done]. by left.
Qed.

Lemma elem_of_h_keys n m i j :
  (i, j) ∈ h_keys n m <-> 1 <= i <= n /\ 1 <= j <= m.
Proof.
  unfold h_keys. by rewrite elem_of_pairs, !elem_of_list_range.
Qed.

Lemma matrix_dict_lookup keys1 keys2 name a b :
  matrix_dict keys1 keys2 name !! (a, b)
  = if decide (a ∈ keys1 /\ b ∈ keys2) then Some (dev_var name [a; b]) else None.
Proof.
  unfold matrix_dict. rewrite matrix_entries_keyed.
  rewrite (lookup_keyed (fun key => dev_var name [key.1; key.2])).
  destruct (decide (a ∈ keys1 /\ b ∈ keys2)) as [Hin|Hnin].
  - by rewrite decide_True by (by apply elem_of_pairs).
  - rewrite decide_False; [done|]. by rewrite elem_of_pairs.
Qed.

Lemma matrix_get keys1 keys2 name a b :
  a ∈ keys1 -> b ∈ keys2 ->
  operand (dict_get (matrix_dict keys1 keys2 name) (a, b))
  = Ok (of_var (dev_var name [a; b])).
Proof.
  intros Ha Hb. unfold operand, dict_get. rewrite matrix_dict_lookup.
  by rewrite decide_True.
Qed.

Lemma matrix_vars_eq keys1 keys2 name :
  matrix_vars keys1 keys2 name
  = map (fun key => dev_var name [key.1; key.2])
      (k1 ← keys1; k2 ← keys2; [(k1, k2)]).
Proof.
  unfold matrix_vars. rewrite matrix_entries_keyed, map_map. done.
Qed.

(** [l[p]] on the list made by [continuous_var_list] over the keys
    [1..n]: position [p] holds the variable of key [p + 1]. *)
Lemma list_vars_get n name p :
  0 <= p < n ->
  operand (list_get (list_vars (range 1 (n + 1)) name) p)
  = Ok (of_var (dev_var name [p + 1])).
Proof.
  intros Hp. unfold operand, list_get, list_vars.
  rewrite length_map, length_range.
  destruct (Z.ltb_spec p 0); [lia|]. destruct (Z.ltb_spec p 0); [lia|].
  rewrite list_lookup_fmap. unfold range.
  rewrite lookup_seqZ_lt by lia. simpl. do 4 f_equal. lia.
Qed.

(** ** The declaration cells *)

Lemma collectM_binary {K} (f : K -> M (K * Var)) (g : K -> Var) keys mdl :
  (forall key mdl, f key mdl =
     Ok ((key, g key),
         mkModel (variables mdl ++ [g key]) (constraints mdl) (objective mdl))) ->
  collectM f keys mdl =
    Ok (map (fun key => (key, g key)) keys,
        mkModel (variables mdl ++ map g keys) (constraints mdl) (objective mdl)).
Proof.
  intros Hf. revert mdl. induction keys as [|key keys IH]; intros mdl.
  - cbn. rewrite app_nil_r. by destruct mdl.
  - cbn [collectM]. unfold bind at 1. rewrite Hf.
    unfold bind at 1. rewrite IH. cbn. by rewrite <- app_assoc.
Qed.

Lemma cell_X_eq n m s t mdl :
  cell_X n m s t mdl =
    Ok (X (declared_env n m s t),
        mkModel (variables mdl ++ map X_entry (X_keys n m s t))
          (constraints mdl) (objective mdl)).
Proof.
  unfold cell_X, bind.
  rewrite (collectM_binary _ X_entry); [done|].
  by intros [[[i j] k] l] mdl'.
Qed.

Lemma cell_h_eq n m mdl :
  cell_h n m mdl =
    Ok (h (declared_env n m 0 0),
        mkModel (variables mdl ++ map h_entry (h_keys n m))
          (constraints mdl) (objective mdl)).
Proof.
  unfold cell_h, bind.
  rewrite (collectM_binary _ h_entry); [done|].
  by intros [i j] mdl'.
Qed.

(** A matrix of variables over keys of which there are some. *)
Lemma continuous_var_matrix_ok keys1 keys2 name mdl :
  keys1 <> [] -> keys2 <> [] ->
  continuous_var_matrix keys1 keys2 name mdl =
    Ok (matrix_dict keys1 keys2 name,
        mkModel (variables mdl ++ matrix_vars keys1 keys2 name)
          (constraints mdl) (objective mdl)).
Proof.
  intros H1 H2. unfold continuous_var_matrix, matrix_dict, matrix_vars.
  destruct (matrix_entries keys1 keys2 name) as [|e es] eqn:E; [|done].
  destruct keys1 as [|k1 keys1]; [done|]. destruct keys2 as [|k2 keys2]; [done|].
  discriminate E.
Qed.

(** A matrix of variables over no key at all. *)
Lemma continuous_var_matrix_empty keys1 keys2 name :
  keys1 = [] \/ keys2 = [] ->
  raises (continuous_var_matrix keys1 keys2 name) DOcplexException.
Proof.
  intros Hnil mdl. unfold continuous_var_matrix.
  assert (matrix_entries keys1 keys2 name = []) as ->; [|done].
  destruct Hnil as [-> | ->]; [done|].
  unfold matrix_entries. induction keys1 as [|k1 keys1 IH]; [done|].
  cbn [mbind list_bind app] in *. exact IH.
Qed.

Lemma continuous_var_list_eq keys name mdl :
  continuous_var_list keys name mdl =
    Ok (list_vars keys name,
        mkModel (variables mdl ++ list_vars keys name)
          (constraints mdl) (objective mdl)).
Proof. done. Qed.

Lemma range_nonempty a b : a < b -> range a b <> [].
Proof. intros Hab. by rewrite range_cons. Qed.

(** With a person, a day and a shift to index them, the declaration cells
    make the variables of every family. *)
Lemma declare_variables_eq n m s t mdl :
  1 <= n -> 1 <= m -> 1 <= t ->
  declare_variables n m s t mdl =
    Ok (declared_env n m s t,
        mkModel (variables mdl ++ declared_variables n m s t)
          (constraints mdl) (objective mdl)).
Proof.
  intros Hn Hm Ht.
  unfold declare_variables. unfold bind at 1. rewrite cell_X_eq.
  unfold bind at 1. rewrite cell_h_eq. cbn [variables constraints objective].
  repeat (unfold bind at 1;
          first [rewrite continuous_var_matrix_ok
                   by (apply range_nonempty; lia)
                |rewrite continuous_var_list_eq];
          cbn [variables constraints objective]).
  unfold ret, declared_variables. rewrite <- !app_assoc. reflexivity.
Qed.

(** Without a person or without a day, the cell of [d_neg_1] raises; with
    both and without a shift, the cell of [d_neg_4] does. *)
Lemma declare_variables_raise n m s t :
  n <= 0 \/ m <= 0 \/ t <= 0 ->
  raises (declare_variables n m s t) DOcplexException.
Proof.
  intros Hdim mdl.
  unfold declare_variables. unfold bind at 1. rewrite cell_X_eq.
  unfold bind at 1. rewrite cell_h_eq. cbn [variables constraints objective].
  destruct (decide (n <= 0 \/ m <= 0)) as [Hnm|Hnm].
  { unfold bind at 1. rewrite continuous_var_matrix_empty; [done|].
    unfold range. destruct Hnm; [left|right]; apply seqZ_nil; lia. }
  do 4 (unfold bind at 1;
        rewrite continuous_var_matrix_ok by (apply range_nonempty; lia);
        cbn [variables constraints objective]).
  do 2 (unfold bind at 1; rewrite continuous_var_list_eq;
        cbn [variables constraints objective]).
  unfold bind at 1. rewrite continuous_var_matrix_empty; [done|].
  right. unfold range. apply seqZ_nil. lia.
Qed.

(** ** Cells that add constraints *)

Lemma add_cts_app cs1 cs2 mdl :
  add_cts cs2 (add_cts cs1 mdl) = add_cts (cs1 ++ cs2) mdl.
Proof. unfold add_cts. cbn. by rewrite app_assoc. Qed.

Lemma add_cts_nil mdl : add_cts [] mdl = mdl.
Proof. unfold add_cts. rewrite app_nil_r. by destruct mdl. Qed.

Lemma adds_seq c1 c2 cs1 cs2 :
  adds c1 cs1 -> adds c2 cs2 -> adds (c1 ;; c2)%cell (cs1 ++ cs2).
Proof.
  intros H1 H2 mdl. unfold bind. rewrite H1, H2. by rewrite add_cts_app.
Qed.

Lemma adds_constraint_of r c :
  r = Ok c -> adds (add_constraint_of r) [c].
Proof. by intros -> mdl. Qed.

Lemma adds_forM {A} (l : list A) (body : A -> M unit) cs :
  (forall x, x ∈ l -> adds (body x) (cs x)) ->
  adds (forM_ l body) (l ≫= cs).
Proof.
  induction l as [|x l IH]; intros Hbody.
  - intros mdl. cbn. by rewrite add_cts_nil.
  - cbn [forM_]. rewrite bind_cons. apply adds_seq.
    + apply Hbody. by left.
    + apply IH. intros y Hy. apply Hbody. by right.
Qed.

Lemma raises_seq_l {B} (c1 : M unit) (c2 : M B) e :
  raises c1 e -> raises (c1 ;; c2)%cell e.
Proof. intros H1 mdl. unfold bind. by rewrite H1. Qed.

Lemma raises_seq_r {B} (c1 : M unit) (c2 : M B) cs e :
  adds c1 cs -> raises c2 e -> raises (c1 ;; c2)%cell e.
Proof. intros H1 H2 mdl. unfold bind. by rewrite H1, H2. Qed.

Lemma raises_constraint_of r e :
  r = Raise e -> raises (add_constraint_of r) e.
Proof. by intros -> mdl. Qed.

(** A loop whose body either adds constraints or raises an exception of
    the class [P], and does raise for some element, raises. *)
Lemma raises_forM {A} (l : list A) (body : A -> M unit) (P : error -> Prop) :
  (forall x, x ∈ l ->
     (exists cs, adds (body x) cs) \/ (exists e, raises (body x) e /\ P e)) ->
  (exists x, x ∈ l /\ exists e, raises (body x) e) ->
  exists e, raises (forM_ l body) e /\ P e.
Proof.
  induction l as [|x l IH]; intros Hall (x0 & Hin & e0 & He0).
  - by apply elem_of_nil in Hin.
  - cbn [forM_].
    destruct (Hall x) as [[cs Hcs]|(e & Hx & HP)]; [by left| |].
    + destruct IH as (e & He & HP).
      * intros z Hz. apply Hall. by right.
      * apply elem_of_cons in Hin as [->|Hin]; [|by eauto].
        specialize (Hcs empty_model). specialize (He0 empty_model). congruence.
      * exists e. split; [|done]. by eapply raises_seq_r.
    + exists e. split; [|done]. by apply raises_seq_l.
Qed.

(** ** The competency table *)

Lemma covers_spec competency n :
  covers competency n = true <->
  forall i k, 1 <= i <= n -> 1 <= k <= 7 ->
    is_Some (competency !! i ≫= fun row => row !! k).
Proof.
  unfold covers. rewrite forallb_forall. split.
  - intros Hall i k Hi Hk.
    specialize (Hall i). rewrite forallb_forall in Hall.
    eapply bool_decide_eq_true, Hall; apply list_elem_of_In.
    + by apply elem_of_list_range.
    + by apply elem_of_list_range.
  - intros Hall i Hi%list_elem_of_In%elem_of_list_range.
    apply forallb_forall. intros k Hk%list_elem_of_In%elem_of_list_range.
    apply bool_decide_eq_true. by apply Hall.
Qed.

Lemma covers_sections competency n k :
  covers competency n = true -> 1 <= k <= 7 -> section_covered competency n k.
Proof.
  intros Hc Hk. apply Forall_forall. intros i Hi%elem_of_list_range.
  by eapply covers_spec.
Qed.

Lemma person_competency_score competency i k :
  is_Some (competency !! i ≫= fun row => row !! k) ->
  person_competency competency i k = Ok (Some (score competency i k)).
Proof.
  unfold person_competency, score. intros [c Hc].
  destruct (competency !! i) as [row|]; [|done]. cbn in *. by rewrite Hc.
Qed.

(** A missing pair: no row for the person, or no entry in the row; the
    product with the assignment variable raises in both cases. *)
Lemma person_competency_missing competency i k x :
  ~ is_Some (competency !! i ≫= fun row => row !! k) ->
  exists e, (c <~ person_competency competency i k ;; times x c)%res = Raise e
            /\ (e = AttributeError \/ e = DOcplexException).
Proof.
  unfold person_competency. intros Hno.
  destruct (competency !! i) as [row|]; cbn in *.
  - destruct (row !! k) as [c|]; cbn.
    + destruct Hno. by eexists.
    + eauto.
  - eauto.
Qed.

(** ** Expressions over the declared dictionaries *)

Section Expressions.

Variables n m s t : Z.
Variable competency : gmap Z (gmap Z Z).
Abbreviation env := (declared_env n m s t).

Lemma X_get i j k l :
  1 <= i <= n -> 1 <= j <= m -> 1 <= k <= s -> 1 <= l <= t ->
  dict_get (X env) (i, j, k, l) = Ok (X_var i j k l).
Proof.
  intros Hi Hj Hk Hl. cbn [X declared_env].
  rewrite (dict_get_keyed X_entry); [done|]. by apply elem_of_X_keys.
Qed.

Lemma X_operand i j k l :
  1 <= i <= n -> 1 <= j <= m -> 1 <= k <= s -> 1 <= l <= t ->
  operand (dict_get (X env) (i, j, k, l)) = Ok (of_var (X_var i j k l)).
Proof. intros. unfold operand. by rewrite X_get. Qed.

Lemma h_operand i j :
  1 <= i <= n -> 1 <= j <= m ->
  operand (dict_get (h env) (i, j)) = Ok (of_var (h_var i j)).
Proof.
  intros Hi Hj. unfold operand. cbn [h declared_env].
  rewrite (dict_get_keyed h_entry); [done|]. by apply elem_of_h_keys.
Qed.

Lemma headcount_ok j k l :
  1 <= j <= m -> 1 <= k <= s -> 1 <= l <= t ->
  model_sum (fun i => operand (dict_get (X env) (i, j, k, l))) (list_range n)
  = Ok (headcount n j k l).
Proof.
  intros Hj Hk Hl. apply model_sum_ok.
  intros i Hi%elem_of_list_range. by apply X_operand.
Qed.

Lemma day_load_ok i j :
  1 <= i <= n -> 1 <= j <= m ->
  day_load s t env i j = Ok (day_sum s t i j).
Proof.
  intros Hi Hj. unfold day_load, day_sum. apply model_sum_ok.
  intros [k l] [Hk%elem_of_list_range Hl%elem_of_list_range]%elem_of_pairs.
  by apply X_operand.
Qed.

Lemma shift_load_ok i l :
  1 <= i <= n -> 1 <= l <= t ->
  shift_load m s env i l = Ok (shift_sum m s i l).
Proof.
  intros Hi Hl. unfold shift_load, shift_sum. apply model_sum_ok.
  intros [j k] [Hj%elem_of_list_range Hk%elem_of_list_range]%elem_of_pairs.
  by apply X_operand.
Qed.

Lemma section_sum_ok i j l :
  1 <= i <= n -> 1 <= j <= m -> 1 <= l <= t ->
  section_sum s env i j l = Ok (sections_sum s i j l).
Proof.
  intros Hi Hj Hl. unfold section_sum, sections_sum. apply model_sum_ok.
  intros k Hk%elem_of_list_range. by apply X_operand.
Qed.

Lemma person_sum_ok i :
  1 <= i <= n ->
  model_sum (fun '(j, k, l) => operand (dict_get (X env) (i, j, k, l)))
    (j ← list_range m; k ← list_range s; l ← list_range t; [(j, k, l)])
  = Ok (person_sum m s t i).
Proof.
  intros Hi. unfold person_sum. apply model_sum_ok.
  intros [[j k] l] (Hj & Hk & Hl)%elem_of_triples.
  apply elem_of_list_range in Hj, Hk, Hl. by apply X_operand.
Qed.

Lemma leave_window_ok i j :
  1 <= i <= n -> 1 <= j <= m - 6 ->
  leave_window env i j = Ok (window_sum i j).
Proof.
  intros Hi Hj. unfold leave_window, window_sum. apply model_sum_ok.
  intros d Hd%elem_of_range. apply h_operand; lia.
Qed.

Lemma quality_sum_ok j k l :
  section_covered competency n k ->
  1 <= j <= m -> 1 <= k <= s -> 1 <= l <= t ->
  model_sum (fun i =>
               x <~ dict_get (X env) (i, j, k, l) ;;
               c <~ person_competency competency i k ;;
               times x c)%res (list_range n)
  = Ok (quality_sum n competency j k l).
Proof.
  intros Hc Hj Hk Hl. apply model_sum_ok.
  intros i Hi%elem_of_list_range. rewrite X_get by lia. cbn.
  rewrite person_competency_score; [done|].
  unfold section_covered in Hc. rewrite Forall_forall in Hc.
  by apply Hc, elem_of_list_range.
Qed.

(** With a pair missing for section [k], the weighted sum raises. *)
Lemma quality_sum_raises j k l :
  ~ section_covered competency n k ->
  1 <= j <= m -> 1 <= k <= s -> 1 <= l <= t ->
  exists e,
    model_sum (fun i =>
                 x <~ dict_get (X env) (i, j, k, l) ;;
                 c <~ person_competency competency i k ;;
                 times x c)%res (list_range n) = Raise e
    /\ (e = AttributeError \/ e = DOcplexException).
Proof.
  intros Hno Hj Hk Hl. unfold model_sum.
  destruct (mapR_raise
    (fun i => x <~ dict_get (X env) (i, j, k, l) ;;
              c <~ person_competency competency i k ;;
              times x c)%res (list_range n)
    (fun e => e = AttributeError \/ e = DOcplexException))
    as (e & -> & He).
  - intros i Hi%elem_of_list_range. rewrite X_get by lia. cbn [rbind].
    destruct (decide (is_Some (competency !! i ≫= fun row => row !! k)))
      as [Hsome|Hnone].
    + left. rewrite person_competency_score by done. by eexists.
    + right. by apply person_competency_missing.
  - apply not_Forall_Exists in Hno; [|intros i; apply _].
    apply Exists_exists in Hno as (i & Hi & Hnone). exists i.
    split; [done|]. apply elem_of_list_range in Hi.
    rewrite X_get by lia. cbn [rbind].
    destruct (person_competency_missing competency i k (X_var i j k l) Hnone)
      as (e & He & _). eauto.
  - exists e. by split.
Qed.

End Expressions.

(** ** What each cell adds *)

Section Cells.

Variables n m s t : Z.
Variable competency : gmap Z (gmap Z Z).
Hypothesis sections : 7 <= s.
Hypothesis shifts : 2 <= t.
Abbreviation env := (declared_env n m s t).

Lemma coverage_cell_adds k req label :
  1 <= k <= s ->
  adds (coverage_cell n m t env k req label) (coverage_cts n m t k req label).
Proof.
  intros Hk. unfold coverage_cell, coverage_cts.
  do 2 (apply adds_forM; intros ? ?%elem_of_list_range).
  apply adds_constraint_of. by rewrite headcount_ok by lia.
Qed.

Lemma cell_17_adds : adds (cell_17 n m s t env) (cts_17 n m s t).
Proof.
  unfold cell_17, cts_17. do 2 (apply adds_forM; intros ? ?%elem_of_list_range).
  apply adds_constraint_of. by rewrite day_load_ok by lia.
Qed.

Lemma cell_18_adds : adds (cell_18 n m s t env) (cts_18 n m s t).
Proof.
  unfold cell_18, cts_18. do 2 (apply adds_forM; intros ? ?%elem_of_list_range).
  apply adds_constraint_of.
  by rewrite day_load_ok, h_operand by lia.
Qed.

Lemma cell_19_adds : adds (cell_19 n m env) (cts_19 n m).
Proof.
  unfold cell_19, cts_19. do 2 (apply adds_forM; intros ? ?%elem_of_list_range).
  apply (adds_seq _ _ [_] [_]);
    apply adds_constraint_of; by rewrite leave_window_ok by lia.
Qed.

Lemma cell_20_adds : adds (cell_20 n m s env) (cts_20 n m s).
Proof.
  unfold cell_20, cts_20. apply adds_forM; intros ? ?%elem_of_list_range.
  apply (adds_seq _ _ [_] [_]);
    apply adds_constraint_of; by rewrite shift_load_ok by lia.
Qed.

Lemma cell_21_adds : adds (cell_21 n m s env) (cts_21 n m s).
Proof.
  unfold cell_21, cts_21. apply adds_forM; intros ? ?%elem_of_list_range.
  apply (adds_seq _ _ [_] [_]);
    apply adds_constraint_of; by rewrite shift_load_ok by lia.
Qed.

Lemma cell_22_adds : adds (cell_22 n m s env) (cts_22 n m s).
Proof.
  unfold cell_22, cts_22. do 2 (apply adds_forM; intros ? ?%elem_of_list_range).
  apply adds_constraint_of. by rewrite !section_sum_ok by lia.
Qed.

Lemma cell_23_adds : adds (cell_23 n m s t env) (cts_23 n m s t).
Proof.
  unfold cell_23, cts_23, goal_1_lhs. do 2 (apply adds_forM; intros ? ?%elem_of_list_range).
  apply adds_constraint_of.
  rewrite !h_operand, day_load_ok by lia. cbn [rbind].
  cbn [d_neg_1 d_pos_1 declared_env].
  by rewrite !matrix_get by (apply elem_of_range; lia).
Qed.

Lemma cell_24_adds : adds (cell_24 n m s t env) (cts_24 n m s t).
Proof.
  unfold cell_24, cts_24, goal_2_lhs. do 2 (apply adds_forM; intros ? ?%elem_of_list_range).
  apply adds_constraint_of.
  rewrite !day_load_ok, h_operand by lia. cbn [rbind].
  cbn [d_neg_2 d_pos_2 declared_env].
  by rewrite !matrix_get by (apply elem_of_range; lia).
Qed.

Lemma cell_25_adds : adds (cell_25 n m s t env) (cts_25 n m s t).
Proof.
  unfold cell_25, cts_25, goal_3_lhs. apply adds_forM; intros ? ?%elem_of_list_range.
  apply adds_constraint_of.
  rewrite person_sum_ok by lia. cbn [rbind].
  cbn [d_neg_3 d_pos_3 declared_env].
  rewrite !list_vars_get by lia. cbn [rbind].
  by replace (x - 1 + 1) with x by lia.
Qed.

Lemma quality_cell_adds k keys2 dn dp tgt label :
  section_covered competency n k ->
  1 <= k <= 7 ->
  (forall l, 1 <= l <= t -> l ∈ keys2) ->
  adds (quality_cell n m t competency env k
          (matrix_dict (range 1 (m+1)) keys2 dn)
          (matrix_dict (range 1 (m+1)) (range 1 (t+1)) dp) tgt label)
       (quality_cts n m t competency k dn dp tgt label).
Proof.
  intros Hc Hk Hkeys. unfold quality_cell, quality_cts, quality_lhs.
  do 2 (apply adds_forM; intros ? ?%elem_of_list_range). apply adds_constraint_of.
  rewrite (quality_sum_ok n m s t competency) by (done || lia). cbn [rbind].
  rewrite !matrix_get
    by (try apply elem_of_range; try apply Hkeys; lia).
  done.
Qed.

(** With a pair missing for section [k] the cell raises in its first
    iteration, provided there is a day to iterate over. *)
Lemma quality_cell_raises k d_neg d_pos tgt label :
  ~ section_covered competency n k ->
  1 <= k <= 7 -> 1 <= m ->
  exists e,
    raises (quality_cell n m t competency env k d_neg d_pos tgt label) e
    /\ (e = AttributeError \/ e = DOcplexException).
Proof.
  intros Hno Hk Hm. unfold quality_cell.
  destruct (quality_sum_raises n m s t competency 1 k 1 Hno)
    as (e & He & HP); [lia..|].
  exists e. split; [|done].
  rewrite (list_range_cons m), (list_range_cons t) by lia.
  cbn [forM_]. apply raises_seq_l, raises_seq_l.
  apply raises_constraint_of. by rewrite He.
Qed.

Lemma hard_constraints_adds :
  adds (hard_constraints n m s t env) (hard_cts n m s t).
Proof.
  unfold hard_constraints, hard_cts.
  repeat (apply adds_seq; [apply coverage_cell_adds; lia|]).
  apply adds_seq; [apply cell_17_adds|].
  apply adds_seq; [apply cell_18_adds|].
  apply adds_seq; [apply cell_19_adds|].
  apply adds_seq; [apply cell_20_adds|].
  apply adds_seq; [apply cell_21_adds|].
  apply cell_22_adds.
Qed.

Lemma goal_constraints_adds :
  covers competency n = true ->
  adds (goal_constraints n m s t competency env) (goal_cts n m s t competency).
Proof.
  intros Hc. unfold goal_constraints, goal_cts.
  apply adds_seq; [apply cell_23_adds|].
  apply adds_seq; [apply cell_24_adds|].
  apply adds_seq; [apply cell_25_adds|].
  assert (forall l, 1 <= l <= t -> l ∈ range 1 (t + 1)) as H1
    by (intros; apply elem_of_range; lia).
  assert (forall l, 1 <= l <= t -> l ∈ range0 (t + 1)) as H0
    by (intros; apply elem_of_range; lia).
  repeat (apply adds_seq;
          [by apply quality_cell_adds; (done || lia || by apply covers_sections)|]).
  by apply quality_cell_adds; (done || lia || by apply covers_sections).
Qed.

End Cells.

(** ** The objective cell *)

Lemma map_range_shift {A} (f : Z -> A) n :
  map (fun p => f (p + 1)) (range 0 n) = map f (list_range n).
Proof.
  unfold list_range, range.
  replace (n + 1 - 1) with (n - 0) by lia.
  rewrite <- (fmap_add_seqZ 1 0). rewrite map_map.
  apply map_ext. intros p. f_equal. lia.
Qed.

Section Objective.

Variables n m s t : Z.
Abbreviation env := (declared_env n m s t).

Lemma both_deviations_ok dn dp g :
  dev_var dn = d_neg g -> dev_var dp = d_pos g ->
  both_deviations n m
    (matrix_dict (range 1 (n+1)) (range 1 (m+1)) dn)
    (matrix_dict (range 1 (n+1)) (range 1 (m+1)) dp)
  = Ok (both_directions n m g).
Proof.
  intros Hn Hp. unfold both_deviations, both_directions.
  rewrite <- Hn, <- Hp. apply model_sum_ok.
  intros [i j] [Hi%elem_of_list_range Hj%elem_of_list_range]%elem_of_pairs.
  by rewrite !matrix_get by (apply elem_of_range; lia).
Qed.

Lemma over_deviation_ok dp g :
  dev_var dp = d_pos g ->
  over_deviation m t (matrix_dict (range 1 (m+1)) (range 1 (t+1)) dp)
  = Ok (over_only m t g).
Proof.
  intros Hp. unfold over_deviation, over_only.
  rewrite <- Hp. apply model_sum_ok.
  intros [j l] [Hj%elem_of_list_range Hl%elem_of_list_range]%elem_of_pairs.
  by rewrite !matrix_get by (apply elem_of_range; lia).
Qed.

Lemma both_deviations_3_ok :
  model_sum (fun i =>
               a <~ operand (list_get (d_neg_3 env) i) ;;
               b <~ operand (list_get (d_pos_3 env) i) ;;
               Ok (eadd a b))%res (range 0 n)
  = Ok (both_directions_3 n).
Proof.
  unfold both_directions_3.
  rewrite <- (map_range_shift
    (fun i => eadd (of_var (d_neg 3 [i])) (of_var (d_pos 3 [i])))).
  apply model_sum_ok. intros p Hp%elem_of_range.
  cbn [d_neg_3 d_pos_3 declared_env].
  by rewrite !list_vars_get by lia.
Qed.

Lemma objective_expr_ok : objective_expr n m t env = Ok (spec_objective n m t).
Proof.
  unfold objective_expr, spec_objective.
  rewrite both_deviations_3_ok.
  cbn [d_neg_1 d_pos_1 d_neg_2 d_pos_2 d_pos_4 d_pos_5 d_pos_6 d_pos_7
         d_pos_8 d_pos_9 d_pos_10 declared_env].
  rewrite (both_deviations_ok _ _ 1), (both_deviations_ok _ _ 2) by done.
  rewrite (over_deviation_ok _ 4), (over_deviation_ok _ 5),
    (over_deviation_ok _ 6), (over_deviation_ok _ 7),
    (over_deviation_ok _ 8), (over_deviation_ok _ 9),
    (over_deviation_ok _ 10) by done.
  done.
Qed.

End Objective.

(** ** The whole notebook *)

(** With a person, a day, at least seven sections and two shifts
    declared, and a score for every person and section, no cell raises and
    the notebook reaches the solve cell with [built_model]. *)
Lemma build_ok n m s t competency :
  1 <= n -> 1 <= m -> 7 <= s -> 2 <= t -> covers competency n = true ->
  build n m s t competency empty_model
  = Ok (declared_env n m s t, built_model n m s t competency).
Proof.
  intros Hn Hm Hs Ht Hc. unfold build. unfold bind at 1.
  rewrite declare_variables_eq by lia.
  unfold bind at 1. unfold cell_objective, bind at 1.
  rewrite objective_expr_ok. cbn [lift minimize].
  unfold bind at 1. rewrite (hard_constraints_adds n m s t Hs Ht).
  unfold bind at 1. rewrite (goal_constraints_adds n m s t competency Hs Hc).
  unfold ret, add_cts, built_model, all_cts. cbn. done.
Qed.

(** Without a person, a day or a shift the notebook stops in a declaration
    cell, whatever the table. *)
Lemma build_stops n m s t competency :
  n <= 0 \/ m <= 0 \/ t <= 0 ->
  raises (build n m s t competency) DOcplexException.
Proof.
  intros Hdim mdl. unfold build. unfold bind at 1.
  by rewrite declare_variables_raise.
Qed.

(** ** Variable names *)

Lemma append_cons (x : ascii) (a b : string) :
  String x a +:+ b = String x (a +:+ b).
Proof. reflexivity. Qed.

Lemma append_assoc (a b c : string) : (a +:+ b) +:+ c = a +:+ (b +:+ c).
Proof.
  induction a as [|x a IH]; [done|]. rewrite !append_cons. by f_equal.
Qed.

Lemma split_on_no_sep sep s : no_sep sep s -> split_on sep s = [s].
Proof.
  induction s as [|c s IH]; simpl; [done|].
  intros [Hc Hs]. rewrite decide_False by done. by rewrite IH.
Qed.

Lemma split_on_app sep a rest :
  no_sep sep a -> split_on sep (a +:+ String sep rest) = a :: split_on sep rest.
Proof.
  induction a as [|c a IH].
  - intros _. change (EmptyString +:+ String sep rest) with (String sep rest).
    simpl. by rewrite decide_True.
  - intros [Hc Ha]. rewrite append_cons.
    simpl. rewrite decide_False by done. by rewrite IH.
Qed.

Lemma join_fold sep rest a b :
  fold_left (fun acc x => acc +:+ String sep x) rest (a +:+ String sep b)
  = a +:+ String sep (fold_left (fun acc x => acc +:+ String sep x) rest b).
Proof.
  revert b. induction rest as [|x rest IH]; intros b; cbn [fold_left]; [done|].
  rewrite append_assoc, append_cons. apply IH.
Qed.

Lemma join_cons sep a b rest :
  join sep (a :: b :: rest) = a +:+ String sep (join sep (b :: rest)).
Proof. simpl. apply join_fold. Qed.

Lemma split_on_join sep toks :
  toks <> [] -> Forall (no_sep sep) toks -> split_on sep (join sep toks) = toks.
Proof.
  induction toks as [|a [|b rest] IH]; intros Hne Hall; [done| |].
  - simpl. apply split_on_no_sep. by inversion Hall.
  - rewrite join_cons. inversion Hall as [|? ? Ha Hrest]; subst.
    rewrite split_on_app by done. f_equal. by apply IH.
Qed.

Lemma uint_no_sep d : no_sep "_" (NilEmpty.string_of_uint d).
Proof. induction d; simpl; auto; split; auto; discriminate. Qed.

Lemma str_no_sep z : no_sep "_" (str z).
Proof.
  unfold str. destruct (Z.to_int z); simpl.
  - apply uint_no_sep.
  - split; [discriminate|apply uint_no_sep].
Qed.

Lemma parse_int_str z : parse_int (str z) = Some z.
Proof.
  unfold parse_int, str. rewrite NilEmpty.isi. simpl.
  rewrite DecimalZ.of_to. by rewrite decide_True.
Qed.

Lemma str_inj z z' : str z = str z' -> z = z'.
Proof.
  intros Heq. pose proof (parse_int_str z) as H1.
  rewrite Heq, parse_int_str in H1. by injection H1.
Qed.

Lemma parse_keys_str key : parse_keys (map str key) = Some key.
Proof.
  unfold parse_keys. induction key as [|k key IH]; [done|].
  cbn. rewrite parse_int_str. cbn. fold (mapM parse_int (map str key)).
  rewrite IH. done.
Qed.

Lemma keyed_name_join name toks keys :
  name = join "_" toks -> toks <> [] ->
  keyed_name name keys = join "_" (toks ++ map str keys).
Proof.
  intros -> Hne. destruct toks as [|a rest]; [done|].
  unfold keyed_name. simpl. rewrite fold_left_app.
  generalize (fold_left (fun acc x => acc +:+ String "_" x) rest a).
  induction keys as [|k keys IH]; intros acc; simpl; [done|]. apply IH.
Qed.

Lemma encode_join f key :
  encode f key = join "_" (family_tokens f ++ map str key).
Proof.
  apply keyed_name_join; [|by destruct f].
  destruct f as [| |[] g]; reflexivity.
Qed.

Lemma family_tokens_no_sep f key :
  Forall (no_sep "_") (family_tokens f ++ map str key).
Proof.
  apply Forall_app. split.
  - destruct f as [| |[] g]; repeat constructor; try discriminate;
      apply str_no_sep.
  - apply Forall_forall. intros x Hx.
    apply list_elem_of_fmap in Hx as (k & -> & _). apply str_no_sep.
Qed.

(** Decoding inverts encoding on every index tuple of the right length. *)
Lemma decode_encode f key :
  length key = arity f -> decode (encode f key) = Some (f, key).
Proof.
  intros Hlen. unfold decode. rewrite encode_join.
  rewrite split_on_join; [|by destruct f|apply family_tokens_no_sep].
  destruct f as [| |over g]; simpl.
  - rewrite parse_keys_str. simpl. by rewrite decide_True.
  - rewrite parse_keys_str. simpl. by rewrite decide_True.
  - destruct over; simpl; rewrite parse_int_str; simpl;
      rewrite parse_keys_str; simpl; by rewrite decide_True.
Qed.

Lemma encode_inj f key f' key' :
  length key = arity f -> length key' = arity f' ->
  encode f key = encode f' key' -> f = f' /\ key = key'.
Proof.
  intros H1 H2 Heq. apply decode_encode in H1, H2.
  rewrite Heq in H1. rewrite H1 in H2. by injection H2.
Qed.

Lemma var_of_inj f key f' key' :
  length key = arity f -> length key' = arity f' ->
  var_of f key = var_of f' key' -> f = f' /\ key = key'.
Proof.
  intros H1 H2 [= Heq _]. by apply encode_inj.
Qed.

(** The names written in the notebook are the encodings. *)
Lemma X_name_encode i j k l : X_name i j k l = encode FamX [i; j; k; l].
Proof.
  unfold X_name, encode, keyed_name. cbn [fold_left family_name].
  by rewrite !append_assoc.
Qed.

Lemma h_name_encode i j : h_name i j = encode Famh [i; j].
Proof.
  unfold h_name, encode, keyed_name. cbn [fold_left family_name].
  by rewrite !append_assoc.
Qed.

Lemma X_var_of i j k l : X_var i j k l = var_of FamX [i; j; k; l].
Proof. unfold X_var, var_of. by rewrite X_name_encode. Qed.

Lemma h_var_of i j : h_var i j = var_of Famh [i; j].
Proof. unfold h_var, var_of. by rewrite h_name_encode. Qed.

Lemma X_var_inj i j k l i' j' k' l' :
  X_var i j k l = X_var i' j' k' l' -> i = i' /\ j = j' /\ k = k' /\ l = l'.
Proof.
  rewrite !X_var_of. intros [_ [= -> -> -> ->]]%var_of_inj; done.
Qed.

Lemma h_var_inj i j i' j' : h_var i j = h_var i' j' -> i = i' /\ j = j'.
Proof.
  rewrite !h_var_of. intros [_ [= -> ->]]%var_of_inj; done.
Qed.

(** ** The variables of an expression *)

Lemma expr_vars_eadd a b : expr_vars (eadd a b) = expr_vars a ++ expr_vars b.
Proof. unfold expr_vars, eadd. cbn. by rewrite map_app. Qed.

Lemma expr_vars_esub a b : expr_vars (esub a b) = expr_vars a ++ expr_vars b.
Proof.
  unfold expr_vars, esub, negate. cbn. rewrite map_app, map_map. done.
Qed.

Lemma expr_vars_msum {A} (f : A -> LinExpr) (g : A -> Var) l :
  (forall x, expr_vars (f x) = [g x]) ->
  expr_vars (msum (map f l)) = map g l.
Proof.
  intros Hf. induction l as [|x l IH]; [done|].
  cbn [map msum fold_right]. rewrite expr_vars_eadd, Hf.
  fold (msum (map f l)). by rewrite IH.
Qed.

Lemma expr_vars_monomial v c :
  expr_vars (monomial v c) = if decide (c = 0) then [] else [v].
Proof. unfold monomial. by destruct (decide (c = 0)). Qed.

(** A sum of products mentions the variables whose factor is not zero. *)
Lemma expr_vars_msum_monomial {A} (g : A -> Var) (c : A -> Z) l :
  expr_vars (msum (map (fun x => monomial (g x) (c x)) l))
  = map g (filter (fun x => c x <> 0) l).
Proof.
  induction l as [|x l IH]; [done|].
  cbn [map msum fold_right]. rewrite expr_vars_eadd, expr_vars_monomial.
  fold (msum (map (fun x => monomial (g x) (c x)) l)). rewrite IH.
  rewrite filter_cons. by destruct (decide (c x = 0)); destruct (decide (c x <> 0)).
Qed.

Lemma constant_msum {A} (f : A -> LinExpr) l :
  (forall x, constant (f x) = 0) -> constant (msum (map f l)) = 0.
Proof.
  intros Hf. induction l as [|x l IH]; [done|].
  cbn [map msum fold_right eadd constant]. fold (msum (map f l)).
  rewrite Hf, IH. done.
Qed.

Section SumVars.

Variables n m s t : Z.
Variable competency : gmap Z (gmap Z Z).

Lemma headcount_vars j k l :
  expr_vars (headcount n j k l) = map (fun i => X_var i j k l) (list_range n).
Proof. by apply expr_vars_msum. Qed.

Lemma day_sum_vars i j :
  expr_vars (day_sum s t i j)
  = map (fun '(k, l) => X_var i j k l)
      (k ← list_range s; l ← list_range t; [(k, l)]).
Proof. apply expr_vars_msum. by intros [k l]. Qed.

Lemma shift_sum_vars i l :
  expr_vars (shift_sum m s i l)
  = map (fun '(j, k) => X_var i j k l)
      (j ← list_range m; k ← list_range s; [(j, k)]).
Proof. apply expr_vars_msum. by intros [j k]. Qed.

Lemma sections_sum_vars i j l :
  expr_vars (sections_sum s i j l) = map (fun k => X_var i j k l) (list_range s).
Proof. by apply expr_vars_msum. Qed.

Lemma person_sum_vars i :
  expr_vars (person_sum m s t i)
  = map (fun '(j, k, l) => X_var i j k l)
      (j ← list_range m; k ← list_range s; l ← list_range t; [(j, k, l)]).
Proof. apply expr_vars_msum. by intros [[j k] l]. Qed.

Lemma window_sum_vars i j :
  expr_vars (window_sum i j) = map (fun d => h_var i (j + d)) (range0 7).
Proof. by apply expr_vars_msum. Qed.

Lemma quality_sum_vars j k l :
  expr_vars (quality_sum n competency j k l)
  = map (fun i => X_var i j k l)
      (filter (fun i => score competency i k <> 0) (list_range n)).
Proof. apply expr_vars_msum_monomial. Qed.

Lemma headcount_assignment j k l :
  Forall is_assignment (expr_vars (headcount n j k l)).
Proof.
  rewrite headcount_vars. apply Forall_fmap, Forall_forall.
  intros i _. cbn. by exists i, j, k, l.
Qed.

Lemma day_sum_assignment i j :
  Forall is_assignment (expr_vars (day_sum s t i j)).
Proof.
  rewrite day_sum_vars. apply Forall_fmap, Forall_forall.
  intros [k l] _. cbn. by exists i, j, k, l.
Qed.

Lemma shift_sum_assignment i l :
  Forall is_assignment (expr_vars (shift_sum m s i l)).
Proof.
  rewrite shift_sum_vars. apply Forall_fmap, Forall_forall.
  intros [j k] _. cbn. by exists i, j, k, l.
Qed.

Lemma sections_sum_assignment i j l :
  Forall is_assignment (expr_vars (sections_sum s i j l)).
Proof.
  rewrite sections_sum_vars. apply Forall_fmap, Forall_forall.
  intros k _. cbn. by exists i, j, k, l.
Qed.

Lemma person_sum_assignment i :
  Forall is_assignment (expr_vars (person_sum m s t i)).
Proof.
  rewrite person_sum_vars. apply Forall_fmap, Forall_forall.
  intros [[j k] l] _. cbn. by exists i, j, k, l.
Qed.

Lemma quality_sum_assignment j k l :
  Forall is_assignment (expr_vars (quality_sum n competency j k l)).
Proof.
  rewrite quality_sum_vars. apply Forall_fmap, Forall_forall.
  intros i _. cbn. by exists i, j, k, l.
Qed.

Lemma window_sum_leave i j :
  Forall is_leave (expr_vars (window_sum i j)).
Proof.
  rewrite window_sum_vars. apply Forall_fmap, Forall_forall.
  intros d _. cbn. by exists i, (j + d).
Qed.

Lemma window_sum_head i j :
  exists rest, expr_vars (window_sum i j) = h_var i j :: rest.
Proof.
  rewrite window_sum_vars. eexists. unfold range0.
  rewrite range_cons by lia. cbn [map]. by rewrite Z.add_0_r.
Qed.

(** *** Where each constraint comes from *)

Lemma all_cts_split :
  all_cts n m s t competency
  = before_windows n m s t ++ cts_19 n m ++ after_windows n m s t competency.
Proof.
  unfold all_cts, hard_cts, before_windows, after_windows.
  by rewrite <- !app_assoc.
Qed.

Lemma coverage_cts_shape k req label c :
  k <> 4 -> c ∈ coverage_cts n m t k req label -> shape n m s t competency c.
Proof. intros Hk Hc. unfold coverage_cts in Hc. member_of_cell. by constructor. Qed.

Lemma quality_cts_shape k dn dp g tgt label c :
  4 <= g <= 10 -> dev_var dn = d_neg g -> dev_var dp = d_pos g ->
  c ∈ quality_cts n m t competency k dn dp tgt label ->
  shape n m s t competency c.
Proof.
  intros Hg Hn Hp Hc. unfold quality_cts in Hc. member_of_cell.
  by econstructor.
Qed.

Lemma before_windows_shape c :
  c ∈ before_windows n m s t -> shape n m s t competency c.
Proof.
  unfold before_windows. rewrite !elem_of_app.
  intros [H|[H|[H|[H|[H|[H|[H|[H|H]]]]]]]];
    try (by eapply coverage_cts_shape; [|exact H]).
  - unfold cts_17 in H. member_of_cell. constructor.
  - unfold cts_18 in H. member_of_cell. constructor.
Qed.

Lemma after_windows_shape c :
  c ∈ after_windows n m s t competency -> shape n m s t competency c.
Proof.
  unfold after_windows, goal_cts. rewrite !elem_of_app.
  intros [H|[H|[H|[H|[H|[H|[H|[H|[H|[H|[H|[H|H]]]]]]]]]]]].
  - unfold cts_20 in H. member_of_cell; by constructor.
  - unfold cts_21 in H. member_of_cell; by constructor.
  - unfold cts_22 in H. member_of_cell. constructor.
  - unfold cts_23 in H. member_of_cell.
    constructor. by apply elem_of_list_range.
  - unfold cts_24 in H. member_of_cell.
    constructor. by apply elem_of_list_range.
  - unfold cts_25 in H. member_of_cell. constructor.
  - by eapply (quality_cts_shape _ _ _ 4); [| | |exact H].
  - by eapply (quality_cts_shape _ _ _ 5); [| | |exact H].
  - by eapply (quality_cts_shape _ _ _ 6); [| | |exact H].
  - by eapply (quality_cts_shape _ _ _ 7); [| | |exact H].
  - by eapply (quality_cts_shape _ _ _ 8); [| | |exact H].
  - by eapply (quality_cts_shape _ _ _ 9); [| | |exact H].
  - by eapply (quality_cts_shape _ _ _ 10); [| | |exact H].
Qed.

Lemma cts_19_inv c :
  c ∈ cts_19 n m ->
  exists i j, 1 <= i <= n /\ 1 <= j <= m - 6
              /\ (c = window_max i j \/ c = window_min i j).
Proof.
  intros H. unfold cts_19 in H. member_of_cell;
    rewrite elem_of_list_range in *; eauto 10.
Qed.

Lemma all_cts_inv c :
  c ∈ all_cts n m s t competency ->
  shape n m s t competency c \/
  exists i j, 1 <= i <= n /\ 1 <= j <= m - 6
              /\ (c = window_max i j \/ c = window_min i j).
Proof.
  rewrite all_cts_split, !elem_of_app. intros [H|[H|H]].
  - left. by apply before_windows_shape.
  - right. by apply cts_19_inv.
  - left. by apply after_windows_shape.
Qed.

End SumVars.

(** ** Coefficients *)

Lemma coef_terms_app ts1 ts2 v :
  coef_terms (ts1 ++ ts2) v = coef_terms ts1 v + coef_terms ts2 v.
Proof.
  induction ts1 as [|[w c] ts1 IH]; [done|].
  cbn [app coef_terms]. rewrite IH. lia.
Qed.

Lemma coef_eadd a b v : coef (eadd a b) v = coef a v + coef b v.
Proof. unfold coef, eadd. cbn [terms]. apply coef_terms_app. Qed.

Lemma coef_not_in e v : v ∉ expr_vars e -> coef e v = 0.
Proof.
  unfold coef, expr_vars. induction (terms e) as [|[w c] ts IH]; [done|].
  cbn [map fst coef_terms]. intros Hnin.
  rewrite decide_False by (intros ->; apply Hnin; by left).
  rewrite IH; [done|]. intros Hin. apply Hnin. by right.
Qed.

Lemma coef_msum_nil v : coef (msum []) v = 0.
Proof. done. Qed.

Lemma coef_msum_cons e es v : coef (msum (e :: es)) v = coef e v + coef (msum es) v.
Proof. cbn [msum fold_right]. apply coef_eadd. Qed.

Lemma coef_msum_none {A} (f : A -> LinExpr) l v :
  (forall x, x ∈ l -> v ∉ expr_vars (f x)) -> coef (msum (map f l)) v = 0.
Proof.
  induction l as [|x l IH]; intros Hno; [done|].
  cbn [map]. rewrite coef_msum_cons, coef_not_in by (apply Hno; by left).
  rewrite IH; [done|]. intros y Hy. apply Hno. by right.
Qed.

Lemma coef_msum_only {A} (f : A -> LinExpr) l x0 v :
  NoDup l -> x0 ∈ l ->
  (forall x, x ∈ l -> x <> x0 -> v ∉ expr_vars (f x)) ->
  coef (msum (map f l)) v = coef (f x0) v.
Proof.
  induction 1 as [|x l Hnin Hnd IH]; intros Hin Hother.
  - by apply elem_of_nil in Hin.
  - cbn [map]. rewrite coef_msum_cons.
    apply elem_of_cons in Hin as [->|Hin].
    + rewrite coef_msum_none; [lia|].
      intros y Hy. apply Hother; [by right|]. by intros ->.
    + rewrite coef_not_in by (apply Hother; [by left|by intros ->]).
      rewrite IH; [done..|]. intros y Hy. apply Hother. by right.
Qed.

Lemma truncate_small c :
  - docplex_infinity <= c <= docplex_infinity -> truncate c = c.
Proof. unfold truncate. lia. Qed.

Lemma coef_monomial v c : coef (monomial v c) v = truncate c.
Proof.
  unfold monomial. destruct (decide (c = 0)) as [->|Hc]; [done|].
  unfold coef. cbn [terms coef_terms]. rewrite decide_True by done. lia.
Qed.

(** The coefficient of a person's assignment in a quality sum is the
    person's score, cut down to [±1e20]. *)
Lemma quality_sum_coef n competency i j k l :
  1 <= i <= n ->
  coef (quality_sum n competency j k l) (X_var i j k l)
  = truncate (score competency i k).
Proof.
  intros Hi. unfold quality_sum.
  rewrite (coef_msum_only _ _ i);
    [apply coef_monomial|apply NoDup_list_range|by apply elem_of_list_range|].
  intros i' _ Hne Hin. rewrite expr_vars_monomial in Hin.
  destruct (decide (score competency i' k = 0)); [by apply elem_of_nil in Hin|].
  apply list_elem_of_singleton, X_var_inj in Hin. by destruct Hin as [-> _].
Qed.

(** ** Membership in the cells' constraint lists *)

Section Membership.

Variables n m s t : Z.
Variable competency : gmap Z (gmap Z Z).

Lemma coverage_cts_member k req label j l :
  1 <= j <= m -> 1 <= l <= t ->
  mkCt (headcount n j k l) EQ (of_num req)
    (label +:+ "_Day_" +:+ str j +:+ "_Shift_" +:+ str l)
  ∈ coverage_cts n m t k req label.
Proof.
  intros Hj Hl. unfold coverage_cts.
  apply list_elem_of_bind. exists j. split; [|by apply elem_of_list_range].
  apply list_elem_of_bind. exists l. split; [|by apply elem_of_list_range].
  by left.
Qed.

Lemma quality_cts_member k dn dp tgt label j l :
  1 <= j <= m -> 1 <= l <= t ->
  mkCt (quality_lhs n competency k dn dp j l) EQ (of_num tgt)
    (label +:+ "_" +:+ str j +:+ "_" +:+ str l)
  ∈ quality_cts n m t competency k dn dp tgt label.
Proof.
  intros Hj Hl. unfold quality_cts.
  apply list_elem_of_bind. exists j. split; [|by apply elem_of_list_range].
  apply list_elem_of_bind. exists l. split; [|by apply elem_of_list_range].
  by left.
Qed.

Lemma cts_24_member i j :
  1 <= i <= n -> 1 <= j <= m - 2 ->
  mkCt (goal_2_lhs s t i j) EQ (of_num 2)
    ("Goal_Constraint_Equation_23_" +:+ str i +:+ "_" +:+ str j)
  ∈ cts_24 n m s t.
Proof.
  intros Hi Hj. unfold cts_24.
  apply list_elem_of_bind. exists i. split; [|by apply elem_of_list_range].
  apply list_elem_of_bind. exists j. split; [|by apply elem_of_list_range].
  by left.
Qed.

Lemma hard_cts_all c :
  c ∈ hard_cts n m s t -> c ∈ all_cts n m s t competency.
Proof. intros H. unfold all_cts. apply elem_of_app. by left. Qed.

Lemma goal_cts_all c :
  c ∈ goal_cts n m s t competency -> c ∈ all_cts n m s t competency.
Proof. intros H. unfold all_cts. apply elem_of_app. by right. Qed.

End Membership.

Section Rows.
Variables n m s t : Z.
Variable competency : gmap Z (gmap Z Z).

Lemma coverage_rows_model k req label c :
  (k, req, label) ∈ coverage_rows ->
  c ∈ coverage_cts n m t k req label -> c ∈ all_cts n m s t competency.
Proof.
  intros Hrow Hc. apply hard_cts_all. unfold hard_cts.
  unfold coverage_rows in Hrow. rewrite !elem_of_cons in Hrow.
  rewrite !elem_of_app.
  destruct Hrow as [[= -> -> ->]|[[= -> -> ->]|[[= -> -> ->]|[[= -> -> ->]|
    [[= -> -> ->]|[[= -> -> ->]|[[= -> -> ->]|Hrow]]]]]]];
    [tauto..|by apply elem_of_nil in Hrow].
Qed.

Lemma quality_rows_model k dn dp tgt label c :
  (k, dn, dp, tgt, label) ∈ quality_rows ->
  c ∈ quality_cts n m t competency k dn dp tgt label ->
  c ∈ all_cts n m s t competency.
Proof.
  intros Hrow Hc. apply goal_cts_all. unfold goal_cts.
  unfold quality_rows in Hrow. rewrite !elem_of_cons in Hrow.
  rewrite !elem_of_app.
  destruct Hrow as [[= -> -> -> -> ->]|[[= -> -> -> -> ->]|[[= -> -> -> -> ->]|
    [[= -> -> -> -> ->]|[[= -> -> -> -> ->]|[[= -> -> -> -> ->]|
    [[= -> -> -> -> ->]|Hrow]]]]]]];
    [tauto..|by apply elem_of_nil in Hrow].
Qed.
End Rows.

Lemma quality_row_of k :
  1 <= k <= 7 ->
  (k, family_name (FamD false (k + 3)), family_name (FamD true (k + 3)),
   target k, "Equation_" +:+ str (k + 24)) ∈ quality_rows.
Proof.
  intros Hk.
  assert (k = 1 \/ k = 2 \/ k = 3 \/ k = 4 \/ k = 5 \/ k = 6 \/ k = 7)
    as [->|[->|[->|[->|[->|[->| ->]]]]]] by lia;
    unfold quality_rows; rewrite !elem_of_cons;
    repeat first [left; reflexivity | right].
Qed.


(** ** The objective (C3) *)

Lemma Forall_terms_msum {A} (P : Var * Z -> Prop) (f : A -> LinExpr) l :
  (forall x, Forall P (terms (f x))) -> Forall P (terms (msum (map f l))).
Proof.
  intros Hf. induction l as [|x l IH]; [constructor|].
  cbn [map msum fold_right eadd terms]. apply Forall_app. split; [apply Hf|apply IH].
Qed.

Lemma Forall_vars_msum {A} (P : Var -> Prop) (f : A -> LinExpr) l :
  (forall x, Forall P (expr_vars (f x))) ->
  Forall P (expr_vars (msum (map f l))).
Proof.
  intros Hf. induction l as [|x l IH]; [constructor|].
  cbn [map msum fold_right]. rewrite expr_vars_eadd.
  apply Forall_app. split; [apply Hf|apply IH].
Qed.

Lemma spec_objective_penalised n m t :
  Forall penalised (expr_vars (spec_objective n m t)).
Proof.
  assert (forall g, 1 <= g <= 2 ->
            Forall penalised (expr_vars (both_directions n m g))) as Hboth.
  { intros g Hg. apply Forall_vars_msum. intros [i j].
    assert (length [i; j] = arity (FamD false g)) as Hlen
      by (cbn; by rewrite decide_False by lia).
    repeat constructor.
    - exists false, g, [i; j]. repeat split; [done|]. right. lia.
    - exists true, g, [i; j]. repeat split; [done|]. by left. }
  assert (forall g, 4 <= g <= 10 ->
            Forall penalised (expr_vars (over_only m t g))) as Hover.
  { intros g Hg. apply Forall_vars_msum. intros [j l].
    repeat constructor. exists true, g, [j; l]. repeat split; [|by left].
    cbn. by rewrite decide_False by lia. }
  unfold spec_objective. rewrite !expr_vars_eadd, !Forall_app.
  repeat split; try (apply Hboth; lia); try (apply Hover; lia).
  apply Forall_vars_msum. intros i. repeat constructor.
  - exists false, 3, [i]. repeat split. right. lia.
  - exists true, 3, [i]. repeat split. by left.
Qed.

Lemma spec_objective_unit n m t :
  Forall (fun tm => snd tm = 1) (terms (spec_objective n m t)).
Proof.
  unfold spec_objective. cbn [eadd terms]. rewrite !Forall_app.
  repeat split; apply Forall_terms_msum;
    try intros [? ?]; try intros ?; by repeat constructor.
Qed.

Lemma spec_objective_constant n m t : constant (spec_objective n m t) = 0.
Proof.
  unfold spec_objective. cbn [eadd constant].
  unfold both_directions, both_directions_3, over_only.
  rewrite !constant_msum; try done; try (by intros [? ?]).
Qed.

(** C3. With a person and a day to plan, the objective handed to
    [minimize] is, deviation by deviation and each with coefficient one,
    the sum of [d⁻ + d⁺] over every index tuple of goals 1, 2 and 3
    followed by the sum of [d⁺] alone over every (day, shift) of goals 4
    to 10: it is [spec_objective], all of whose coefficients are one,
    whose constant is zero, and in which no [d⁻] of goals 4 to 10
    occurs. *)
Theorem objective_is_unweighted_sum n m s t competency :
  1 <= n -> 1 <= m -> 7 <= s -> 2 <= t -> covers competency n = true ->
  exists env mdl,
    build n m s t competency empty_model = Ok (env, mdl) /\
    objective mdl = Some (spec_objective n m t) /\
    Forall (fun tm => snd tm = 1) (terms (spec_objective n m t)) /\
    constant (spec_objective n m t) = 0 /\
    forall g j l, 4 <= g <= 10 ->
      d_neg g [j; l] ∉ expr_vars (spec_objective n m t).
Proof.
  intros Hn Hm Hs Ht Hc. eexists _, _. split; [by apply build_ok|].
  split; [done|]. split; [apply spec_objective_unit|].
  split; [apply spec_objective_constant|].
  intros g j l Hg Hin.
  pose proof (spec_objective_penalised n m t) as Hall.
  rewrite Forall_forall in Hall. apply Hall in Hin as (over & g' & key & Heq & Hlen & Hor).
  apply var_of_inj in Heq as [[= <- <-] _]; [|cbn; by rewrite decide_False by lia|done].
  destruct Hor as [?|?]; [done|lia].
Qed.

Lemma objective_is_unweighted_sum_witness :
  1 <= 80 /\ 1 <= 30 /\ 7 <= 7 /\ 2 <= 2 /\
  covers (uniform_competency 80 1) 80 = true /\
  exists env mdl,
    build 80 30 7 2 (uniform_competency 80 1) empty_model = Ok (env, mdl) /\
    objective mdl = Some (spec_objective 80 30 2) /\
    Forall (fun tm => snd tm = 1) (terms (spec_objective 80 30 2)) /\
    constant (spec_objective 80 30 2) = 0 /\
    forall g j l, 4 <= g <= 10 ->
      d_neg g [j; l] ∉ expr_vars (spec_objective 80 30 2).
Proof.
  split; [lia|]. split; [lia|]. split; [lia|]. split; [lia|].
  split; [by vm_compute|].
  apply objective_is_unweighted_sum; [lia|lia|lia|lia|by vm_compute].
Defined.

(** ** Goal constraints (C4, C5) *)

(** C4. With a person and a day to plan, for every section [k] of [1, 7],
    day [j] of [1, m] and shift [l] of [1, t], the model holds the equality
    [Σ_i X(i,j,k,l)·CompetencyScore(i,k) + d⁻_{k+3}(j,l) − d⁺_{k+3}(j,l) = target k],
    with the targets [(3, 4, 4, 4, 6, 8, 5)].  In the sum, the coefficient
    of [X(i,j,k,l)] is the score of person [i] in section [k] as docplex
    keeps it: the score itself as long as it lies within [±1e20]. *)
Theorem quality_goal_constraints n m s t competency :
  1 <= n -> 1 <= m -> 7 <= s -> 2 <= t -> covers competency n = true ->
  exists env mdl,
    build n m s t competency empty_model = Ok (env, mdl) /\
    forall k j l, 1 <= k <= 7 -> 1 <= j <= m -> 1 <= l <= t ->
      (exists c, c ∈ constraints mdl /\
         ct_lhs c = (quality_sum n competency j k l
                       ⊕ of_var (d_neg (k + 3) [j; l])
                       ⊖ of_var (d_pos (k + 3) [j; l]))%expr /\
         ct_sense c = EQ /\
         ct_rhs c = of_num (target k)) /\
      forall i, 1 <= i <= n ->
        coef (quality_sum n competency j k l) (X_var i j k l)
        = truncate (score competency i k) /\
        (- docplex_infinity <= score competency i k <= docplex_infinity ->
         coef (quality_sum n competency j k l) (X_var i j k l)
         = score competency i k).
Proof.
  intros Hn Hm Hs Ht Hc. eexists _, _. split; [by apply build_ok|].
  intros k j l Hk Hj Hl. cbn [constraints built_model]. split.
  - eexists. split.
    + eapply quality_rows_model; [by apply quality_row_of|].
      by apply quality_cts_member.
    + done.
  - intros i Hi. split; [by apply quality_sum_coef|].
    intros Hsmall. rewrite quality_sum_coef by done. by apply truncate_small.
Qed.

Lemma quality_goal_constraints_witness :
  1 <= 80 /\ 1 <= 30 /\ 7 <= 7 /\ 2 <= 2 /\
  covers (uniform_competency 80 1) 80 = true /\
  exists env mdl,
    build 80 30 7 2 (uniform_competency 80 1) empty_model = Ok (env, mdl) /\
    forall k j l, 1 <= k <= 7 -> 1 <= j <= 30 -> 1 <= l <= 2 ->
      (exists c, c ∈ constraints mdl /\
         ct_lhs c = (quality_sum 80 (uniform_competency 80 1) j k l
                       ⊕ of_var (d_neg (k + 3) [j; l])
                       ⊖ of_var (d_pos (k + 3) [j; l]))%expr /\
         ct_sense c = EQ /\
         ct_rhs c = of_num (target k)) /\
      forall i, 1 <= i <= 80 ->
        coef (quality_sum 80 (uniform_competency 80 1) j k l) (X_var i j k l)
        = truncate (score (uniform_competency 80 1) i k) /\
        (- docplex_infinity <= score (uniform_competency 80 1) i k
           <= docplex_infinity ->
         coef (quality_sum 80 (uniform_competency 80 1) j k l) (X_var i j k l)
         = score (uniform_competency 80 1) i k).
Proof.
  split; [lia|]. split; [lia|]. split; [lia|]. split; [lia|].
  split; [by vm_compute|].
  apply quality_goal_constraints; [lia|lia|lia|lia|by vm_compute].
Defined.

(** C5. With a person and a day to plan, for every person [i] of [1, n]
    and day [j] of [1, m−2], the model holds the one equality
    [Σ_{k,l} X(i,j,k,l) + h(i,j+1) + Σ_{k,l} X(i,j+1,k,l) + d⁻₂(i,j) − d⁺₂(i,j) = 2]. *)
Theorem goal_2_constraints n m s t competency :
  1 <= n -> 1 <= m -> 7 <= s -> 2 <= t -> covers competency n = true ->
  exists env mdl,
    build n m s t competency empty_model = Ok (env, mdl) /\
    forall i j, 1 <= i <= n -> 1 <= j <= m - 2 ->
      exists c, c ∈ constraints mdl /\
        ct_lhs c = (day_sum s t i j
                      ⊕ of_var (h_var i (j + 1))
                      ⊕ day_sum s t i (j + 1)
                      ⊕ of_var (d_neg 2 [i; j])
                      ⊖ of_var (d_pos 2 [i; j]))%expr /\
        ct_sense c = EQ /\
        ct_rhs c = of_num 2.
Proof.
  intros Hn Hm Hs Ht Hc. eexists _, _. split; [by apply build_ok|].
  intros i j Hi Hj. cbn [constraints built_model].
  eexists. split.
  - apply goal_cts_all. unfold goal_cts. rewrite !elem_of_app.
    right. left. by apply cts_24_member.
  - done.
Qed.

Lemma goal_2_constraints_witness :
  1 <= 80 /\ 1 <= 30 /\ 7 <= 7 /\ 2 <= 2 /\
  covers (uniform_competency 80 1) 80 = true /\
  exists env mdl,
    build 80 30 7 2 (uniform_competency 80 1) empty_model = Ok (env, mdl) /\
    forall i j, 1 <= i <= 80 -> 1 <= j <= 30 - 2 ->
      exists c, c ∈ constraints mdl /\
        ct_lhs c = (day_sum 7 2 i j
                      ⊕ of_var (h_var i (j + 1))
                      ⊕ day_sum 7 2 i (j + 1)
                      ⊕ of_var (d_neg 2 [i; j])
                      ⊖ of_var (d_pos 2 [i; j]))%expr /\
        ct_sense c = EQ /\
        ct_rhs c = of_num 2.
Proof.
  split; [lia|]. split; [lia|]. split; [lia|]. split; [lia|].
  split; [by vm_compute|].
  apply goal_2_constraints; [lia|lia|lia|lia|by vm_compute].
Defined.

(** ** The variable space (C2, C7) *)

Lemma length_bind_const {A B} (f : A -> list B) (l : list A) c :
  (forall x, length (f x) = c) -> length (l ≫= f) = (length l * c)%nat.
Proof.
  intros Hf. induction l as [|x l IH]; [done|].
  rewrite bind_cons, length_app, Hf, IH. cbn. lia.
Qed.

Lemma length_pairs {A B} (l1 : list A) (l2 : list B) :
  length (x ← l1; y ← l2; [(x, y)]) = (length l1 * length l2)%nat.
Proof.
  apply length_bind_const. intros x.
  rewrite (length_bind_const _ _ 1%nat); [lia|done].
Qed.

Lemma NoDup_bind_proj {A B} (f : A -> list B) (proj : B -> A) (l : list A) :
  (forall x y, y ∈ f x -> proj y = x) ->
  (forall x, x ∈ l -> NoDup (f x)) -> NoDup l -> NoDup (l ≫= f).
Proof.
  intros Hproj Hf Hl. apply NoDup_bind; [|done..].
  intros x1 x2 y _ _ H1 H2. by rewrite <- (Hproj x1 y), <- (Hproj x2 y).
Qed.

Lemma NoDup_pairs {A B} (l1 : list A) (l2 : list B) :
  NoDup l1 -> NoDup l2 -> NoDup (x ← l1; y ← l2; [(x, y)]).
Proof.
  intros H1 H2. apply (NoDup_bind_proj _ fst); [| |done].
  - intros x y Hy. by bind_inv.
  - intros x _. apply (NoDup_bind_proj _ snd); [| |done].
    + intros y z Hz. by bind_inv.
    + intros y _. apply NoDup_singleton.
Qed.

Lemma NoDup_triples {A B C} (l1 : list A) (l2 : list B) (l3 : list C) :
  NoDup l1 -> NoDup l2 -> NoDup l3 ->
  NoDup (x ← l1; y ← l2; z ← l3; [(x, y, z)]).
Proof.
  intros H1 H2 H3. apply (NoDup_bind_proj _ (fun p => p.1.1)); [| |done].
  - intros x y Hy. by bind_inv.
  - intros x _. apply (NoDup_bind_proj _ (fun p => p.1.2)); [| |done].
    + intros y z Hz. by bind_inv.
    + intros y _. apply (NoDup_bind_proj _ snd); [| |done].
      * intros z w Hw. by bind_inv.
      * intros z _. apply NoDup_singleton.
Qed.

Lemma length_X_keys n m s t :
  length (X_keys n m s t)
  = (Z.to_nat n * (Z.to_nat m * (Z.to_nat s * Z.to_nat t)))%nat.
Proof.
  unfold X_keys.
  rewrite (length_bind_const _ _ (Z.to_nat m * (Z.to_nat s * Z.to_nat t))%nat).
  { by rewrite length_list_range. }
  intros i.
  rewrite (length_bind_const _ _ (Z.to_nat s * Z.to_nat t)%nat).
  { by rewrite length_list_range. }
  intros j. rewrite (length_bind_const _ _ (Z.to_nat t)).
  { by rewrite length_list_range. }
  intros k. rewrite (length_bind_const _ _ 1%nat); [|done].
  rewrite length_list_range. lia.
Qed.

Lemma length_h_keys n m :
  length (h_keys n m) = (Z.to_nat n * Z.to_nat m)%nat.
Proof. unfold h_keys. by rewrite length_pairs, !length_list_range. Qed.

Lemma NoDup_h_keys n m : NoDup (h_keys n m).
Proof. apply NoDup_pairs; apply NoDup_list_range. Qed.

Lemma NoDup_X_keys n m s t : NoDup (X_keys n m s t).
Proof.
  unfold X_keys.
  apply (NoDup_bind_proj _ (fun p => p.1.1.1)); [| |apply NoDup_list_range].
  { intros x y Hy. by bind_inv. }
  intros i _.
  apply (NoDup_bind_proj _ (fun p => p.1.1.2)); [| |apply NoDup_list_range].
  { intros x y Hy. by bind_inv. }
  intros j _.
  apply (NoDup_bind_proj _ (fun p => p.1.2)); [| |apply NoDup_list_range].
  { intros x y Hy. by bind_inv. }
  intros k _.
  apply (NoDup_bind_proj _ snd); [| |apply NoDup_list_range].
  { intros x y Hy. by bind_inv. }
  intros l _. apply NoDup_singleton.
Qed.

Lemma size_keyed `{Countable K} {V} (g : K -> V) (keys : list K) :
  NoDup keys ->
  size (list_to_map (map (fun k => (k, g k)) keys) : gmap K V) = length keys.
Proof.
  intros Hnd. rewrite map_size_list_to_map.
  - by rewrite length_map.
  - by rewrite <- list_fmap_compose, list_fmap_id.
Qed.

(** *** Counting by name and by type *)

Lemma count_named_app prefix vs ws :
  count_named prefix (vs ++ ws)
  = (count_named prefix vs + count_named prefix ws)%nat.
Proof. unfold count_named. by rewrite filter_app, length_app. Qed.

Lemma count_named_all {A} prefix (g : A -> Var) l :
  (forall x, named_with prefix (g x) = true) ->
  count_named prefix (map g l) = length l.
Proof.
  intros Hg. unfold count_named. induction l as [|x l IH]; [done|].
  cbn [map]. rewrite filter_cons_True by apply Hg. cbn. by rewrite IH.
Qed.

Lemma count_named_none {A} prefix (g : A -> Var) l :
  (forall x, named_with prefix (g x) = false) ->
  count_named prefix (map g l) = 0%nat.
Proof.
  intros Hg. unfold count_named. induction l as [|x l IH]; [done|].
  cbn [map]. rewrite filter_cons_False; [done|]. by rewrite Hg.
Qed.

Lemma count_binary_app vs ws :
  count_binary (vs ++ ws) = (count_binary vs + count_binary ws)%nat.
Proof. unfold count_binary. by rewrite filter_app, length_app. Qed.

Lemma count_binary_all {A} (g : A -> Var) l :
  (forall x, var_type (g x) = Binary) -> count_binary (map g l) = length l.
Proof.
  intros Hg. unfold count_binary. induction l as [|x l IH]; [done|].
  cbn [map]. rewrite filter_cons_True by apply Hg. cbn. by rewrite IH.
Qed.

Lemma count_binary_none {A} (g : A -> Var) l :
  (forall x, var_type (g x) = Continuous) -> count_binary (map g l) = 0%nat.
Proof.
  intros Hg. unfold count_binary. induction l as [|x l IH]; [done|].
  cbn [map]. rewrite filter_cons_False; [done|]. by rewrite Hg.
Qed.

Lemma count_named_matrix prefix keys1 keys2 name :
  (forall key, named_with prefix (dev_var name key) = false) ->
  count_named prefix (matrix_vars keys1 keys2 name) = 0%nat.
Proof.
  intros Hname. rewrite matrix_vars_eq. apply count_named_none.
  intros key. apply Hname.
Qed.

Lemma count_named_list prefix keys name :
  (forall key, named_with prefix (dev_var name key) = false) ->
  count_named prefix (list_vars keys name) = 0%nat.
Proof. intros Hname. apply count_named_none. intros key. apply Hname. Qed.

Lemma count_binary_matrix keys1 keys2 name :
  count_binary (matrix_vars keys1 keys2 name) = 0%nat.
Proof. rewrite matrix_vars_eq. by apply count_binary_none. Qed.

Lemma count_binary_list keys name :
  count_binary (list_vars keys name) = 0%nat.
Proof. by apply count_binary_none. Qed.

Lemma keyed_name_head c name keys :
  exists rest, keyed_name (String c name) keys = String c rest.
Proof.
  unfold keyed_name. revert name.
  induction keys as [|k keys IH]; intros name; cbn [fold_left]; [by eexists|].
  rewrite append_cons. apply IH.
Qed.

Lemma named_with_head c d p name keys :
  c <> d ->
  named_with (String c p) (dev_var (String d name) keys) = false.
Proof.
  intros Hne. unfold named_with, dev_var. cbn [var_name].
  destruct (keyed_name_head d name keys) as [rest ->]. cbn.
  destruct (Ascii.ascii_dec c d); [done|done].
Qed.

Lemma prefix_nil s : String.prefix EmptyString s = true.
Proof. by destruct s. Qed.

Lemma named_X_X key : named_with "X_" (X_entry key) = true.
Proof.
  destruct key as [[[i j] k] l].
  unfold named_with, X_entry, X_var, X_name. cbn [var_name].
  rewrite !append_cons. cbn. apply prefix_nil.
Qed.

Lemma named_h_h key : named_with "h_" (h_entry key) = true.
Proof.
  destruct key as [i j].
  unfold named_with, h_entry, h_var, h_name. cbn [var_name].
  rewrite !append_cons. cbn. apply prefix_nil.
Qed.

Lemma named_X_h key : named_with "X_" (h_entry key) = false.
Proof. by destruct key as [i j]. Qed.

Lemma named_h_X key : named_with "h_" (X_entry key) = false.
Proof. by destruct key as [[[i j] k] l]. Qed.

(** *** Cells after the declarations leave the variables alone *)

Lemma keeps_bind {A B} (c : M A) (f : A -> M B) :
  keeps_variables c -> (forall a, keeps_variables (f a)) ->
  keeps_variables (bind c f).
Proof.
  intros Hc Hf mdl b mdl'. unfold bind.
  destruct (c mdl) as [[a mdl1]|e] eqn:Hrun; [|done].
  intros Hrun'. apply Hf in Hrun'. apply Hc in Hrun. congruence.
Qed.

Lemma keeps_ret {A} (a : A) : keeps_variables (ret a).
Proof. by intros mdl a' mdl' [= _ <-]. Qed.

Lemma keeps_constraint_of r : keeps_variables (add_constraint_of r).
Proof.
  intros mdl a mdl'. unfold add_constraint_of, bind, lift.
  destruct r as [c|e]; [|done]. by intros [= _ <-].
Qed.

Lemma keeps_forM {A} (l : list A) (body : A -> M unit) :
  (forall x, keeps_variables (body x)) -> keeps_variables (forM_ l body).
Proof.
  intros Hbody. induction l as [|x l IH]; [apply keeps_ret|].
  cbn [forM_]. apply keeps_bind; [apply Hbody|by intros _].
Qed.

Lemma keeps_objective n m t env : keeps_variables (cell_objective n m t env).
Proof.
  intros mdl a mdl'. unfold cell_objective, bind, lift, minimize.
  destruct (objective_expr n m t env); [|done]. by intros [= _ <-].
Qed.

Lemma keeps_hard n m s t env : keeps_variables (hard_constraints n m s t env).
Proof.
  unfold hard_constraints, cell_10, cell_11, cell_12, cell_13, cell_14,
    cell_15, cell_16, coverage_cell, cell_17, cell_18, cell_19, cell_20,
    cell_21, cell_22.
  repeat first
    [ apply keeps_constraint_of
    | apply keeps_ret
    | apply keeps_forM; intros ?
    | apply keeps_bind; [|intros ?] ].
Qed.

Lemma keeps_goal n m s t competency env :
  keeps_variables (goal_constraints n m s t competency env).
Proof.
  unfold goal_constraints, cell_23, cell_24, cell_25, cell_26, cell_27,
    cell_28, cell_29, cell_30, cell_31, cell_32, quality_cell.
  repeat first
    [ apply keeps_constraint_of
    | apply keeps_ret
    | apply keeps_forM; intros ?
    | apply keeps_bind; [|intros ?] ].
Qed.

(** Whenever the notebook reaches the solve cell, the dictionaries and
    the variables of the model are those of the declaration cells. *)
Lemma build_variables n m s t competency env mdl :
  build n m s t competency empty_model = Ok (env, mdl) ->
  env = declared_env n m s t /\ variables mdl = declared_variables n m s t.
Proof.
  destruct (decide (n <= 0 \/ m <= 0 \/ t <= 0)) as [Hdim|Hdim].
  { by rewrite build_stops. }
  unfold build. unfold bind at 1. rewrite declare_variables_eq by lia.
  intros Hrun.
  assert (keeps_variables
            (cell_objective n m t (declared_env n m s t) ;;
             hard_constraints n m s t (declared_env n m s t) ;;
             goal_constraints n m s t competency (declared_env n m s t) ;;
             ret (declared_env n m s t))%cell) as Hkeep.
  { apply keeps_bind; [apply keeps_objective|intros _].
    apply keeps_bind; [apply keeps_hard|intros _].
    apply keeps_bind; [apply keeps_goal|intros _]. apply keeps_ret. }
  pose proof (Hkeep _ _ _ Hrun) as Hvars. cbn in Hvars. split; [|done].
  revert Hrun. unfold bind, ret.
  repeat match goal with
  | |- context [match ?c ?x with Ok _ => _ | Raise _ => _ end] =>
      destruct (c x) as [[[] ?]|?]; [|done]
  end.
  by intros [= <- _].
Qed.

(** C7. For dimensions with a person, a day and a shift, the declaration
    cells create one binary assignment variable per tuple of
    [1,n]×[1,m]×[1,s]×[1,t] and one binary leave variable per pair of
    [1,n]×[1,m] and no other: [n·m·s·t] variables [X] and [n·m] variables
    [h], in the dictionaries and in the model, and the model handed to the
    solver has these variables.  (Without a person, a day or a shift the
    cells of the deviations raise: see [declare_variables_raise].) *)
Theorem variable_counts n m s t :
  1 <= n -> 1 <= m -> 0 <= s -> 1 <= t ->
  exists env mdl,
    declare_variables n m s t empty_model = Ok (env, mdl) /\
    Z.of_nat (size (X env)) = n * m * s * t /\
    Z.of_nat (size (h env)) = n * m /\
    (forall i j k l,
       X env !! (i, j, k, l) =
         if decide (1 <= i <= n /\ 1 <= j <= m /\ 1 <= k <= s /\ 1 <= l <= t)
         then Some (X_var i j k l) else None) /\
    (forall i j,
       h env !! (i, j) =
         if decide (1 <= i <= n /\ 1 <= j <= m)
         then Some (h_var i j) else None) /\
    Z.of_nat (count_named "X_" (variables mdl)) = n * m * s * t /\
    Z.of_nat (count_named "h_" (variables mdl)) = n * m /\
    Z.of_nat (count_binary (variables mdl)) = n * m * s * t + n * m /\
    (forall competency env' mdl',
       build n m s t competency empty_model = Ok (env', mdl') ->
       env' = env /\ variables mdl' = variables mdl).
Proof.
  intros Hn Hm Hs Ht. eexists _, _.
  split; [by apply declare_variables_eq|].
  cbn [variables empty_model app X h declared_env].
  split; [|split; [|split; [|split; [|split; [|split; [|split]]]]]].
  - rewrite size_keyed by apply NoDup_X_keys. rewrite length_X_keys. lia.
  - rewrite size_keyed by apply NoDup_h_keys. rewrite length_h_keys. lia.
  - intros i j k l. rewrite (lookup_keyed X_entry).
    destruct (decide ((i, j, k, l) ∈ X_keys n m s t)) as [Hin|Hnin];
      rewrite elem_of_X_keys in *.
    + by rewrite decide_True.
    + by rewrite decide_False.
  - intros i j. rewrite (lookup_keyed h_entry).
    destruct (decide ((i, j) ∈ h_keys n m)) as [Hin|Hnin];
      rewrite elem_of_h_keys in *.
    + by rewrite decide_True.
    + by rewrite decide_False.
  - unfold declared_variables. rewrite !count_named_app.
    rewrite (count_named_all "X_" X_entry) by apply named_X_X.
    rewrite (count_named_none "X_" h_entry) by apply named_X_h.
    rewrite !count_named_matrix, !count_named_list
      by (intros key; by apply named_with_head).
    rewrite length_X_keys. lia.
  - unfold declared_variables. rewrite !count_named_app.
    rewrite (count_named_none "h_" X_entry) by apply named_h_X.
    rewrite (count_named_all "h_" h_entry) by apply named_h_h.
    rewrite !count_named_matrix, !count_named_list
      by (intros key; by apply named_with_head).
    rewrite length_h_keys. lia.
  - unfold declared_variables. rewrite !count_binary_app.
    rewrite (count_binary_all X_entry) by (by intros [[[??]?]?]).
    rewrite (count_binary_all h_entry) by (by intros [??]).
    rewrite !count_binary_matrix, !count_binary_list.
    rewrite length_X_keys, length_h_keys. lia.
  - intros competency env' mdl' Hrun. by apply build_variables in Hrun.
Qed.

Lemma variable_counts_witness :
  1 <= 80 /\ 1 <= 30 /\ 0 <= 7 /\ 1 <= 2 /\
  exists env mdl,
    declare_variables 80 30 7 2 empty_model = Ok (env, mdl) /\
    Z.of_nat (size (X env)) = 80 * 30 * 7 * 2 /\
    Z.of_nat (size (h env)) = 80 * 30 /\
    (forall i j k l,
       X env !! (i, j, k, l) =
         if decide (1 <= i <= 80 /\ 1 <= j <= 30 /\ 1 <= k <= 7 /\ 1 <= l <= 2)
         then Some (X_var i j k l) else None) /\
    (forall i j,
       h env !! (i, j) =
         if decide (1 <= i <= 80 /\ 1 <= j <= 30)
         then Some (h_var i j) else None) /\
    Z.of_nat (count_named "X_" (variables mdl)) = 80 * 30 * 7 * 2 /\
    Z.of_nat (count_named "h_" (variables mdl)) = 80 * 30 /\
    Z.of_nat (count_binary (variables mdl)) = 80 * 30 * 7 * 2 + 80 * 30 /\
    (forall competency env' mdl',
       build 80 30 7 2 competency empty_model = Ok (env', mdl') ->
       env' = env /\ variables mdl' = variables mdl).
Proof.
  split; [lia|]. split; [lia|]. split; [lia|]. split; [lia|].
  apply variable_counts; lia.
Defined.

(** C2 (the out-of-range column of [d_neg_6]).  The matrix [d_neg_6] is
    declared over the shifts [range(t+1)], so, with a person and a shift
    to plan, for every day [j] of [1, m] it holds a variable at shift [0],
    which lies outside [1, t]; that variable is in the model.  Its
    companion [d_pos_6] lives on [1, m] × [1, t] exactly. *)
Theorem d_neg_6_has_shift_zero n m s t j :
  1 <= n -> 1 <= j <= m -> 1 <= t ->
  exists env mdl,
    declare_variables n m s t empty_model = Ok (env, mdl) /\
    d_neg_6 env !! (j, 0) = Some (d_neg 6 [j; 0]) /\
    d_neg 6 [j; 0] ∈ variables mdl /\
    (forall a b, is_Some (d_neg_6 env !! (a, b)) <-> 1 <= a <= m /\ 0 <= b <= t) /\
    (forall a b, is_Some (d_pos_6 env !! (a, b)) <-> 1 <= a <= m /\ 1 <= b <= t).
Proof.
  intros Hn Hj Ht. eexists _, _. split; [apply declare_variables_eq; lia|].
  cbn [d_neg_6 d_pos_6 declared_env variables empty_model app].
  assert (j ∈ range 1 (m + 1)) as Hjin by (apply elem_of_range; lia).
  assert (0 ∈ range0 (t + 1)) as H0in by (apply elem_of_range; lia).
  split; [|split; [|split]].
  - rewrite matrix_dict_lookup. by rewrite decide_True.
  - unfold declared_variables. rewrite !elem_of_app.
    do 12 right. left. rewrite matrix_vars_eq.
    apply list_elem_of_fmap. exists (j, 0). split; [done|].
    by apply elem_of_pairs.
  - intros a b. rewrite matrix_dict_lookup. unfold range0.
    case_decide as Hin; rewrite !elem_of_range in Hin.
    + split; [lia|by eexists].
    + split; [by intros [? ?]|lia].
  - intros a b. rewrite matrix_dict_lookup.
    case_decide as Hin; rewrite !elem_of_range in Hin.
    + split; [lia|by eexists].
    + split; [by intros [? ?]|lia].
Qed.

Lemma d_neg_6_has_shift_zero_witness :
  1 <= 80 /\ 1 <= 1 <= 30 /\ 1 <= 2 /\
  exists env mdl,
    declare_variables 80 30 7 2 empty_model = Ok (env, mdl) /\
    d_neg_6 env !! (1, 0) = Some (d_neg 6 [1; 0]) /\
    d_neg 6 [1; 0] ∈ variables mdl /\
    (forall a b, is_Some (d_neg_6 env !! (a, b)) <-> 1 <= a <= 30 /\ 0 <= b <= 2) /\
    (forall a b, is_Some (d_pos_6 env !! (a, b)) <-> 1 <= a <= 30 /\ 1 <= b <= 2).
Proof.
  split; [lia|]. split; [lia|]. split; [lia|].
  apply d_neg_6_has_shift_zero; lia.
Defined.

(** ** Names and index tuples (C8) *)

Lemma list_vars_member keys name v :
  v ∈ list_vars keys name -> exists k, v = dev_var name [k].
Proof.
  intros (k & -> & _)%list_elem_of_fmap. by exists k.
Qed.

Lemma matrix_vars_inv keys1 keys2 name v :
  v ∈ matrix_vars keys1 keys2 name -> exists a b, v = dev_var name [a; b].
Proof.
  rewrite matrix_vars_eq. intros ([a b] & -> & _)%list_elem_of_fmap.
  by exists a, b.
Qed.

(** Every variable the declaration cells create is the variable of some
    family at some index tuple of the family's length. *)
Lemma declared_variables_family n m s t v :
  v ∈ declared_variables n m s t ->
  exists f key, length key = arity f /\ v = var_of f key.
Proof.
  unfold declared_variables. rewrite !elem_of_app.
  intros H.
  repeat match type of H with
  | _ \/ _ => destruct H as [H|H]
  end;
  first
    [ apply list_elem_of_fmap in H as ([[[i j] k] l] & -> & _);
      exists FamX, [i; j; k; l]; split; [done|apply X_var_of]
    | apply list_elem_of_fmap in H as ([i j] & -> & _);
      exists Famh, [i; j]; split; [done|apply h_var_of]
    | apply matrix_vars_inv in H as (a & b & ->);
      first [ by exists (FamD false 1), [a; b] | by exists (FamD true 1), [a; b]
            | by exists (FamD false 2), [a; b] | by exists (FamD true 2), [a; b]
            | by exists (FamD false 4), [a; b] | by exists (FamD true 4), [a; b]
            | by exists (FamD false 5), [a; b] | by exists (FamD true 5), [a; b]
            | by exists (FamD false 6), [a; b] | by exists (FamD true 6), [a; b]
            | by exists (FamD false 7), [a; b] | by exists (FamD true 7), [a; b]
            | by exists (FamD false 8), [a; b] | by exists (FamD true 8), [a; b]
            | by exists (FamD false 9), [a; b] | by exists (FamD true 9), [a; b]
            | by exists (FamD false 10), [a; b] | by exists (FamD true 10), [a; b] ]
    | apply list_vars_member in H as (k & ->);
      first [ by exists (FamD false 3), [k] | by exists (FamD true 3), [k] ] ].
Qed.

(** C8. Over every family and every index tuple of the family's length,
    the identifier determines the family and the tuple: decoding an
    identifier gives back the family and the tuple it was made from, so no
    two tuples, of one family or of two, have the same identifier.  The
    names the notebook writes are these identifiers, and the name of every
    variable of the model decodes to the family and the tuple the variable
    was created for. *)
Theorem name_round_trip :
  (forall f key, length key = arity f ->
     decode (encode f key) = Some (f, key)) /\
  (forall f key f' key', length key = arity f -> length key' = arity f' ->
     encode f key = encode f' key' -> f = f' /\ key = key') /\
  (forall i j k l, var_name (X_var i j k l) = encode FamX [i; j; k; l]) /\
  (forall i j, var_name (h_var i j) = encode Famh [i; j]) /\
  (forall n m s t v, v ∈ declared_variables n m s t ->
     exists f key, length key = arity f /\ v = var_of f key /\
                   decode (var_name v) = Some (f, key)).
Proof.
  split; [apply decode_encode|].
  split; [apply encode_inj|].
  split; [intros; apply X_name_encode|].
  split; [intros; apply h_name_encode|].
  intros n m s t v (f & key & Hlen & ->)%declared_variables_family.
  exists f, key. split; [done|]. split; [done|]. by apply decode_encode.
Qed.

Lemma name_round_trip_witness :
  length [1; 30; 7; 2] = arity FamX /\
  decode (encode FamX [1; 30; 7; 2]) = Some (FamX, [1; 30; 7; 2]) /\
  decode (var_name (d_neg 6 [30; 0])) = Some (FamD false 6, [30; 0]).
Proof.
  split; [reflexivity|]. split.
  - apply (proj1 name_round_trip). reflexivity.
  - apply (proj1 name_round_trip (FamD false 6)). reflexivity.
Defined.

(** ** A missing competency score (C9) *)

Lemma covers_false_section competency n :
  covers competency n = false ->
  exists k, 1 <= k <= 7 /\ ~ section_covered competency n k.
Proof.
  intros Hc.
  destruct (decide (Forall (section_covered competency n) (list_range 7)))
    as [Hall|Hno].
  - assert (covers competency n = true) as Hyes; [|congruence].
    apply covers_spec. intros i k Hi Hk.
    rewrite Forall_forall in Hall.
    specialize (Hall k ltac:(by apply elem_of_list_range)).
    unfold section_covered in Hall. rewrite Forall_forall in Hall.
    by apply Hall, elem_of_list_range.
  - apply not_Forall_Exists in Hno; [|intros k; apply _].
    apply Exists_exists in Hno as (k & Hk%elem_of_list_range & Hno). eauto.
Qed.

Section MissingScore.

Variables n m s t : Z.
Variable competency : gmap Z (gmap Z Z).
Hypothesis sections : 7 <= s.
Hypothesis shifts : 2 <= t.
Hypothesis days : 1 <= m.
Abbreviation env := (declared_env n m s t).

(** A quality cell followed by further cells raises a lookup error if
    the cell's section lacks a score, or else if the further cells do. *)
Lemma quality_cell_step k keys2 dn dp tgt label (rest : M unit) :
  1 <= k <= 7 ->
  (forall l, 1 <= l <= t -> l ∈ keys2) ->
  (section_covered competency n k ->
   exists e, raises rest e /\ lookup_error e) ->
  exists e,
    raises (quality_cell n m t competency env k
              (matrix_dict (range 1 (m+1)) keys2 dn)
              (matrix_dict (range 1 (m+1)) (range 1 (t+1)) dp) tgt label ;;
            rest)%cell e
    /\ lookup_error e.
Proof.
  intros Hk Hkeys Hrest.
  destruct (decide (section_covered competency n k)) as [Hcov|Hno].
  - destruct (Hrest Hcov) as (e & He & HP). exists e. split; [|done].
    eapply raises_seq_r; [|done].
    by apply (quality_cell_adds n m s t).
  - edestruct (quality_cell_raises n m s t competency) as (e & He & HP);
      [done..|].
    exists e. split; [|done]. apply raises_seq_l, He.
Qed.

Hypothesis missing : covers competency n = false.

Lemma goal_constraints_raise :
  exists e, raises (goal_constraints n m s t competency env) e /\ lookup_error e.
Proof.
  destruct (covers_false_section competency n missing) as (k0 & Hk0 & Hno).
  unfold goal_constraints.
  assert (forall l, 1 <= l <= t -> l ∈ range 1 (t + 1)) as H1
    by (intros; apply elem_of_range; lia).
  assert (forall l, 1 <= l <= t -> l ∈ range0 (t + 1)) as H0
    by (intros; apply elem_of_range; lia).
  cut (exists e,
    raises (cell_26 n m t competency env ;; cell_27 n m t competency env ;;
            cell_28 n m t competency env ;; cell_29 n m t competency env ;;
            cell_30 n m t competency env ;; cell_31 n m t competency env ;;
            cell_32 n m t competency env)%cell e /\ lookup_error e).
  { intros (e & He & HP). exists e. split; [|done].
    eapply raises_seq_r; [by apply cell_23_adds|].
    eapply raises_seq_r; [by apply cell_24_adds|].
    eapply raises_seq_r; [by apply cell_25_adds|]. done. }
  unfold cell_26, cell_27, cell_28, cell_29, cell_30, cell_31, cell_32.
  cbn [d_neg_4 d_pos_4 d_neg_5 d_pos_5 d_neg_6 d_pos_6 d_neg_7 d_pos_7
         d_neg_8 d_pos_8 d_neg_9 d_pos_9 d_neg_10 d_pos_10 declared_env].
  apply quality_cell_step; [lia|done|]; intros C1.
  apply quality_cell_step; [lia|done|]; intros C2.
  apply quality_cell_step; [lia|done|]; intros C3.
  apply quality_cell_step; [lia|done|]; intros C4.
  apply quality_cell_step; [lia|done|]; intros C5.
  apply quality_cell_step; [lia|done|]; intros C6.
  apply quality_cell_raises; [done|done| |lia|done].
  intros C7. apply Hno.
  assert (k0 = 1 \/ k0 = 2 \/ k0 = 3 \/ k0 = 4 \/ k0 = 5 \/ k0 = 6 \/ k0 = 7)
    as [->|[->|[->|[->|[->|[->| ->]]]]]] by lia; done.
Qed.

Lemma build_raises :
  exists e, build n m s t competency empty_model = Raise e /\ lookup_error e.
Proof.
  assert (1 <= n) as Hn.
  { destruct (covers_false_section competency n missing) as (k0 & _ & Hno).
    destruct (Z.le_gt_cases 1 n) as [|Hlt]; [done|]. destruct Hno.
    unfold section_covered. rewrite list_range_nonpos by lia. constructor. }
  destruct goal_constraints_raise as (e & He & HP). exists e. split; [|done].
  unfold build. unfold bind at 1. rewrite declare_variables_eq by lia.
  unfold bind at 1. unfold cell_objective, bind at 1.
  rewrite objective_expr_ok. cbn [lift minimize].
  unfold bind at 1. rewrite (hard_constraints_adds n m s t sections shifts).
  unfold bind at 1. by rewrite He.
Qed.

End MissingScore.

(** C9. When the competency table lacks the score of some person of
    [1, n] in some section of [1, 7], the notebook stops in a goal
    constraint cell, on the exception raised by the lookup or by the
    product with the missing score: no model is built and the solver is
    not called. *)
Theorem missing_score_stops_before_solve n m s t competency :
  7 <= s -> 2 <= t -> 1 <= m -> covers competency n = false ->
  exists e,
    build n m s t competency empty_model = Raise e /\
    (e = AttributeError \/ e = DOcplexException) /\
    forall solve,
      run solve n m s t competency = Stopped e /\
      solver_calls (run solve n m s t competency) = [].
Proof.
  intros Hs Ht Hm Hc.
  destruct (build_raises n m s t competency Hs Ht Hm Hc) as (e & He & HP).
  exists e. split; [done|]. split; [done|].
  intros solve. unfold run. by rewrite He.
Qed.

(** A table with a row for person 1 only, for two persons. *)
Lemma missing_score_stops_before_solve_witness :
  7 <= 7 /\ 2 <= 2 /\ 1 <= 30 /\ covers (uniform_competency 1 1) 2 = false /\
  exists e,
    build 2 30 7 2 (uniform_competency 1 1) empty_model = Raise e /\
    (e = AttributeError \/ e = DOcplexException) /\
    forall solve,
      run solve 2 30 7 2 (uniform_competency 1 1) = Stopped e /\
      solver_calls (run solve 2 30 7 2 (uniform_competency 1 1)) = [].
Proof.
  split; [lia|]. split; [lia|]. split; [lia|]. split; [by vm_compute|].
  apply missing_score_stops_before_solve; [lia|lia|lia|by vm_compute].
Defined.

(** ** Which variables a constraint mentions *)

Lemma assignment_not_leave v : is_assignment v -> is_leave v -> False.
Proof.
  intros (i & j & k & l & ->) (i' & j' & Heq).
  rewrite X_var_of, h_var_of in Heq. by apply var_of_inj in Heq as [? _].
Qed.

Lemma deviation_not_leave v : is_deviation v -> is_leave v -> False.
Proof.
  intros (over & g & key & Hlen & ->) (i' & j' & Heq).
  rewrite h_var_of in Heq. by apply var_of_inj in Heq as [? _].
Qed.

Lemma deviation_not_assignment v : is_deviation v -> is_assignment v -> False.
Proof.
  intros (over & g & key & Hlen & ->) (i & j & k & l & Heq).
  rewrite X_var_of in Heq. by apply var_of_inj in Heq as [? _].
Qed.

Lemma dev_var_deviation name over g key :
  dev_var name = var_of (FamD over g) -> length key = arity (FamD over g) ->
  is_deviation (dev_var name key).
Proof. intros -> Hlen. by exists over, g, key. Qed.

Lemma Forall_of_var (P : Var -> Prop) v : P v -> Forall P (expr_vars (of_var v)).
Proof. intros Hv. by repeat constructor. Qed.

Section Footprint.

Variables n m s t : Z.
Variable competency : gmap Z (gmap Z Z).

(** The left-hand side of a constraint other than a rolling window
    either sums assignment variables only, and then the constraint is
    an equality for the headcounts only, or it mentions a deviation. *)
Lemma shape_lhs_vars c :
  shape n m s t competency c ->
  (Forall is_assignment (expr_vars (ct_lhs c)) /\
   (ct_sense c = EQ ->
    exists j k l, k <> 4 /\ ct_lhs c = headcount n j k l)) \/
  exists v, v ∈ expr_vars (ct_lhs c) /\ is_deviation v.
Proof.
  destruct 1; cbn [ct_lhs ct_sense].
  - left. split; [apply headcount_assignment|]. intros _. eauto.
  - left. split; [apply day_sum_assignment|done].
  - left. split; [apply day_sum_assignment|done].
  - left. split; [apply shift_sum_assignment|done].
  - left. split; [|done]. rewrite expr_vars_eadd. apply Forall_app.
    split; apply sections_sum_assignment.
  - right. exists (dev_var "d_pos_1" [i; j]). split.
    + unfold goal_1_lhs. rewrite expr_vars_esub, elem_of_app. right. by left.
    + by apply (dev_var_deviation _ true 1).
  - right. exists (dev_var "d_pos_2" [i; j]). split.
    + unfold goal_2_lhs. rewrite expr_vars_esub, elem_of_app. right. by left.
    + by apply (dev_var_deviation _ true 2).
  - right. exists (dev_var "d_pos_3" [i]). split.
    + unfold goal_3_lhs. rewrite expr_vars_esub, elem_of_app. right. by left.
    + by apply (dev_var_deviation _ true 3).
  - right. exists (dev_var dp [j; l]). split.
    + unfold quality_lhs. rewrite expr_vars_esub, elem_of_app. right. by left.
    + apply (dev_var_deviation _ true g); [done|].
      cbn. by rewrite decide_False by lia.
Qed.

Lemma shape_not_window c i j :
  shape n m s t competency c -> ct_lhs c <> window_sum i j.
Proof.
  intros Hshape Heq. pose proof (window_sum_leave i j) as Hleave.
  destruct (window_sum_head i j) as [rest Hhead].
  destruct (shape_lhs_vars c Hshape) as [[Hall _]|(v & Hv & Hdev)];
    rewrite Heq in *.
  - rewrite Hhead in Hall. apply Forall_cons in Hall as [HX _].
    apply (assignment_not_leave _ HX). by exists i, j.
  - rewrite Forall_forall in Hleave.
    by apply (deviation_not_leave v), Hleave.
Qed.

Lemma window_sum_inj i j i' j' :
  window_sum i j = window_sum i' j' -> i = i' /\ j = j'.
Proof.
  intros Heq.
  destruct (window_sum_head i j) as [rest Hhead].
  destruct (window_sum_head i' j') as [rest' Hhead'].
  rewrite Heq, Hhead' in Hhead.
  apply (f_equal (hd (h_var 0 0))) in Hhead. cbn [hd] in Hhead.
  apply h_var_inj in Hhead. by destruct Hhead.
Qed.

(** Every variable of a constraint of the model is [constrained]. *)
Lemma assignment_constrained ws :
  Forall is_assignment ws -> Forall (constrained m) ws.
Proof. intros Hall. eapply Forall_impl; [exact Hall|]. intros w Hw. by left. Qed.

Lemma leave_constrained i j : constrained m (h_var i j).
Proof. right. left. by exists i, j. Qed.

Lemma deviation_constrained name over g key :
  dev_var name = var_of (FamD over g) -> length key = arity (FamD over g) ->
  (g = 1 \/ g = 2 -> exists i j, key = [i; j] /\ 1 <= j <= m - 2) ->
  constrained m (dev_var name key).
Proof. intros -> Hlen Hkey. right. right. by exists over, g, key. Qed.

Lemma shape_constrained c :
  shape n m s t competency c -> Forall (constrained m) (ct_vars c).
Proof.
  destruct 1; unfold ct_vars; cbn [ct_lhs ct_rhs];
    rewrite ?app_nil_r.
  - apply assignment_constrained, headcount_assignment.
  - apply assignment_constrained, day_sum_assignment.
  - apply Forall_app. split.
    + apply assignment_constrained, day_sum_assignment.
    + rewrite expr_vars_esub. apply Forall_app. split; [constructor|].
      apply Forall_of_var, leave_constrained.
  - apply assignment_constrained, shift_sum_assignment.
  - rewrite expr_vars_eadd.
    apply Forall_app; split; apply assignment_constrained,
      sections_sum_assignment.
  - unfold goal_1_lhs. rewrite expr_vars_esub, !expr_vars_eadd.
    rewrite !Forall_app. repeat split.
    + apply Forall_of_var, leave_constrained.
    + apply assignment_constrained, day_sum_assignment.
    + apply Forall_of_var, leave_constrained.
    + apply Forall_of_var.
      apply (deviation_constrained _ false 1); [done..|]. intros _. eauto.
    + apply Forall_of_var.
      apply (deviation_constrained _ true 1); [done..|]. intros _. eauto.
  - unfold goal_2_lhs. rewrite expr_vars_esub, !expr_vars_eadd.
    rewrite !Forall_app. repeat split.
    + apply assignment_constrained, day_sum_assignment.
    + apply Forall_of_var, leave_constrained.
    + apply assignment_constrained, day_sum_assignment.
    + apply Forall_of_var.
      apply (deviation_constrained _ false 2); [done..|]. intros _. eauto.
    + apply Forall_of_var.
      apply (deviation_constrained _ true 2); [done..|]. intros _. eauto.
  - unfold goal_3_lhs. rewrite expr_vars_esub, !expr_vars_eadd.
    rewrite !Forall_app. repeat split.
    + apply assignment_constrained, person_sum_assignment.
    + apply Forall_of_var.
      apply (deviation_constrained _ false 3); [done..|]. intros [?|?]; lia.
    + apply Forall_of_var.
      apply (deviation_constrained _ true 3); [done..|]. intros [?|?]; lia.
  - unfold quality_lhs. rewrite expr_vars_esub, !expr_vars_eadd.
    rewrite !Forall_app. repeat split.
    + apply assignment_constrained, quality_sum_assignment.
    + apply Forall_of_var.
      apply (deviation_constrained _ false g);
        [done|cbn; by rewrite decide_False by lia|]. intros [?|?]; lia.
    + apply Forall_of_var.
      apply (deviation_constrained _ true g);
        [done|cbn; by rewrite decide_False by lia|]. intros [?|?]; lia.
Qed.

Lemma window_constrained c i j :
  c = window_max i j \/ c = window_min i j ->
  Forall (constrained m) (ct_vars c).
Proof.
  intros [-> | ->]; unfold ct_vars; cbn [ct_lhs ct_rhs window_max window_min];
    rewrite app_nil_r;
    (eapply Forall_impl; [apply window_sum_leave|]);
    intros w Hw; right; by left.
Qed.

Lemma all_cts_constrained c :
  c ∈ all_cts n m s t competency -> Forall (constrained m) (ct_vars c).
Proof.
  intros [Hshape|(i & j & _ & _ & Hw)]%all_cts_inv.
  - by apply shape_constrained.
  - by eapply window_constrained.
Qed.

End Footprint.

(** ** The rolling leave windows (C6) *)

Lemma filter_none {A} (P : A -> Prop) `{forall x, Decision (P x)} (l : list A) :
  (forall x, x ∈ l -> ~ P x) -> filter P l = [].
Proof.
  induction l as [|x l IH]; intros Hno; [done|].
  rewrite filter_cons_False by (apply Hno; by left).
  apply IH. intros y Hy. apply Hno. by right.
Qed.

Lemma filter_bind {A B} (P : B -> Prop) `{forall x, Decision (P x)}
    (f : A -> list B) (l : list A) :
  filter P (l ≫= f) = l ≫= (fun x => filter P (f x)).
Proof.
  induction l as [|x l IH]; [done|].
  by rewrite !bind_cons, filter_app, IH.
Qed.

Lemma bind_all_nil {A B} (g : A -> list B) (l : list A) :
  (forall x, x ∈ l -> g x = []) -> l ≫= g = [].
Proof.
  induction l as [|x l IH]; intros Hg; [done|].
  rewrite bind_cons, Hg by (by left). cbn. apply IH.
  intros y Hy. apply Hg. by right.
Qed.

Lemma bind_only {A B} (g : A -> list B) (l : list A) (x0 : A) :
  NoDup l -> x0 ∈ l -> (forall x, x ∈ l -> x <> x0 -> g x = []) ->
  l ≫= g = g x0.
Proof.
  induction 1 as [|x l Hnin Hnd IH]; intros Hin Hother.
  - by apply elem_of_nil in Hin.
  - rewrite bind_cons. apply elem_of_cons in Hin as [->|Hin].
    + rewrite (bind_all_nil g l); [by rewrite app_nil_r|].
      intros y Hy. apply Hother; [by right|]. intros ->. done.
    + rewrite Hother; [|by left|by intros ->]. cbn. apply IH; [done|].
      intros y Hy. apply Hother. by right.
Qed.

Section Windows.

Variables n m s t : Z.
Variable competency : gmap Z (gmap Z Z).

Lemma windows_of i j :
  1 <= i <= n -> 1 <= j <= m - 6 ->
  filter (fun c => ct_lhs c = window_sum i j) (all_cts n m s t competency)
  = [window_max i j; window_min i j].
Proof.
  intros Hi Hj. rewrite all_cts_split, !filter_app.
  rewrite (filter_none _ (before_windows n m s t)), (filter_none _ (after_windows _ _ _ _ _)).
  2:{ intros c Hc. by apply (shape_not_window n m s t competency),
        after_windows_shape. }
  2:{ intros c Hc. by apply (shape_not_window n m s t competency),
        before_windows_shape. }
  rewrite app_nil_r. cbn [app]. unfold cts_19. rewrite filter_bind.
  rewrite (bind_only _ _ i);
    [|apply NoDup_list_range|by apply elem_of_list_range|].
  - rewrite filter_bind.
    rewrite (bind_only _ _ j);
      [|apply NoDup_list_range|by apply elem_of_list_range|].
    + by rewrite !filter_cons_True by done.
    + intros j' _ Hne. rewrite !filter_cons_False; [done|..];
        cbn [ct_lhs window_max window_min];
        by intros [_ ?]%window_sum_inj.
  - intros i' _ Hne. rewrite filter_bind. apply bind_all_nil.
    intros j' _. rewrite !filter_cons_False; [done|..];
      cbn [ct_lhs window_max window_min];
      by intros [? _]%window_sum_inj.
Qed.

Lemma windows_in_range c i j :
  c ∈ all_cts n m s t competency -> ct_lhs c = window_sum i j ->
  1 <= i <= n /\ 1 <= j <= m - 6.
Proof.
  intros [Hshape|(i' & j' & Hi & Hj & Hc)]%all_cts_inv Heq.
  - by apply shape_not_window with (i := i) (j := j) in Hshape.
  - destruct Hc as [-> | ->]; cbn [ct_lhs window_max window_min] in Heq;
      apply window_sum_inj in Heq as [-> ->]; done.
Qed.

End Windows.

(** C6. With a person and a day to plan, for every person [i] of [1, n]
    and start day [j] of [1, m−6], the constraints of the model over the
    sum [h(i,j) + … + h(i,j+6)] are exactly two, that the sum is at most 2
    and that it is at least 1, and the model has a constraint over such a
    sum for no other [i] and [j]. *)
Theorem rolling_leave_windows n m s t competency :
  1 <= n -> 1 <= m -> 7 <= s -> 2 <= t -> covers competency n = true ->
  exists env mdl,
    build n m s t competency empty_model = Ok (env, mdl) /\
    (forall i j, 1 <= i <= n -> 1 <= j <= m - 6 ->
       map (fun c => (ct_lhs c, ct_sense c, ct_rhs c))
         (filter (fun c => ct_lhs c = window_sum i j) (constraints mdl))
       = [(window_sum i j, LE, of_num 2); (window_sum i j, GE, of_num 1)]) /\
    (forall c i j, c ∈ constraints mdl -> ct_lhs c = window_sum i j ->
       1 <= i <= n /\ 1 <= j <= m - 6).
Proof.
  intros Hn Hm Hs Ht Hc. eexists _, _. split; [by apply build_ok|].
  cbn [constraints built_model]. split.
  - intros i j Hi Hj. by rewrite windows_of.
  - intros c i j. apply windows_in_range.
Qed.

Lemma rolling_leave_windows_witness :
  1 <= 80 /\ 1 <= 30 /\ 7 <= 7 /\ 2 <= 2 /\
  covers (uniform_competency 80 1) 80 = true /\
  exists env mdl,
    build 80 30 7 2 (uniform_competency 80 1) empty_model = Ok (env, mdl) /\
    (forall i j, 1 <= i <= 80 -> 1 <= j <= 30 - 6 ->
       map (fun c => (ct_lhs c, ct_sense c, ct_rhs c))
         (filter (fun c => ct_lhs c = window_sum i j) (constraints mdl))
       = [(window_sum i j, LE, of_num 2); (window_sum i j, GE, of_num 1)]) /\
    (forall c i j, c ∈ constraints mdl -> ct_lhs c = window_sum i j ->
       1 <= i <= 80 /\ 1 <= j <= 30 - 6).
Proof.
  split; [lia|]. split; [lia|]. split; [lia|]. split; [lia|].
  split; [by vm_compute|].
  apply rolling_leave_windows; [lia|lia|lia|lia|by vm_compute].
Defined.

(** ** Coefficients of the objective *)

Section ObjectiveCoefficients.

Variables n m t : Z.

Lemma both_directions_vars g w :
  w ∈ expr_vars (both_directions n m g) ->
  exists over i j, w = var_of (FamD over g) [i; j].
Proof.
  intros Hw.
  assert (Forall (fun w => exists over i j, w = var_of (FamD over g) [i; j])
            (expr_vars (both_directions n m g))) as Hall.
  { apply Forall_vars_msum. intros [i j]. rewrite expr_vars_eadd.
    apply Forall_app; split; apply Forall_of_var; eauto. }
  rewrite Forall_forall in Hall. by apply Hall.
Qed.

Lemma both_directions_3_vars w :
  w ∈ expr_vars (both_directions_3 n) ->
  exists over i, w = var_of (FamD over 3) [i].
Proof.
  intros Hw.
  assert (Forall (fun w => exists over i, w = var_of (FamD over 3) [i])
            (expr_vars (both_directions_3 n))) as Hall.
  { apply Forall_vars_msum. intros i. rewrite expr_vars_eadd.
    apply Forall_app; split; apply Forall_of_var; eauto. }
  rewrite Forall_forall in Hall. by apply Hall.
Qed.

Lemma over_only_vars g w :
  w ∈ expr_vars (over_only m t g) ->
  exists j l, w = var_of (FamD true g) [j; l].
Proof.
  intros Hw.
  assert (Forall (fun w => exists j l, w = var_of (FamD true g) [j; l])
            (expr_vars (over_only m t g))) as Hall.
  { apply Forall_vars_msum. intros [j l]. apply Forall_of_var. eauto. }
  rewrite Forall_forall in Hall. by apply Hall.
Qed.

Lemma both_directions_coef g over i j :
  g <> 3 -> 1 <= i <= n -> 1 <= j <= m ->
  coef (both_directions n m g) (var_of (FamD over g) [i; j]) = 1.
Proof.
  intros Hg Hi Hj. unfold both_directions.
  assert (forall o, length [i; j] = arity (FamD o g)) as Hlen
    by (intros o; cbn; by rewrite decide_False).
  rewrite (coef_msum_only _ _ (i, j)).
  - rewrite coef_eadd. unfold coef, coef_terms, of_var, terms, d_neg, d_pos.
    destruct over.
    + rewrite decide_False, decide_True; [done..|].
      by intros [[=] _]%var_of_inj.
    + rewrite decide_True, decide_False; [done| |done].
      by intros [[=] _]%var_of_inj.
  - apply NoDup_pairs; apply NoDup_list_range.
  - apply elem_of_pairs. by rewrite !elem_of_list_range.
  - intros [i' j'] _ Hne. rewrite expr_vars_eadd. cbn.
    rewrite !elem_of_cons.
    intros [Heq|[Heq|Hnil]]; [| |by apply elem_of_nil in Hnil];
      apply var_of_inj in Heq as [_ [= -> ->]]; try done;
      cbn; by rewrite decide_False.
Qed.

Lemma both_directions_other g over g' i j :
  g <> g' -> g <> 3 -> g' <> 3 ->
  coef (both_directions n m g') (var_of (FamD over g) [i; j]) = 0.
Proof.
  intros Hne Hg Hg'. apply coef_not_in.
  intros (over' & i' & j' & Heq)%both_directions_vars.
  apply var_of_inj in Heq as [[=] _]; [done|..];
    cbn; by rewrite decide_False.
Qed.

Lemma both_directions_3_other g over i j :
  g <> 3 -> coef (both_directions_3 n) (var_of (FamD over g) [i; j]) = 0.
Proof.
  intros Hg. apply coef_not_in.
  intros (over' & i' & Heq)%both_directions_3_vars.
  apply var_of_inj in Heq as [[=] _]; [done|..];
    cbn; [by rewrite decide_False|done].
Qed.

Lemma over_only_other g over g' i j :
  g <> g' -> g <> 3 -> g' <> 3 ->
  coef (over_only m t g') (var_of (FamD over g) [i; j]) = 0.
Proof.
  intros Hne Hg Hg'. apply coef_not_in.
  intros (j' & l' & Heq)%over_only_vars.
  apply var_of_inj in Heq as [[=] _]; [done|..];
    cbn; by rewrite decide_False.
Qed.

Lemma objective_coef_goal_1_2 g over i j :
  g = 1 \/ g = 2 -> 1 <= i <= n -> 1 <= j <= m ->
  coef (spec_objective n m t) (var_of (FamD over g) [i; j]) = 1.
Proof.
  intros Hg Hi Hj. unfold spec_objective. rewrite !coef_eadd.
  rewrite both_directions_3_other by lia.
  rewrite !over_only_other by lia.
  destruct Hg as [-> | ->].
  - rewrite both_directions_coef, (both_directions_other 1 _ 2) by lia. done.
  - rewrite both_directions_coef, (both_directions_other 2 _ 1) by lia. done.
Qed.

End ObjectiveCoefficients.

(** ** Deviations of goals 1 and 2 at the last two days (C10) *)

Lemma matrix_vars_member keys1 keys2 name a b :
  a ∈ keys1 -> b ∈ keys2 -> dev_var name [a; b] ∈ matrix_vars keys1 keys2 name.
Proof.
  intros Ha Hb. rewrite matrix_vars_eq.
  apply list_elem_of_fmap. exists (a, b). split; [done|]. by apply elem_of_pairs.
Qed.

Lemma goal_deviation_declared n m s t g over i j :
  g = 1 \/ g = 2 -> 1 <= i <= n -> 1 <= j <= m ->
  var_of (FamD over g) [i; j] ∈ declared_variables n m s t.
Proof.
  intros Hg Hi Hj.
  assert (i ∈ range 1 (n + 1)) as Hiin by (apply elem_of_range; lia).
  assert (j ∈ range 1 (m + 1)) as Hjin by (apply elem_of_range; lia).
  unfold declared_variables. rewrite !elem_of_app.
  destruct Hg as [-> | ->], over.
  - do 3 right. left. by apply (matrix_vars_member _ _ "d_pos_1").
  - do 2 right. left. by apply (matrix_vars_member _ _ "d_neg_1").
  - do 5 right. left. by apply (matrix_vars_member _ _ "d_pos_2").
  - do 4 right. left. by apply (matrix_vars_member _ _ "d_neg_2").
Qed.

Lemma goal_deviation_constrained m g over i j :
  g = 1 \/ g = 2 ->
  constrained m (var_of (FamD over g) [i; j]) -> 1 <= j <= m - 2.
Proof.
  intros Hg [HX|[Hh|(over' & g' & key & Heq & Hlen & Hkey)]].
  - exfalso. apply (deviation_not_assignment (var_of (FamD over g) [i; j]));
      [|done]. exists over, g, [i; j]. split; [|done].
    by destruct Hg as [-> | ->].
  - exfalso. apply (deviation_not_leave (var_of (FamD over g) [i; j]));
      [|done]. exists over, g, [i; j]. split; [|done].
    by destruct Hg as [-> | ->].
  - apply var_of_inj in Heq as [[= <- <-] <-];
      [|by destruct Hg as [-> | ->]|done].
    destruct (Hkey Hg) as (i' & j' & [= <- <-] & Hj). done.
Qed.

(** C10. With a person and a day to plan, the deviation pairs of goals 1
    and 2 exist for every person and every day of [1, m], while every
    constraint that mentions one of them does so at a day of [1, m−2].
    Hence the deviations of the days [m−1] and [m] have coefficient one in
    the objective and occur in no constraint. *)
Theorem dangling_goal_deviations n m s t competency :
  1 <= n -> 1 <= m -> 7 <= s -> 2 <= t -> covers competency n = true ->
  exists env mdl obj,
    build n m s t competency empty_model = Ok (env, mdl) /\
    objective mdl = Some obj /\
    (forall g over i j, g = 1 \/ g = 2 -> 1 <= i <= n -> 1 <= j <= m ->
       var_of (FamD over g) [i; j] ∈ variables mdl) /\
    (forall g over i j c, g = 1 \/ g = 2 -> c ∈ constraints mdl ->
       var_of (FamD over g) [i; j] ∈ ct_vars c -> 1 <= j <= m - 2) /\
    (forall g over i j, g = 1 \/ g = 2 -> 1 <= i <= n -> 1 <= j <= m ->
       m - 2 < j ->
       coef obj (var_of (FamD over g) [i; j]) = 1 /\
       forall c, c ∈ constraints mdl -> var_of (FamD over g) [i; j] ∉ ct_vars c).
Proof.
  intros Hn Hm Hs Ht Hc. eexists _, _, _. split; [by apply build_ok|].
  cbn [objective variables constraints built_model]. split; [done|].
  assert (forall g over i j c, g = 1 \/ g = 2 ->
            c ∈ all_cts n m s t competency ->
            var_of (FamD over g) [i; j] ∈ ct_vars c -> 1 <= j <= m - 2) as Href.
  { intros g over i j c Hg Hin Hv.
    apply all_cts_constrained in Hin. rewrite Forall_forall in Hin.
    by eapply goal_deviation_constrained, Hin. }
  split; [|split; [done|]].
  - intros g over i j Hg Hi Hj. by apply goal_deviation_declared.
  - intros g over i j Hg Hi Hj Hlast. split.
    + by apply objective_coef_goal_1_2.
    + intros c Hin Hv. specialize (Href g over i j c Hg Hin Hv). lia.
Qed.

Lemma dangling_goal_deviations_witness :
  1 <= 80 /\ 1 <= 30 /\ 7 <= 7 /\ 2 <= 2 /\
  covers (uniform_competency 80 1) 80 = true /\
  exists env mdl obj,
    build 80 30 7 2 (uniform_competency 80 1) empty_model = Ok (env, mdl) /\
    objective mdl = Some obj /\
    (forall g over i j, g = 1 \/ g = 2 -> 1 <= i <= 80 -> 1 <= j <= 30 ->
       var_of (FamD over g) [i; j] ∈ variables mdl) /\
    (forall g over i j c, g = 1 \/ g = 2 -> c ∈ constraints mdl ->
       var_of (FamD over g) [i; j] ∈ ct_vars c -> 1 <= j <= 30 - 2) /\
    (forall g over i j, g = 1 \/ g = 2 -> 1 <= i <= 80 -> 1 <= j <= 30 ->
       30 - 2 < j ->
       coef obj (var_of (FamD over g) [i; j]) = 1 /\
       forall c, c ∈ constraints mdl -> var_of (FamD over g) [i; j] ∉ ct_vars c).
Proof.
  split; [lia|]. split; [lia|]. split; [lia|]. split; [lia|].
  split; [by vm_compute|].
  apply dangling_goal_deviations; [lia|lia|lia|lia|by vm_compute].
Defined.

(** ** Coverage (C1) *)

Section Coverage.

Variables n m s t : Z.
Variable competency : gmap Z (gmap Z Z).
Hypothesis persons : 1 <= n.

Lemma headcount_head j k l :
  exists rest, expr_vars (headcount n j k l) = X_var 1 j k l :: rest.
Proof.
  rewrite headcount_vars, list_range_cons by done. cbn [map]. by eexists.
Qed.

Lemma headcount_section j k l j' k' l' :
  headcount n j k l = headcount n j' k' l' -> k = k'.
Proof.
  intros Heq.
  destruct (headcount_head j k l) as [rest Hhead].
  destruct (headcount_head j' k' l') as [rest' Hhead'].
  rewrite Heq, Hhead' in Hhead.
  apply (f_equal (hd (h_var 0 0))) in Hhead. cbn [hd] in Hhead.
  apply X_var_inj in Hhead. by destruct Hhead as (_ & _ & -> & _).
Qed.

Lemma shape_not_headcount_4 c j l :
  shape n m s t competency c -> ct_sense c = EQ ->
  ct_lhs c <> headcount n j 4 l.
Proof.
  intros Hshape Hsense Heq.
  destruct (shape_lhs_vars n m s t competency c Hshape)
    as [[_ Hhead]|(v & Hv & Hdev)].
  - destruct (Hhead Hsense) as (j' & k' & l' & Hk & Heq').
    rewrite Heq' in Heq. by apply headcount_section in Heq.
  - rewrite Heq in Hv.
    pose proof (headcount_assignment n j 4 l) as Hall.
    rewrite Forall_forall in Hall.
    by apply (deviation_not_assignment v), Hall.
Qed.

Lemma no_section_4_headcount c j l :
  c ∈ all_cts n m s t competency -> ct_sense c = EQ ->
  ct_lhs c <> headcount n j 4 l.
Proof.
  intros [Hshape|(i' & j' & _ & _ & Hw)]%all_cts_inv Hsense.
  - by apply shape_not_headcount_4.
  - by destruct Hw as [-> | ->].
Qed.

End Coverage.

Lemma coverage_row_of k :
  1 <= k <= 7 -> k <> 4 ->
  exists label, (k, requirement k, label) ∈ coverage_rows.
Proof.
  intros Hk Hne.
  assert (k = 1 \/ k = 2 \/ k = 3 \/ k = 5 \/ k = 6 \/ k = 7)
    as [->|[->|[->|[->|[->| ->]]]]] by lia;
    eexists; unfold coverage_rows; rewrite !elem_of_cons;
    repeat first [left; reflexivity | right].
Qed.

(** C1 (what the code does).  The cell of equation 9, labelled as the
    requirement of section 4, sums the assignment variables of section 3:
    with a person and a day to plan, for every day and shift the model
    holds [Σ_i X(i,j,3,l) = 4] under the label of section 4, and no
    equality of the model has [Σ_i X(i,j,4,l)] as its left-hand side.  For
    the six other sections the coverage constraint is the one of the
    requirement table. *)
Theorem section_4_coverage_sums_section_3 n m s t competency :
  1 <= n -> 1 <= m -> 7 <= s -> 2 <= t -> covers competency n = true ->
  exists env mdl,
    build n m s t competency empty_model = Ok (env, mdl) /\
    forall j l, 1 <= j <= m -> 1 <= l <= t ->
      mkCt (headcount n j 3 l) EQ (of_num 4)
        ("Equation_9_Personnel_Requirement_Section_4"
           +:+ "_Day_" +:+ str j +:+ "_Shift_" +:+ str l)
        ∈ constraints mdl /\
      (forall c, c ∈ constraints mdl -> ct_sense c = EQ ->
         ct_lhs c <> headcount n j 4 l) /\
      (forall k, 1 <= k <= 7 -> k <> 4 ->
         exists c, c ∈ constraints mdl /\
           ct_lhs c = headcount n j k l /\ ct_sense c = EQ /\
           ct_rhs c = of_num (requirement k)).
Proof.
  intros Hn Hm Hs Ht Hc. eexists _, _. split; [by apply build_ok|].
  cbn [constraints built_model]. intros j l Hj Hl. split; [|split].
  - eapply coverage_rows_model; [|by apply coverage_cts_member].
    unfold coverage_rows. rewrite !elem_of_cons. do 3 right. by left.
  - intros c Hin Hsense. by apply (no_section_4_headcount n m s t competency).
  - intros k Hk Hne. destruct (coverage_row_of k Hk Hne) as [label Hrow].
    eexists. split.
    + eapply coverage_rows_model; [exact Hrow|by apply coverage_cts_member].
    + done.
Qed.

Lemma section_4_coverage_sums_section_3_witness :
  1 <= 80 /\ 1 <= 30 /\ 7 <= 7 /\ 2 <= 2 /\
  covers (uniform_competency 80 1) 80 = true /\
  exists env mdl,
    build 80 30 7 2 (uniform_competency 80 1) empty_model = Ok (env, mdl) /\
    forall j l, 1 <= j <= 30 -> 1 <= l <= 2 ->
      mkCt (headcount 80 j 3 l) EQ (of_num 4)
        ("Equation_9_Personnel_Requirement_Section_4"
           +:+ "_Day_" +:+ str j +:+ "_Shift_" +:+ str l)
        ∈ constraints mdl /\
      (forall c, c ∈ constraints mdl -> ct_sense c = EQ ->
         ct_lhs c <> headcount 80 j 4 l) /\
      (forall k, 1 <= k <= 7 -> k <> 4 ->
         exists c, c ∈ constraints mdl /\
           ct_lhs c = headcount 80 j k l /\ ct_sense c = EQ /\
           ct_rhs c = of_num (requirement k)).
Proof.
  split; [lia|]. split; [lia|]. split; [lia|]. split; [lia|].
  split; [by vm_compute|].
  apply section_4_coverage_sums_section_3; [lia|lia|lia|lia|by vm_compute].
Defined.

(** ** One variable per declared tuple, one name per variable *)

Lemma NoDup_fst_unique {A B} (l : list (A * B)) x y1 y2 :
  NoDup (l.*1) -> (x, y1) ∈ l -> (x, y2) ∈ l -> y1 = y2.
Proof.
  induction l as [|[a b] l IH]; intros Hnd H1 H2.
  - by apply elem_of_nil in H1.
  - cbn in Hnd. apply NoDup_cons in Hnd as [Hnin Hnd].
    assert (forall y, (a, y) ∈ l -> False) as Hfresh.
    { intros y Hy. apply Hnin, list_elem_of_fmap. by exists (a, y). }
    apply elem_of_cons in H1 as [H1|H1]; apply elem_of_cons in H2 as [H2|H2].
    + congruence.
    + injection H1 as -> ->. by destruct (Hfresh y2).
    + injection H2 as -> ->. by destruct (Hfresh y1).
    + by apply IH.
Qed.

Lemma NoDup_tagged {T K} (groups : list (T * list K)) :
  NoDup (groups.*1) -> Forall (fun g => NoDup g.2) groups ->
  NoDup (g ← groups; map (fun key => (g.1, key)) g.2).
Proof.
  intros Htags Hkeys. apply NoDup_bind.
  - intros [t1 ks1] [t2 ks2] [ty ky] H1 H2.
    intros (? & [= -> _] & _)%list_elem_of_fmap (? & [= -> _] & _)%list_elem_of_fmap.
    cbn in *. f_equal. by eapply NoDup_fst_unique.
  - intros [tg ks] Hin. rewrite Forall_forall in Hkeys.
    apply (NoDup_fmap_2 _). by apply (Hkeys (tg, ks)).
  - by apply NoDup_fmap_1 in Htags.
Qed.

Lemma NoDup_pair_keys keys1 keys2 :
  NoDup keys1 -> NoDup keys2 -> NoDup (pair_keys keys1 keys2).
Proof.
  intros H1 H2. unfold pair_keys. apply NoDup_fmap_2_strong.
  - by intros [a b] [a' b'] _ _ [= -> ->].
  - by apply NoDup_pairs.
Qed.

Lemma NoDup_single_keys keys : NoDup keys -> NoDup (single_keys keys).
Proof.
  intros Hk. unfold single_keys. apply NoDup_fmap_2_strong; [|done].
  by intros a a' _ _ [= ->].
Qed.

Lemma length_pair_keys keys1 keys2 key :
  key ∈ pair_keys keys1 keys2 -> length key = 2%nat.
Proof. by intros ([a b] & -> & _)%list_elem_of_fmap. Qed.

Lemma length_single_keys keys key :
  key ∈ single_keys keys -> length key = 1%nat.
Proof. by intros (a & -> & _)%list_elem_of_fmap. Qed.

Lemma matrix_vars_family keys1 keys2 name f :
  dev_var name = var_of f ->
  matrix_vars keys1 keys2 name = map (var_of f) (pair_keys keys1 keys2).
Proof.
  intros Hname. rewrite matrix_vars_eq, Hname. unfold pair_keys.
  by rewrite map_map.
Qed.

Lemma list_vars_family keys name f :
  dev_var name = var_of f ->
  list_vars keys name = map (var_of f) (single_keys keys).
Proof.
  intros Hname. unfold list_vars, single_keys. by rewrite Hname, map_map.
Qed.

Section Distinct.

Variables n m s t : Z.

Lemma declared_variables_tagged :
  declared_variables n m s t
  = map (fun p => var_of p.1 p.2) (declared_tagged n m s t).
Proof.
  unfold declared_tagged, declared_tuples, declared_variables.
  rewrite !bind_cons. change ([] ≫= _) with (@nil (family * list Z)).
  rewrite app_nil_r, !map_app, !map_map. cbn [fst snd].
  repeat match goal with
  | |- _ ++ _ = _ ++ _ => f_equal
  end;
  first
    [ by apply matrix_vars_family
    | by apply list_vars_family
    | rewrite map_map; apply map_ext; intros [[[i j] k] l]; apply X_var_of
    | rewrite map_map; apply map_ext; intros [i j]; apply h_var_of ].
Qed.

Lemma declared_tags_distinct : NoDup ((declared_tuples n m s t).*1).
Proof.
  apply (bool_decide_unpack _). by vm_compute.
Qed.

Lemma declared_tuples_distinct :
  Forall (fun g => NoDup g.2) (declared_tuples n m s t).
Proof.
  unfold declared_tuples.
  repeat (apply Forall_cons; split); try (by apply Forall_nil); cbn [snd];
    first
      [ apply NoDup_pair_keys; apply NoDup_range
      | apply NoDup_single_keys; apply NoDup_range
      | apply NoDup_fmap_2_strong; [|apply NoDup_X_keys];
        by intros [[[i j] k] l] [[[i' j'] k'] l'] _ _ [= -> -> -> ->]
      | apply NoDup_fmap_2_strong; [|apply NoDup_h_keys];
        by intros [i j] [i' j'] _ _ [= -> ->] ].
Qed.

Lemma declared_tagged_arity f key :
  (f, key) ∈ declared_tagged n m s t -> length key = arity f.
Proof.
  unfold declared_tagged, declared_tuples.
  rewrite !bind_cons. change ([] ≫= _) with (@nil (family * list Z)).
  rewrite app_nil_r, !elem_of_app. cbn [fst snd].
  intros H.
  repeat match type of H with
  | _ \/ _ => destruct H as [H|H]
  end;
  apply list_elem_of_fmap in H as (key' & [= -> ->] & Hkey);
  first
    [ by apply length_pair_keys in Hkey
    | by apply length_single_keys in Hkey
    | by apply list_elem_of_fmap in Hkey as ([[[i j] k] l] & -> & _)
    | by apply list_elem_of_fmap in Hkey as ([i j] & -> & _) ].
Qed.

Lemma declared_tagged_distinct : NoDup (declared_tagged n m s t).
Proof.
  apply NoDup_tagged;
    [apply declared_tags_distinct|apply declared_tuples_distinct].
Qed.

End Distinct.

(** No two variables of the model have the same name: with a person, a
    day and a shift to plan, the declaration cells create one variable per
    declared (family, index tuple), and the names of different tuples
    differ. *)
Theorem model_names_distinct n m s t :
  1 <= n -> 1 <= m -> 1 <= t ->
  exists env mdl,
    declare_variables n m s t empty_model = Ok (env, mdl) /\
    NoDup (map var_name (variables mdl)) /\
    variables mdl = map (fun p => var_of p.1 p.2) (declared_tagged n m s t) /\
    NoDup (declared_tagged n m s t).
Proof.
  intros Hn Hm Ht. eexists _, _. split; [by apply declare_variables_eq|].
  cbn [variables empty_model app].
  split; [|split; [apply declared_variables_tagged|apply declared_tagged_distinct]].
  rewrite declared_variables_tagged, map_map.
  apply NoDup_fmap_2_strong; [|apply declared_tagged_distinct].
  intros [f key] [f' key'] Hin Hin' Heq. cbn in Heq.
  apply declared_tagged_arity in Hin, Hin'.
  apply encode_inj in Heq as [-> ->]; done.
Qed.

Lemma model_names_distinct_witness :
  1 <= 80 /\ 1 <= 30 /\ 1 <= 2 /\
  exists env mdl,
    declare_variables 80 30 7 2 empty_model = Ok (env, mdl) /\
    NoDup (map var_name (variables mdl)) /\
    variables mdl = map (fun p => var_of p.1 p.2) (declared_tagged 80 30 7 2) /\
    NoDup (declared_tagged 80 30 7 2).
Proof.
  split; [lia|]. split; [lia|]. split; [lia|].
  apply model_names_distinct; lia.
Defined.

(** ** Fewer than seven sections *)

Section FewSections.

Variables n m s t : Z.
Hypothesis persons : 1 <= n.
Hypothesis days : 1 <= m.
Hypothesis shifts : 1 <= t.
Abbreviation env := (declared_env n m s t).

(** A coverage cell for a section that was not declared raises on the
    first variable it looks up. *)
Lemma coverage_cell_raises k req label :
  s < k -> raises (coverage_cell n m t env k req label) KeyError.
Proof.
  intros Hk. unfold coverage_cell.
  rewrite (list_range_cons m), (list_range_cons t) by lia.
  cbn [forM_]. apply raises_seq_l, raises_seq_l, raises_constraint_of.
  unfold model_sum. rewrite (list_range_cons n) by lia. cbn [mapR].
  unfold operand, dict_get. cbn [X declared_env].
  rewrite (lookup_keyed X_entry), decide_False; [done|].
  rewrite elem_of_X_keys. lia.
Qed.

Lemma coverage_cell_step k req label (rest : M unit) :
  1 <= k ->
  (k <= s -> raises rest KeyError) ->
  raises (coverage_cell n m t env k req label ;; rest)%cell KeyError.
Proof.
  intros Hk Hrest. destruct (decide (k <= s)) as [Hle|Hgt].
  - eapply raises_seq_r; [|by apply Hrest].
    apply coverage_cell_adds. lia.
  - apply raises_seq_l, coverage_cell_raises. lia.
Qed.

Lemma hard_constraints_raise :
  s < 7 -> raises (hard_constraints n m s t env) KeyError.
Proof.
  intros Hs. unfold hard_constraints, cell_10, cell_11, cell_12, cell_13,
    cell_14, cell_15, cell_16.
  do 6 (apply coverage_cell_step; [lia|intros ?]).
  apply raises_seq_l, coverage_cell_raises. lia.
Qed.

End FewSections.

(** The coverage cells name the sections 1 to 7 whatever [s] is: with
    fewer than seven sections declared (and a person, a day and a shift to
    iterate over) the notebook raises [KeyError] in a coverage cell and no
    model is built.  This is the case of the dimensions [n = 2], [m = 7],
    [s = 1], [t = 1]. *)
Theorem few_sections_raise n m s t competency :
  1 <= n -> 1 <= m -> 1 <= t -> s < 7 ->
  build n m s t competency empty_model = Raise KeyError /\
  forall solve, solver_calls (run solve n m s t competency) = [].
Proof.
  intros Hn Hm Ht Hs.
  assert (build n m s t competency empty_model = Raise KeyError) as Hrun.
  { unfold build. unfold bind at 1. rewrite declare_variables_eq by lia.
    unfold bind at 1. unfold cell_objective, bind at 1.
    rewrite objective_expr_ok. cbn [lift minimize].
    unfold bind at 1. by rewrite (hard_constraints_raise n m s t). }
  split; [done|]. intros solve. unfold run. by rewrite Hrun.
Qed.

Lemma few_sections_raise_witness :
  1 <= 2 /\ 1 <= 7 /\ 1 <= 1 /\ 1 < 7 /\
  build 2 7 1 1 (uniform_competency 2 1) empty_model = Raise KeyError.
Proof.
  split; [lia|]. split; [lia|]. split; [lia|]. split; [lia|].
  apply (few_sections_raise 2 7 1 1); lia.
Defined.

(** ** The model in closed form *)

(** With a person, a day, seven sections or more, two shifts or more and
    a score for every person and section, every cell runs and the model that reaches the
    solve cell is [built_model]: the declared variables, the constraints of
    the cells in order, and [spec_objective]; the solver is called once, on
    that model. *)
Theorem notebook_reaches_solve n m s t competency :
  1 <= n -> 1 <= m -> 7 <= s -> 2 <= t -> covers competency n = true ->
  build n m s t competency empty_model
    = Ok (declared_env n m s t, built_model n m s t competency) /\
  forall solve,
    solver_calls (run solve n m s t competency)
    = [built_model n m s t competency].
Proof.
  intros Hn Hm Hs Ht Hc.
  pose proof (build_ok n m s t competency Hn Hm Hs Ht Hc) as Hrun.
  split; [done|]. intros solve. unfold run. rewrite Hrun.
  by destruct (solve _).
Qed.

Lemma notebook_reaches_solve_witness :
  1 <= 80 /\ 1 <= 30 /\ 7 <= 7 /\ 2 <= 2 /\
  covers (uniform_competency 80 1) 80 = true /\
  build 80 30 7 2 (uniform_competency 80 1) empty_model
    = Ok (declared_env 80 30 7 2, built_model 80 30 7 2 (uniform_competency 80 1)).
Proof.
  split; [lia|]. split; [lia|]. split; [lia|]. split; [lia|].
  split; [by vm_compute|].
  apply notebook_reaches_solve; [lia|lia|lia|lia|by vm_compute].
Defined.

(** ** The hard constraints of equations 13, 14 and 17 to 21 *)

Section HardMembership.

Variables n m s t : Z.

Lemma cts_17_member i j :
  1 <= i <= n -> 1 <= j <= m ->
  mkCt (day_sum s t i j) LE (of_num 1)
    ("Equation_13_Single_Shift_Per_Day_" +:+ str i +:+ "_" +:+ str j)
  ∈ cts_17 n m s t.
Proof.
  intros Hi Hj. unfold cts_17.
  apply list_elem_of_bind. exists i. split; [|by apply elem_of_list_range].
  apply list_elem_of_bind. exists j. split; [|by apply elem_of_list_range].
  by left.
Qed.

Lemma cts_18_member i j :
  1 <= i <= n -> 1 <= j <= m ->
  mkCt (day_sum s t i j) LE (esub (of_num 1) (of_var (h_var i j)))
    ("Equation_14_No_Work_On_Vacation_" +:+ str i +:+ "_" +:+ str j)
  ∈ cts_18 n m s t.
Proof.
  intros Hi Hj. unfold cts_18.
  apply list_elem_of_bind. exists i. split; [|by apply elem_of_list_range].
  apply list_elem_of_bind. exists j. split; [|by apply elem_of_list_range].
  by left.
Qed.

Lemma cts_20_member i :
  1 <= i <= n ->
  mkCt (shift_sum m s i 1) LE (of_num 12)
    ("Equation_17_Max_Shift_1_Assignments_" +:+ str i) ∈ cts_20 n m s /\
  mkCt (shift_sum m s i 2) LE (of_num 12)
    ("Equation_18_Max_Shift_2_Assignments_" +:+ str i) ∈ cts_20 n m s.
Proof.
  intros Hi. unfold cts_20.
  split; apply list_elem_of_bind; exists i;
    (split; [|by apply elem_of_list_range]).
  - by left.
  - right. by left.
Qed.

Lemma cts_21_member i :
  1 <= i <= n ->
  mkCt (shift_sum m s i 1) GE (of_num 10)
    ("Equation_19_Min_Shift_1_Assignments_" +:+ str i) ∈ cts_21 n m s /\
  mkCt (shift_sum m s i 2) GE (of_num 10)
    ("Equation_20_Min_Shift_2_Assignments_" +:+ str i) ∈ cts_21 n m s.
Proof.
  intros Hi. unfold cts_21.
  split; apply list_elem_of_bind; exists i;
    (split; [|by apply elem_of_list_range]).
  - by left.
  - right. by left.
Qed.

Lemma cts_22_member i j :
  1 <= i <= n -> 1 <= j <= m - 1 ->
  mkCt (eadd (sections_sum s i j 2) (sections_sum s i (j + 1) 1)) LE (of_num 1)
    ("Equation_21_No_Night_To_Morning_Consecutive_Shift_"
       +:+ str i +:+ "_" +:+ str j)
  ∈ cts_22 n m s.
Proof.
  intros Hi Hj. unfold cts_22.
  apply list_elem_of_bind. exists i. split; [|by apply elem_of_list_range].
  apply list_elem_of_bind. exists j. split; [|by apply elem_of_list_range].
  by left.
Qed.

Lemma cts_23_member i j :
  1 <= i <= n -> 1 <= j <= m - 2 ->
  mkCt (goal_1_lhs s t i j) EQ (of_num 2)
    ("Goal_Constraint_Equation_22_" +:+ str i +:+ "_" +:+ str j)
  ∈ cts_23 n m s t.
Proof.
  intros Hi Hj. unfold cts_23.
  apply list_elem_of_bind. exists i. split; [|by apply elem_of_list_range].
  apply list_elem_of_bind. exists j. split; [|by apply elem_of_list_range].
  by left.
Qed.

Lemma cts_25_member i :
  1 <= i <= n ->
  mkCt (goal_3_lhs m s t i) EQ (of_num 22)
    ("Goal_Constraint_Equation_24_" +:+ str i)
  ∈ cts_25 n m s t.
Proof.
  intros Hi. unfold cts_25.
  apply list_elem_of_bind. exists i. split; [|by apply elem_of_list_range].
  by left.
Qed.

(** Where each cell's constraints sit in the list of hard constraints. *)
Lemma hard_cts_cells c :
  c ∈ cts_17 n m s t \/ c ∈ cts_18 n m s t \/ c ∈ cts_19 n m \/
  c ∈ cts_20 n m s \/ c ∈ cts_21 n m s \/ c ∈ cts_22 n m s ->
  c ∈ hard_cts n m s t.
Proof.
  unfold hard_cts. intros H. do 7 (apply elem_of_app; right).
  destruct H as [H|[H|[H|[H|[H|H]]]]].
  - apply elem_of_app. by left.
  - do 1 (apply elem_of_app; right). apply elem_of_app. by left.
  - do 2 (apply elem_of_app; right). apply elem_of_app. by left.
  - do 3 (apply elem_of_app; right). apply elem_of_app. by left.
  - do 4 (apply elem_of_app; right). apply elem_of_app. by left.
  - by do 5 (apply elem_of_app; right).
Qed.

(** The same for the goal constraints of equations 22 to 24. *)
Lemma goal_cts_cells competency c :
  c ∈ cts_23 n m s t \/ c ∈ cts_24 n m s t \/ c ∈ cts_25 n m s t ->
  c ∈ goal_cts n m s t competency.
Proof.
  unfold goal_cts. intros [H|[H|H]].
  - apply elem_of_app. by left.
  - apply elem_of_app. right. apply elem_of_app. by left.
  - do 2 (apply elem_of_app; right). apply elem_of_app. by left.
Qed.

End HardMembership.

(** For every person and day the model holds the two inequalities of
    equations 13 and 14 over the same sum [Σ_{k,l} X(i,j,k,l)]: at most
    [1], and at most [1 − h(i,j)].
    The dimensions are those with which the notebook builds a model: a
    person, a day, seven sections, two shifts, and a score for every
    person and section. *)
Theorem one_shift_and_leave_constraints n m s t competency :
  1 <= n -> 1 <= m -> 7 <= s -> 2 <= t -> covers competency n = true ->
  exists env mdl,
    build n m s t competency empty_model = Ok (env, mdl) /\
    forall i j, 1 <= i <= n -> 1 <= j <= m ->
      mkCt (day_sum s t i j) LE (of_num 1)
        ("Equation_13_Single_Shift_Per_Day_" +:+ str i +:+ "_" +:+ str j)
        ∈ constraints mdl /\
      mkCt (day_sum s t i j) LE (of_num 1 ⊖ of_var (h_var i j))%expr
        ("Equation_14_No_Work_On_Vacation_" +:+ str i +:+ "_" +:+ str j)
        ∈ constraints mdl.
Proof.
  intros Hn Hm Hs Ht Hc. eexists _, _. split; [by apply build_ok|].
  intros i j Hi Hj. cbn [constraints built_model].
  split; apply hard_cts_all, hard_cts_cells.
  - left. by apply cts_17_member.
  - right. left. by apply cts_18_member.
Qed.

Lemma one_shift_and_leave_constraints_witness :
  1 <= 80 /\ 1 <= 30 /\ 7 <= 7 /\ 2 <= 2 /\
  covers (uniform_competency 80 1) 80 = true /\
  exists env mdl,
    build 80 30 7 2 (uniform_competency 80 1) empty_model = Ok (env, mdl) /\
    forall i j, 1 <= i <= 80 -> 1 <= j <= 30 ->
      mkCt (day_sum 7 2 i j) LE (of_num 1)
        ("Equation_13_Single_Shift_Per_Day_" +:+ str i +:+ "_" +:+ str j)
        ∈ constraints mdl /\
      mkCt (day_sum 7 2 i j) LE (of_num 1 ⊖ of_var (h_var i j))%expr
        ("Equation_14_No_Work_On_Vacation_" +:+ str i +:+ "_" +:+ str j)
        ∈ constraints mdl.
Proof.
  split; [lia|]. split; [lia|]. split; [lia|]. split; [lia|].
  split; [by vm_compute|].
  apply one_shift_and_leave_constraints; [lia|lia|lia|lia|by vm_compute].
Defined.

(** For every person the model holds four bounds on the number of
    assignments per shift, and they are written for the shifts 1 and 2:
    [10 ≤ Σ_{j,k} X(i,j,k,1) ≤ 12] and [10 ≤ Σ_{j,k} X(i,j,k,2) ≤ 12].
    The dimensions are those with which the notebook builds a model: a
    person, a day, seven sections, two shifts, and a score for every
    person and section. *)
Theorem workload_band_constraints n m s t competency :
  1 <= n -> 1 <= m -> 7 <= s -> 2 <= t -> covers competency n = true ->
  exists env mdl,
    build n m s t competency empty_model = Ok (env, mdl) /\
    forall i, 1 <= i <= n ->
      mkCt (shift_sum m s i 1) LE (of_num 12)
        ("Equation_17_Max_Shift_1_Assignments_" +:+ str i) ∈ constraints mdl /\
      mkCt (shift_sum m s i 2) LE (of_num 12)
        ("Equation_18_Max_Shift_2_Assignments_" +:+ str i) ∈ constraints mdl /\
      mkCt (shift_sum m s i 1) GE (of_num 10)
        ("Equation_19_Min_Shift_1_Assignments_" +:+ str i) ∈ constraints mdl /\
      mkCt (shift_sum m s i 2) GE (of_num 10)
        ("Equation_20_Min_Shift_2_Assignments_" +:+ str i) ∈ constraints mdl.
Proof.
  intros Hn Hm Hs Ht Hc. eexists _, _. split; [by apply build_ok|].
  intros i Hi. cbn [constraints built_model].
  destruct (cts_20_member n m s i Hi) as [H17 H18].
  destruct (cts_21_member n m s i Hi) as [H19 H20].
  repeat split; apply hard_cts_all, (hard_cts_cells n m s t); tauto.
Qed.

Lemma workload_band_constraints_witness :
  1 <= 80 /\ 1 <= 30 /\ 7 <= 7 /\ 2 <= 2 /\
  covers (uniform_competency 80 1) 80 = true /\
  exists env mdl,
    build 80 30 7 2 (uniform_competency 80 1) empty_model = Ok (env, mdl) /\
    forall i, 1 <= i <= 80 ->
      mkCt (shift_sum 30 7 i 1) LE (of_num 12)
        ("Equation_17_Max_Shift_1_Assignments_" +:+ str i) ∈ constraints mdl /\
      mkCt (shift_sum 30 7 i 2) LE (of_num 12)
        ("Equation_18_Max_Shift_2_Assignments_" +:+ str i) ∈ constraints mdl /\
      mkCt (shift_sum 30 7 i 1) GE (of_num 10)
        ("Equation_19_Min_Shift_1_Assignments_" +:+ str i) ∈ constraints mdl /\
      mkCt (shift_sum 30 7 i 2) GE (of_num 10)
        ("Equation_20_Min_Shift_2_Assignments_" +:+ str i) ∈ constraints mdl.
Proof.
  split; [lia|]. split; [lia|]. split; [lia|]. split; [lia|].
  split; [by vm_compute|].
  apply workload_band_constraints; [lia|lia|lia|lia|by vm_compute].
Defined.

(** For every person and every day but the last the model holds
    [Σ_k X(i,j,k,2) + Σ_k X(i,j+1,k,1) ≤ 1]: the night shift of a day and
    the morning shift of the next.
    The dimensions are those with which the notebook builds a model: a
    person, a day, seven sections, two shifts, and a score for every
    person and section. *)
Theorem night_to_morning_constraints n m s t competency :
  1 <= n -> 1 <= m -> 7 <= s -> 2 <= t -> covers competency n = true ->
  exists env mdl,
    build n m s t competency empty_model = Ok (env, mdl) /\
    forall i j, 1 <= i <= n -> 1 <= j <= m - 1 ->
      mkCt (sections_sum s i j 2 ⊕ sections_sum s i (j + 1) 1)%expr
        LE (of_num 1)
        ("Equation_21_No_Night_To_Morning_Consecutive_Shift_"
           +:+ str i +:+ "_" +:+ str j)
        ∈ constraints mdl.
Proof.
  intros Hn Hm Hs Ht Hc. eexists _, _. split; [by apply build_ok|].
  intros i j Hi Hj. cbn [constraints built_model].
  apply hard_cts_all, hard_cts_cells.
  do 5 right. by apply cts_22_member.
Qed.

Lemma night_to_morning_constraints_witness :
  1 <= 80 /\ 1 <= 30 /\ 7 <= 7 /\ 2 <= 2 /\
  covers (uniform_competency 80 1) 80 = true /\
  exists env mdl,
    build 80 30 7 2 (uniform_competency 80 1) empty_model = Ok (env, mdl) /\
    forall i j, 1 <= i <= 80 -> 1 <= j <= 30 - 1 ->
      mkCt (sections_sum 7 i j 2 ⊕ sections_sum 7 i (j + 1) 1)%expr
        LE (of_num 1)
        ("Equation_21_No_Night_To_Morning_Consecutive_Shift_"
           +:+ str i +:+ "_" +:+ str j)
        ∈ constraints mdl.
Proof.
  split; [lia|]. split; [lia|]. split; [lia|]. split; [lia|].
  split; [by vm_compute|].
  apply night_to_morning_constraints; [lia|lia|lia|lia|by vm_compute].
Defined.

(** ** The goal constraints of equations 22 and 24 *)

(** For every person [i] of [1, n] and day [j] of [1, m−2] the model holds
    the equality
    [h(i,j) + Σ_{k,l} X(i,j+1,k,l) + h(i,j+2) + d⁻₁(i,j) − d⁺₁(i,j) = 2].
    The dimensions are those with which the notebook builds a model: a
    person, a day, seven sections, two shifts, and a score for every
    person and section. *)
Theorem goal_1_constraints n m s t competency :
  1 <= n -> 1 <= m -> 7 <= s -> 2 <= t -> covers competency n = true ->
  exists env mdl,
    build n m s t competency empty_model = Ok (env, mdl) /\
    forall i j, 1 <= i <= n -> 1 <= j <= m - 2 ->
      mkCt (of_var (h_var i j)
              ⊕ day_sum s t i (j + 1)
              ⊕ of_var (h_var i (j + 2))
              ⊕ of_var (d_neg 1 [i; j])
              ⊖ of_var (d_pos 1 [i; j]))%expr
        EQ (of_num 2)
        ("Goal_Constraint_Equation_22_" +:+ str i +:+ "_" +:+ str j)
        ∈ constraints mdl.
Proof.
  intros Hn Hm Hs Ht Hc. eexists _, _. split; [by apply build_ok|].
  intros i j Hi Hj. cbn [constraints built_model].
  apply goal_cts_all, goal_cts_cells. left. by apply cts_23_member.
Qed.

Lemma goal_1_constraints_witness :
  1 <= 80 /\ 1 <= 30 /\ 7 <= 7 /\ 2 <= 2 /\
  covers (uniform_competency 80 1) 80 = true /\
  exists env mdl,
    build 80 30 7 2 (uniform_competency 80 1) empty_model = Ok (env, mdl) /\
    forall i j, 1 <= i <= 80 -> 1 <= j <= 30 - 2 ->
      mkCt (of_var (h_var i j)
              ⊕ day_sum 7 2 i (j + 1)
              ⊕ of_var (h_var i (j + 2))
              ⊕ of_var (d_neg 1 [i; j])
              ⊖ of_var (d_pos 1 [i; j]))%expr
        EQ (of_num 2)
        ("Goal_Constraint_Equation_22_" +:+ str i +:+ "_" +:+ str j)
        ∈ constraints mdl.
Proof.
  split; [lia|]. split; [lia|]. split; [lia|]. split; [lia|].
  split; [by vm_compute|].
  apply goal_1_constraints; [lia|lia|lia|lia|by vm_compute].
Defined.

(** The deviations of goal 3 are kept in lists, which Python indexes from
    [0], while the persons are numbered from [1]: the cell of equation 24
    reads position [i − 1].  That position holds the variable docplex named
    after the key [i], so that for every person [i] of [1, n] the model
    holds [Σ_{j,k,l} X(i,j,k,l) + d⁻₃(i) − d⁺₃(i) = 22] with the person's
    own deviations.
    The dimensions are those with which the notebook builds a model: a
    person, a day, seven sections, two shifts, and a score for every
    person and section. *)
Theorem goal_3_constraints n m s t competency :
  1 <= n -> 1 <= m -> 7 <= s -> 2 <= t -> covers competency n = true ->
  exists env mdl,
    build n m s t competency empty_model = Ok (env, mdl) /\
    forall i, 1 <= i <= n ->
      list_get (d_neg_3 env) (i - 1) = Ok (d_neg 3 [i]) /\
      list_get (d_pos_3 env) (i - 1) = Ok (d_pos 3 [i]) /\
      var_name (d_neg 3 [i]) = "d_neg_3_" +:+ str i /\
      var_name (d_pos 3 [i]) = "d_pos_3_" +:+ str i /\
      mkCt (person_sum m s t i ⊕ of_var (d_neg 3 [i]) ⊖ of_var (d_pos 3 [i]))%expr
        EQ (of_num 22)
        ("Goal_Constraint_Equation_24_" +:+ str i)
        ∈ constraints mdl.
Proof.
  intros Hn Hm Hs Ht Hc. eexists _, _. split; [by apply build_ok|].
  intros i Hi. cbn [constraints built_model d_neg_3 d_pos_3 declared_env].
  assert (forall name,
    list_get (list_vars (range 1 (n + 1)) name) (i - 1) = Ok (dev_var name [i]))
    as Hget.
  { intros name. unfold list_get, list_vars.
    rewrite length_map, length_range.
    destruct (Z.ltb_spec (i - 1) 0); [lia|].
    destruct (Z.ltb_spec (i - 1) 0); [lia|].
    rewrite list_lookup_fmap. unfold range.
    rewrite lookup_seqZ_lt by lia. simpl. do 4 f_equal. lia. }
  split; [apply Hget|]. split; [apply Hget|].
  split; [done|]. split; [done|].
  apply goal_cts_all, goal_cts_cells. right. right. by apply cts_25_member.
Qed.

Lemma goal_3_constraints_witness :
  1 <= 80 /\ 1 <= 30 /\ 7 <= 7 /\ 2 <= 2 /\
  covers (uniform_competency 80 1) 80 = true /\
  exists env mdl,
    build 80 30 7 2 (uniform_competency 80 1) empty_model = Ok (env, mdl) /\
    forall i, 1 <= i <= 80 ->
      list_get (d_neg_3 env) (i - 1) = Ok (d_neg 3 [i]) /\
      list_get (d_pos_3 env) (i - 1) = Ok (d_pos 3 [i]) /\
      var_name (d_neg 3 [i]) = "d_neg_3_" +:+ str i /\
      var_name (d_pos 3 [i]) = "d_pos_3_" +:+ str i /\
      mkCt (person_sum 30 7 2 i ⊕ of_var (d_neg 3 [i]) ⊖ of_var (d_pos 3 [i]))%expr
        EQ (of_num 22)
        ("Goal_Constraint_Equation_24_" +:+ str i)
        ∈ constraints mdl.
Proof.
  split; [lia|]. split; [lia|]. split; [lia|]. split; [lia|].
  split; [by vm_compute|].
  apply goal_3_constraints; [lia|lia|lia|lia|by vm_compute].
Defined.

(** ** A single shift *)

Section SingleShift.

Variables n m s : Z.
Hypothesis persons : 1 <= n.
Hypothesis days : 1 <= m.
Hypothesis sections : 7 <= s.
Abbreviation env := (declared_env n m s 1).

(** With one shift declared, the sum over the second shift raises on the
    first variable it looks up. *)
Lemma shift_load_2_raises i : shift_load m s env i 2 = Raise KeyError.
Proof.
  unfold shift_load, model_sum.
  destruct (mapR_raise
    (fun '(j, k) => operand (dict_get (X env) (i, j, k, 2)))
    (j ← list_range m; k ← list_range s; [(j, k)])
    (fun e => e = KeyError)) as (e & -> & ->); [| |done].
  - intros [j k] _. right. exists KeyError. split; [|done].
    unfold operand, dict_get. cbn [X declared_env].
    rewrite (lookup_keyed X_entry), decide_False; [done|].
    rewrite elem_of_X_keys. lia.
  - exists (1, 1). split.
    + apply elem_of_pairs. split; apply elem_of_list_range; lia.
    + exists KeyError.
      unfold operand, dict_get. cbn [X declared_env].
      rewrite (lookup_keyed X_entry), decide_False; [done|].
      rewrite elem_of_X_keys. lia.
Qed.

Lemma cell_20_raises : raises (cell_20 n m s env) KeyError.
Proof.
  unfold cell_20. rewrite (list_range_cons n) by lia. cbn [forM_].
  apply raises_seq_l. eapply raises_seq_r.
  - apply adds_constraint_of. rewrite (shift_load_ok n m s 1) by lia. done.
  - apply raises_constraint_of. by rewrite shift_load_2_raises.
Qed.

Lemma hard_constraints_single_shift :
  raises (hard_constraints n m s 1 env) KeyError.
Proof.
  unfold hard_constraints, cell_10, cell_11, cell_12, cell_13,
    cell_14, cell_15, cell_16.
  do 7 (eapply raises_seq_r; [apply coverage_cell_adds; lia|]).
  eapply raises_seq_r; [apply cell_17_adds|].
  eapply raises_seq_r; [apply cell_18_adds|].
  eapply raises_seq_r; [apply cell_19_adds|].
  apply raises_seq_l, cell_20_raises.
Qed.

End SingleShift.

(** The cells of equations 17 to 21 name the shifts 1 and 2 whatever [t]
    is.  With a single shift declared ([t = 1]), a person, a day and the
    seven sections, the coverage cells and the cells of equations 13 to 16
    run, and the cell of equations 17 and 18 raises [KeyError] on
    [X[i, j, k, 2]]: no model reaches the solver. *)
Theorem single_shift_raises n m s competency :
  1 <= n -> 1 <= m -> 7 <= s ->
  build n m s 1 competency empty_model = Raise KeyError /\
  forall solve, solver_calls (run solve n m s 1 competency) = [].
Proof.
  intros Hn Hm Hs.
  assert (build n m s 1 competency empty_model = Raise KeyError) as Hrun.
  { unfold build. unfold bind at 1. rewrite declare_variables_eq by lia.
    unfold bind at 1. unfold cell_objective, bind at 1.
    rewrite objective_expr_ok. cbn [lift minimize].
    unfold bind at 1. by rewrite (hard_constraints_single_shift n m s). }
  split; [done|]. intros solve. unfold run. by rewrite Hrun.
Qed.

Lemma single_shift_raises_witness :
  1 <= 80 /\ 1 <= 30 /\ 7 <= 7 /\
  build 80 30 7 1 (uniform_competency 80 1) empty_model = Raise KeyError.
Proof.
  split; [lia|]. split; [lia|]. split; [lia|].
  apply (single_shift_raises 80 30 7); lia.
Defined.

(** ** Shifts beyond the second *)

Lemma X_var_in_map {A} (f : A -> Z * Z * Z * Z) (l : list A) i j k l' :
  X_var i j k l' ∈ map (fun x => X_entry (f x)) l ->
  exists x, x ∈ l /\ f x = (i, j, k, l').
Proof.
  intros (x & Heq & Hx)%list_elem_of_fmap. exists x. split; [done|].
  destruct (f x) as [[[i' j'] k'] l'']. cbn [X_entry] in Heq.
  apply X_var_inj in Heq as (-> & -> & -> & ->). done.
Qed.

Section LaterShifts.

Variables n m s t : Z.
Variable competency : gmap Z (gmap Z Z).

Lemma goal_cts_equalities c :
  c ∈ goal_cts n m s t competency -> ct_sense c = EQ.
Proof.
  unfold goal_cts, cts_23, cts_24, cts_25, quality_cts.
  intros Hc. by member_of_cell.
Qed.

Lemma coverage_cts_equalities k req label c :
  c ∈ coverage_cts n m t k req label -> ct_sense c = EQ.
Proof. unfold coverage_cts. intros Hc. by member_of_cell. Qed.

Lemma X_in_day_sum i j k l i' j' :
  X_var i j k l ∈ expr_vars (day_sum s t i' j') -> i = i' /\ j = j'.
Proof.
  rewrite day_sum_vars.
  rewrite (map_ext _ (fun p => X_entry (i', j', p.1, p.2)))
    by (by intros [??]).
  intros ([k' l'] & _ & [= -> -> _ _])%X_var_in_map. done.
Qed.

Lemma X_in_shift_sum i j k l i' l' :
  X_var i j k l ∈ expr_vars (shift_sum m s i' l') -> l = l'.
Proof.
  rewrite shift_sum_vars.
  rewrite (map_ext _ (fun p => X_entry (i', p.1, p.2, l')))
    by (by intros [??]).
  intros ([j' k'] & _ & [= _ _ _ ->])%X_var_in_map. done.
Qed.

Lemma X_in_sections_sum i j k l i' j' l' :
  X_var i j k l ∈ expr_vars (sections_sum s i' j' l') -> l = l'.
Proof.
  rewrite sections_sum_vars.
  rewrite (map_ext _ (fun k' => X_entry (i', j', k', l'))) by done.
  intros (k' & _ & [= _ _ _ ->])%X_var_in_map. done.
Qed.

Lemma X_not_in_window i j k l i' j' :
  X_var i j k l ∉ expr_vars (window_sum i' j').
Proof.
  intros Hin. pose proof (window_sum_leave i' j') as Hall.
  rewrite Forall_forall in Hall.
  eapply assignment_not_leave; [|by apply Hall]. by exists i, j, k, l.
Qed.

(** An inequality of the model that mentions an assignment variable of
    a shift other than 1 and 2 is one of the two over the day sum of the
    variable's person and day. *)
Lemma later_shift_inequalities c i j k l :
  c ∈ all_cts n m s t competency ->
  X_var i j k l ∈ ct_vars c -> l <> 1 -> l <> 2 -> ct_sense c <> EQ ->
  ct_lhs c = day_sum s t i j.
Proof.
  intros Hc Hin Hl1 Hl2 Hne. unfold all_cts in Hc.
  apply elem_of_app in Hc as [Hc|Hc];
    [|by apply goal_cts_equalities in Hc].
  unfold hard_cts in Hc.
  do 7 (apply elem_of_app in Hc as [Hc|Hc];
        [by apply coverage_cts_equalities in Hc|]).
  apply elem_of_app in Hc as [Hc|Hc].
  { unfold cts_17 in Hc. member_of_cell.
    unfold ct_vars in Hin. cbn [ct_lhs ct_rhs] in *.
    apply elem_of_app in Hin as [Hin|Hin]; [|by apply elem_of_nil in Hin].
    apply X_in_day_sum in Hin as [-> ->]. done. }
  apply elem_of_app in Hc as [Hc|Hc].
  { unfold cts_18 in Hc. member_of_cell.
    unfold ct_vars in Hin. cbn [ct_lhs ct_rhs] in *.
    apply elem_of_app in Hin as [Hin|Hin].
    - apply X_in_day_sum in Hin as [-> ->]. done.
    - rewrite expr_vars_esub in Hin. cbn in Hin.
      apply list_elem_of_singleton in Hin.
      exfalso. eapply (assignment_not_leave (X_var i j k l)).
      + by exists i, j, k, l.
      + rewrite Hin. by eexists _, _. }
  apply elem_of_app in Hc as [Hc|Hc].
  { unfold cts_19, window_max, window_min in Hc. member_of_cell;
      unfold ct_vars in Hin; cbn [ct_lhs ct_rhs] in *;
      (apply elem_of_app in Hin as [Hin|Hin]; [|by apply elem_of_nil in Hin]);
      by apply X_not_in_window in Hin. }
  apply elem_of_app in Hc as [Hc|Hc].
  { unfold cts_20 in Hc. member_of_cell;
      unfold ct_vars in Hin; cbn [ct_lhs ct_rhs] in *;
      (apply elem_of_app in Hin as [Hin|Hin]; [|by apply elem_of_nil in Hin]);
      by apply X_in_shift_sum in Hin. }
  apply elem_of_app in Hc as [Hc|Hc].
  { unfold cts_21 in Hc. member_of_cell;
      unfold ct_vars in Hin; cbn [ct_lhs ct_rhs] in *;
      (apply elem_of_app in Hin as [Hin|Hin]; [|by apply elem_of_nil in Hin]);
      by apply X_in_shift_sum in Hin. }
  unfold cts_22 in Hc. member_of_cell.
  unfold ct_vars in Hin. cbn [ct_lhs ct_rhs] in *.
  apply elem_of_app in Hin as [Hin|Hin]; [|by apply elem_of_nil in Hin].
  rewrite expr_vars_eadd in Hin.
  apply elem_of_app in Hin as [Hin|Hin]; by apply X_in_sections_sum in Hin.
Qed.

End LaterShifts.

(** With a person and a day to plan and more than two shifts declared, the
    shifts from the third on are
    left out of the workload bounds and of the night-to-morning
    restriction: the only inequalities of the model that mention
    [X(i,j,k,l)] with [l ≥ 3] are the two of equations 13 and 14 for the
    person [i] and the day [j], and both do mention it. *)
Theorem later_shifts_unrestricted n m s t competency :
  1 <= n -> 1 <= m -> 7 <= s -> 3 <= t -> covers competency n = true ->
  exists env mdl,
    build n m s t competency empty_model = Ok (env, mdl) /\
    forall i j k l,
      1 <= i <= n -> 1 <= j <= m -> 1 <= k <= s -> 3 <= l <= t ->
      X_var i j k l ∈ variables mdl /\
      (forall c, c ∈ constraints mdl -> X_var i j k l ∈ ct_vars c ->
         ct_sense c <> EQ -> ct_lhs c = day_sum s t i j) /\
      X_var i j k l ∈ expr_vars (day_sum s t i j).
Proof.
  intros Hn Hm Hs Ht Hc. eexists _, _. split; [apply build_ok; (done || lia)|].
  intros i j k l Hi Hj Hk Hl. cbn [constraints variables built_model].
  split; [|split].
  - unfold declared_variables. apply elem_of_app. left.
    apply list_elem_of_fmap. exists (i, j, k, l). split; [done|].
    apply elem_of_X_keys. lia.
  - intros c Hin Hv Hne.
    eapply later_shift_inequalities; [done|done|lia|lia|done].
  - rewrite day_sum_vars. apply list_elem_of_fmap. exists (k, l).
    split; [done|]. apply elem_of_pairs. split; apply elem_of_list_range; lia.
Qed.

Lemma later_shifts_unrestricted_witness :
  1 <= 80 /\ 1 <= 30 /\ 7 <= 7 /\ 3 <= 3 /\
  covers (uniform_competency 80 1) 80 = true /\
  exists env mdl,
    build 80 30 7 3 (uniform_competency 80 1) empty_model = Ok (env, mdl) /\
    forall i j k l,
      1 <= i <= 80 -> 1 <= j <= 30 -> 1 <= k <= 7 -> 3 <= l <= 3 ->
      X_var i j k l ∈ variables mdl /\
      (forall c, c ∈ constraints mdl -> X_var i j k l ∈ ct_vars c ->
         ct_sense c <> EQ -> ct_lhs c = day_sum 7 3 i j) /\
      X_var i j k l ∈ expr_vars (day_sum 7 3 i j).
Proof.
  split; [lia|]. split; [lia|]. split; [lia|]. split; [lia|].
  split; [by vm_compute|].
  apply later_shifts_unrestricted; [lia|lia|lia|lia|by vm_compute].
Defined.

(** ** The size of the model *)

Lemma length_matrix_vars keys1 keys2 name :
  length (matrix_vars keys1 keys2 name) = (length keys1 * length keys2)%nat.
Proof. by rewrite matrix_vars_eq, length_map, length_pairs. Qed.

Lemma length_list_vars keys name :
  length (list_vars keys name) = length keys.
Proof. unfold list_vars. by rewrite length_map. Qed.

Lemma length_declared_variables n m s t :
  0 <= n -> 0 <= m -> 0 <= s -> 0 <= t ->
  Z.of_nat (length (declared_variables n m s t))
  = n * m * s * t + 5 * (n * m) + 2 * n + 14 * (m * t) + m.
Proof.
  intros Hn Hm Hs Ht. unfold declared_variables.
  rewrite !length_app, !length_map, length_X_keys, length_h_keys,
    !length_matrix_vars, !length_list_vars. unfold range0.
  rewrite !length_range.
  replace (Z.to_nat (n + 1 - 1)) with (Z.to_nat n) by lia.
  replace (Z.to_nat (m + 1 - 1)) with (Z.to_nat m) by lia.
  replace (Z.to_nat (t + 1 - 1)) with (Z.to_nat t) by lia.
  replace (Z.to_nat (t + 1 - 0)) with (S (Z.to_nat t)) by lia.
  rewrite ?Nat2Z.inj_add, ?Nat2Z.inj_mul, ?Nat2Z.inj_succ, ?Nat2Z.inj_mul,
    ?Z2Nat.id by lia.
  ring.
Qed.

Section Sizes.

Variables n m s t : Z.
Variable competency : gmap Z (gmap Z Z).

Lemma length_coverage_cts k req label :
  length (coverage_cts n m t k req label) = (Z.to_nat m * Z.to_nat t)%nat.
Proof.
  unfold coverage_cts.
  rewrite (length_bind_const _ _ (Z.to_nat t)), length_list_range; [done|].
  intros j. rewrite (length_bind_const _ _ 1%nat), length_list_range; [lia|done].
Qed.

Lemma length_quality_cts k dn dp tgt label :
  length (quality_cts n m t competency k dn dp tgt label)
  = (Z.to_nat m * Z.to_nat t)%nat.
Proof.
  unfold quality_cts.
  rewrite (length_bind_const _ _ (Z.to_nat t)), length_list_range; [done|].
  intros j. rewrite (length_bind_const _ _ 1%nat), length_list_range; [lia|done].
Qed.

Lemma length_per_day {A} (f : Z -> Z -> list A) c d :
  (forall i j, length (f i j) = c) ->
  length (i ← list_range n; j ← list_range d; f i j)
  = (Z.to_nat n * (Z.to_nat d * c))%nat.
Proof.
  intros Hf.
  rewrite (length_bind_const _ _ (Z.to_nat d * c)), length_list_range; [done|].
  intros i. rewrite (length_bind_const _ _ c), length_list_range; [done|].
  intros j. apply Hf.
Qed.

Lemma length_per_person {A} (f : Z -> list A) c :
  (forall i, length (f i) = c) ->
  length (i ← list_range n; f i) = (Z.to_nat n * c)%nat.
Proof.
  intros Hf. by rewrite (length_bind_const _ _ c), length_list_range.
Qed.

Lemma length_cts_19 :
  length (cts_19 n m) = (Z.to_nat n * (Z.to_nat (m - 6) * 2))%nat.
Proof. unfold cts_19. by apply length_per_day. Qed.

Lemma length_all_cts :
  0 <= n -> 0 <= m -> 0 <= t ->
  Z.of_nat (length (all_cts n m s t competency))
  = 14 * (m * t) + 2 * (n * m) + 2 * (n * Z.max 0 (m - 6)) + 4 * n
    + n * Z.max 0 (m - 1) + 2 * (n * Z.max 0 (m - 2)) + n.
Proof.
  intros Hn Hm Ht. unfold all_cts, hard_cts, goal_cts.
  rewrite !length_app, !length_coverage_cts, !length_quality_cts,
    length_cts_19.
  unfold cts_17, cts_18, cts_20, cts_21, cts_22, cts_23, cts_24, cts_25.
  rewrite !(length_per_day _ 1%nat) by done.
  rewrite !(length_per_person _ 2%nat) by done.
  rewrite (length_per_person _ 1%nat) by done.
  assert (Z.of_nat (Z.to_nat (m - 6)) = Z.max 0 (m - 6)) as H6 by lia.
  assert (Z.of_nat (Z.to_nat (m - 1)) = Z.max 0 (m - 1)) as H1 by lia.
  assert (Z.of_nat (Z.to_nat (m - 2)) = Z.max 0 (m - 2)) as H2 by lia.
  rewrite ?Nat2Z.inj_add, ?Nat2Z.inj_mul, H6, H1, H2.
  rewrite !(Z2Nat.id n), !(Z2Nat.id m), !(Z2Nat.id t) by lia.
  change (Z.of_nat 1) with 1. change (Z.of_nat 2) with 2. ring.
Qed.

End Sizes.

(** With a person and a day to plan, the model that reaches the solver
    has [n·m·s·t + 5·n·m + 2·n + 14·m·t + m] variables: the assignments, the
    leaves, the two deviations of goals 1 and 2 per person and day, of
    goal 3 per person and of goals 4 to 10 per day and shift, and the [m]
    variables of the shift-0 column of [d_neg_6]; 46 630 for the
    dimensions of the notebook. *)
Theorem variable_total n m s t competency :
  1 <= n -> 1 <= m -> 7 <= s -> 2 <= t -> covers competency n = true ->
  exists env mdl,
    build n m s t competency empty_model = Ok (env, mdl) /\
    Z.of_nat (length (variables mdl))
    = n * m * s * t + 5 * (n * m) + 2 * n + 14 * (m * t) + m.
Proof.
  intros Hn Hm Hs Ht Hc. eexists _, _. split; [by apply build_ok|].
  cbn [variables built_model]. apply length_declared_variables; lia.
Qed.

Lemma variable_total_witness :
  1 <= 80 /\ 1 <= 30 /\ 7 <= 7 /\ 2 <= 2 /\
  covers (uniform_competency 80 1) 80 = true /\
  exists env mdl,
    build 80 30 7 2 (uniform_competency 80 1) empty_model = Ok (env, mdl) /\
    Z.of_nat (length (variables mdl)) = 46630.
Proof.
  split; [lia|]. split; [lia|]. split; [lia|]. split; [lia|].
  split; [by vm_compute|].
  apply (variable_total 80 30 7 2); [lia|lia|lia|lia|by vm_compute].
Defined.

(** With a person and a day to plan, the model that reaches the solver
    has, in this order, [7·m·t] coverage
    equalities, [2·n·m] inequalities of equations 13 and 14, two per
    rolling window, four workload bounds per person, one night-to-morning
    restriction per person and day but the last, the goal equalities of
    equations 22 to 24 and [7·m·t] quality equalities; a range that is
    empty contributes nothing.  This is 16 680 constraints for the
    dimensions of the notebook. *)
Theorem constraint_total n m s t competency :
  1 <= n -> 1 <= m -> 7 <= s -> 2 <= t -> covers competency n = true ->
  exists env mdl,
    build n m s t competency empty_model = Ok (env, mdl) /\
    Z.of_nat (length (constraints mdl))
    = 14 * (m * t) + 2 * (n * m) + 2 * (n * Z.max 0 (m - 6)) + 4 * n
      + n * Z.max 0 (m - 1) + 2 * (n * Z.max 0 (m - 2)) + n.
Proof.
  intros Hn Hm Hs Ht Hc. eexists _, _. split; [by apply build_ok|].
  cbn [constraints built_model]. apply length_all_cts; lia.
Qed.

Lemma constraint_total_witness :
  1 <= 80 /\ 1 <= 30 /\ 7 <= 7 /\ 2 <= 2 /\
  covers (uniform_competency 80 1) 80 = true /\
  exists env mdl,
    build 80 30 7 2 (uniform_competency 80 1) empty_model = Ok (env, mdl) /\
    Z.of_nat (length (constraints mdl)) = 16680.
Proof.
  split; [lia|]. split; [lia|]. split; [lia|]. split; [lia|].
  split; [by vm_compute|].
  apply (constraint_total 80 30 7 2); [lia|lia|lia|lia|by vm_compute].
Defined.

(** ** No person, no day or no shift *)

(** docplex does not make a matrix of variables over no key at all.
    Without a person or without a day the notebook stops at the
    declaration of [d_neg_1], and with both but without a shift at the
    declaration of [d_neg_4], on a [DOcplexException]: the cells of the
    objective and of the constraints do not run, and the solver is not
    called. *)
Theorem empty_dimensions_raise n m s t competency :
  n <= 0 \/ m <= 0 \/ t <= 0 ->
  declare_variables n m s t empty_model = Raise DOcplexException /\
  build n m s t competency empty_model = Raise DOcplexException /\
  forall solve,
    run solve n m s t competency = Stopped DOcplexException /\
    solver_calls (run solve n m s t competency) = [].
Proof.
  intros Hdim.
  pose proof (build_stops n m s t competency Hdim empty_model) as Hrun.
  split; [by apply declare_variables_raise|]. split; [done|].
  intros solve. unfold run. by rewrite Hrun.
Qed.

Lemma empty_dimensions_raise_witness :
  (1 <= 0 \/ 0 <= 0 \/ 2 <= 0) /\
  build 1 0 7 2 (uniform_competency 1 1) empty_model = Raise DOcplexException.
Proof.
  split; [lia|].
  apply (empty_dimensions_raise 1 0 7 2 (uniform_competency 1 1)). lia.
Defined.

(** ** Which variables the model uses *)

Lemma matrix_vars_keys keys1 keys2 name v :
  v ∈ matrix_vars keys1 keys2 name ->
  exists a b, a ∈ keys1 /\ b ∈ keys2 /\ v = dev_var name [a; b].
Proof.
  rewrite matrix_vars_eq. intros ([a b] & -> & Hin)%list_elem_of_fmap.
  apply elem_of_pairs in Hin as [Ha Hb]. by exists a, b.
Qed.

Lemma list_vars_keys keys name v :
  v ∈ list_vars keys name -> exists k, k ∈ keys /\ v = dev_var name [k].
Proof. intros (k & -> & Hk)%list_elem_of_fmap. by exists k. Qed.

Lemma Forall_vars_msum_in {A} (P : Var -> Prop) (f : A -> LinExpr) l :
  (forall x, x ∈ l -> Forall P (expr_vars (f x))) ->
  Forall P (expr_vars (msum (map f l))).
Proof.
  induction l as [|x l IH]; intros Hf; [constructor|].
  cbn [map msum fold_right]. rewrite expr_vars_eadd.
  apply Forall_app. split; [apply Hf; by left|].
  apply IH. intros y Hy. apply Hf. by right.
Qed.

Section Usage.

Variables n m s t : Z.
Variable competency : gmap Z (gmap Z Z).
Hypothesis sections : 7 <= s.
Hypothesis shifts : 2 <= t.

Abbreviation used := (in_constraints n m s t).

Lemma used_X i j k l :
  1 <= i <= n -> 1 <= j <= m -> 1 <= k <= s -> 1 <= l <= t ->
  used (X_var i j k l).
Proof. intros. left. by exists i, j, k, l. Qed.

Lemma used_h i j : 1 <= i <= n -> 1 <= j <= m -> used (h_var i j).
Proof. intros. right. left. by exists i, j. Qed.

Lemma used_goal name over g i j :
  dev_var name = var_of (FamD over g) ->
  g = 1 \/ g = 2 -> 1 <= i <= n -> 1 <= j <= m - 2 ->
  used (dev_var name [i; j]).
Proof. intros -> ???. do 2 right. left. by exists over, g, i, j. Qed.

Lemma used_goal_3 name over i :
  dev_var name = var_of (FamD over 3) -> 1 <= i <= n ->
  used (dev_var name [i]).
Proof. intros -> ?. do 3 right. left. by exists over, i. Qed.

Lemma used_quality name over g j l :
  dev_var name = var_of (FamD over g) ->
  4 <= g <= 10 -> 1 <= j <= m -> 1 <= l <= t ->
  used (dev_var name [j; l]).
Proof. intros -> ???. do 4 right. by exists over, g, j, l. Qed.

(** *** The sums *)

Lemma headcount_used j k l :
  1 <= j <= m -> 1 <= k <= s -> 1 <= l <= t ->
  Forall used (expr_vars (headcount n j k l)).
Proof.
  intros Hj Hk Hl. rewrite headcount_vars. apply Forall_forall.
  intros v (i & -> & Hi%elem_of_list_range)%list_elem_of_fmap.
  by apply used_X.
Qed.

Lemma quality_sum_used j k l :
  1 <= j <= m -> 1 <= k <= s -> 1 <= l <= t ->
  Forall used (expr_vars (quality_sum n competency j k l)).
Proof.
  intros Hj Hk Hl. rewrite quality_sum_vars. apply Forall_forall.
  intros v (i & -> & [_ Hi%elem_of_list_range]%list_elem_of_filter)%list_elem_of_fmap.
  by apply used_X.
Qed.

Lemma day_sum_used i j :
  1 <= i <= n -> 1 <= j <= m -> Forall used (expr_vars (day_sum s t i j)).
Proof.
  intros Hi Hj. rewrite day_sum_vars. apply Forall_forall.
  intros v ([k l] & -> & Hin)%list_elem_of_fmap.
  apply elem_of_pairs in Hin as [Hk%elem_of_list_range Hl%elem_of_list_range].
  by apply used_X.
Qed.

Lemma shift_sum_used i l :
  1 <= i <= n -> 1 <= l <= t -> Forall used (expr_vars (shift_sum m s i l)).
Proof.
  intros Hi Hl. rewrite shift_sum_vars. apply Forall_forall.
  intros v ([j k] & -> & Hin)%list_elem_of_fmap.
  apply elem_of_pairs in Hin as [Hj%elem_of_list_range Hk%elem_of_list_range].
  by apply used_X.
Qed.

Lemma sections_sum_used i j l :
  1 <= i <= n -> 1 <= j <= m -> 1 <= l <= t ->
  Forall used (expr_vars (sections_sum s i j l)).
Proof.
  intros Hi Hj Hl. rewrite sections_sum_vars. apply Forall_forall.
  intros v (k & -> & Hk%elem_of_list_range)%list_elem_of_fmap.
  by apply used_X.
Qed.

Lemma person_sum_used i :
  1 <= i <= n -> Forall used (expr_vars (person_sum m s t i)).
Proof.
  intros Hi. rewrite person_sum_vars. apply Forall_forall.
  intros v ([[j k] l] & -> & Hin)%list_elem_of_fmap.
  apply elem_of_triples in Hin as (Hj & Hk & Hl).
  apply elem_of_list_range in Hj, Hk, Hl. by apply used_X.
Qed.

Lemma window_sum_used i j :
  1 <= i <= n -> 1 <= j <= m - 6 -> Forall used (expr_vars (window_sum i j)).
Proof.
  intros Hi Hj. rewrite window_sum_vars. apply Forall_forall.
  intros v (d & -> & Hd%elem_of_range)%list_elem_of_fmap.
  apply used_h; lia.
Qed.

(** *** Every constraint is written over the variables of
    [in_constraints] *)

Lemma coverage_cts_used k req label c :
  1 <= k <= s ->
  c ∈ coverage_cts n m t k req label -> Forall used (ct_vars c).
Proof.
  intros Hk Hc. unfold coverage_cts in Hc. member_of_cell.
  rewrite elem_of_list_range in *.
  unfold ct_vars. cbn [ct_lhs ct_rhs]. apply Forall_app.
  split; [by apply headcount_used|constructor].
Qed.

Lemma quality_cts_used k dn dp g tgt label c :
  1 <= k <= s -> 4 <= g <= 10 ->
  dev_var dn = d_neg g -> dev_var dp = d_pos g ->
  c ∈ quality_cts n m t competency k dn dp tgt label ->
  Forall used (ct_vars c).
Proof.
  intros Hk Hg Hdn Hdp Hc. unfold quality_cts in Hc. member_of_cell.
  rewrite elem_of_list_range in *.
  unfold ct_vars, quality_lhs. cbn [ct_lhs ct_rhs].
  rewrite expr_vars_esub, expr_vars_eadd, !Forall_app.
  repeat split; [by apply quality_sum_used| | |constructor];
    apply Forall_of_var; by eapply used_quality.
Qed.

Lemma hard_cts_used c :
  c ∈ hard_cts n m s t -> Forall used (ct_vars c).
Proof.
  unfold hard_cts. intros Hc.
  do 7 (apply elem_of_app in Hc as [Hc|Hc];
        [by eapply coverage_cts_used; [|exact Hc]; lia|]).
  apply elem_of_app in Hc as [Hc|Hc].
  { unfold cts_17 in Hc. member_of_cell. rewrite elem_of_list_range in *.
    unfold ct_vars. cbn [ct_lhs ct_rhs]. apply Forall_app.
    split; [by apply day_sum_used|constructor]. }
  apply elem_of_app in Hc as [Hc|Hc].
  { unfold cts_18 in Hc. member_of_cell. rewrite elem_of_list_range in *.
    unfold ct_vars. cbn [ct_lhs ct_rhs]. rewrite expr_vars_esub, !Forall_app.
    repeat split; [by apply day_sum_used|constructor|].
    apply Forall_of_var. by apply used_h. }
  apply elem_of_app in Hc as [Hc|Hc].
  { unfold cts_19, window_max, window_min in Hc. member_of_cell;
      rewrite elem_of_list_range in *;
      unfold ct_vars; cbn [ct_lhs ct_rhs]; apply Forall_app;
      (split; [by apply window_sum_used|constructor]). }
  apply elem_of_app in Hc as [Hc|Hc].
  { unfold cts_20 in Hc. member_of_cell;
      rewrite elem_of_list_range in *;
      unfold ct_vars; cbn [ct_lhs ct_rhs]; apply Forall_app;
      (split; [apply shift_sum_used; lia|constructor]). }
  apply elem_of_app in Hc as [Hc|Hc].
  { unfold cts_21 in Hc. member_of_cell;
      rewrite elem_of_list_range in *;
      unfold ct_vars; cbn [ct_lhs ct_rhs]; apply Forall_app;
      (split; [apply shift_sum_used; lia|constructor]). }
  unfold cts_22 in Hc. member_of_cell. rewrite elem_of_list_range in *.
  unfold ct_vars. cbn [ct_lhs ct_rhs].
  rewrite expr_vars_eadd, !Forall_app.
  repeat split; [apply sections_sum_used; lia..|constructor].
Qed.

Lemma goal_cts_used c :
  c ∈ goal_cts n m s t competency -> Forall used (ct_vars c).
Proof.
  unfold goal_cts. intros Hc.
  apply elem_of_app in Hc as [Hc|Hc].
  { unfold cts_23 in Hc. member_of_cell. rewrite elem_of_list_range in *.
    unfold ct_vars, goal_1_lhs. cbn [ct_lhs ct_rhs].
    rewrite expr_vars_esub, !expr_vars_eadd, !Forall_app.
    repeat split.
    - apply Forall_of_var, used_h; lia.
    - apply day_sum_used; lia.
    - apply Forall_of_var, used_h; lia.
    - by apply Forall_of_var, (used_goal _ false 1); [|left| |].
    - by apply Forall_of_var, (used_goal _ true 1); [|left| |].
    - constructor. }
  apply elem_of_app in Hc as [Hc|Hc].
  { unfold cts_24 in Hc. member_of_cell. rewrite elem_of_list_range in *.
    unfold ct_vars, goal_2_lhs. cbn [ct_lhs ct_rhs].
    rewrite expr_vars_esub, !expr_vars_eadd, !Forall_app.
    repeat split.
    - apply day_sum_used; lia.
    - apply Forall_of_var, used_h; lia.
    - apply day_sum_used; lia.
    - by apply Forall_of_var, (used_goal _ false 2); [|right| |].
    - by apply Forall_of_var, (used_goal _ true 2); [|right| |].
    - constructor. }
  apply elem_of_app in Hc as [Hc|Hc].
  { unfold cts_25 in Hc. member_of_cell. rewrite elem_of_list_range in *.
    unfold ct_vars, goal_3_lhs. cbn [ct_lhs ct_rhs].
    rewrite expr_vars_esub, !expr_vars_eadd, !Forall_app.
    repeat split.
    - by apply person_sum_used.
    - by apply Forall_of_var, (used_goal_3 _ false).
    - by apply Forall_of_var, (used_goal_3 _ true).
    - constructor. }
  apply elem_of_app in Hc as [Hc|Hc].
  { by eapply (quality_cts_used _ _ _ 4); [| | | |exact Hc]; (done || lia). }
  apply elem_of_app in Hc as [Hc|Hc].
  { by eapply (quality_cts_used _ _ _ 5); [| | | |exact Hc]; (done || lia). }
  apply elem_of_app in Hc as [Hc|Hc].
  { by eapply (quality_cts_used _ _ _ 6); [| | | |exact Hc]; (done || lia). }
  apply elem_of_app in Hc as [Hc|Hc].
  { by eapply (quality_cts_used _ _ _ 7); [| | | |exact Hc]; (done || lia). }
  apply elem_of_app in Hc as [Hc|Hc].
  { by eapply (quality_cts_used _ _ _ 8); [| | | |exact Hc]; (done || lia). }
  apply elem_of_app in Hc as [Hc|Hc].
  { by eapply (quality_cts_used _ _ _ 9); [| | | |exact Hc]; (done || lia). }
  by eapply (quality_cts_used _ _ _ 10); [| | | |exact Hc]; (done || lia).
Qed.

Lemma all_cts_used c w :
  c ∈ all_cts n m s t competency -> w ∈ ct_vars c -> used w.
Proof.
  unfold all_cts. intros [Hc|Hc]%elem_of_app Hw.
  - pose proof (hard_cts_used c Hc) as Hall.
    rewrite Forall_forall in Hall. by apply Hall.
  - pose proof (goal_cts_used c Hc) as Hall.
    rewrite Forall_forall in Hall. by apply Hall.
Qed.

(** *** Every such variable occurs in a constraint *)

Lemma X_in_day_sum_vars i j k l :
  1 <= k <= s -> 1 <= l <= t ->
  X_var i j k l ∈ expr_vars (day_sum s t i j).
Proof.
  intros Hk Hl. rewrite day_sum_vars. apply list_elem_of_fmap.
  exists (k, l). split; [done|].
  apply elem_of_pairs. split; by apply elem_of_list_range.
Qed.

Lemma used_occurs w :
  used w -> exists c, c ∈ all_cts n m s t competency /\ w ∈ ct_vars c.
Proof.
  intros [(i & j & k & l & -> & Hi & Hj & Hk & Hl)
         |[(i & j & -> & Hi & Hj)
         |[(over & g & i & j & -> & Hg & Hi & Hj)
         |[(over & i & -> & Hi)
         |(over & g & j & l & -> & Hg & Hj & Hl)]]]].
  - eexists. split.
    + apply hard_cts_all, hard_cts_cells. left. by apply cts_17_member.
    + unfold ct_vars. cbn [ct_lhs ct_rhs]. apply elem_of_app. left.
      by apply X_in_day_sum_vars.
  - eexists. split.
    + apply hard_cts_all, hard_cts_cells. right. left. by apply cts_18_member.
    + unfold ct_vars. cbn [ct_lhs ct_rhs]. apply elem_of_app. right.
      rewrite expr_vars_esub, elem_of_app. right. by left.
  - destruct Hg as [-> | ->].
    + eexists. split.
      * apply goal_cts_all, goal_cts_cells. left. by apply cts_23_member.
      * unfold ct_vars, goal_1_lhs. cbn [ct_lhs ct_rhs].
        rewrite expr_vars_esub, !expr_vars_eadd, !elem_of_app.
        destruct over; [left; right|left; left; right]; by left.
    + eexists. split.
      * apply goal_cts_all, goal_cts_cells. right. left.
        by apply cts_24_member.
      * unfold ct_vars, goal_2_lhs. cbn [ct_lhs ct_rhs].
        rewrite expr_vars_esub, !expr_vars_eadd, !elem_of_app.
        destruct over; [left; right|left; left; right]; by left.
  - eexists. split.
    + apply goal_cts_all, goal_cts_cells. right. right.
      by apply cts_25_member.
    + unfold ct_vars, goal_3_lhs. cbn [ct_lhs ct_rhs].
      rewrite expr_vars_esub, !expr_vars_eadd, !elem_of_app.
      destruct over; [left; right|left; left; right]; by left.
  - eexists. split.
    + eapply quality_rows_model; [apply (quality_row_of (g - 3)); lia|].
      by apply quality_cts_member.
    + unfold ct_vars, quality_lhs. cbn [ct_lhs ct_rhs].
      rewrite expr_vars_esub, !expr_vars_eadd, !elem_of_app.
      replace (g - 3 + 3) with g by lia.
      destruct over; [left; right|left; left; right]; by left.
Qed.

(** *** The objective *)

Lemma both_directions_member g over i j :
  1 <= i <= n -> 1 <= j <= m ->
  var_of (FamD over g) [i; j] ∈ expr_vars (both_directions n m g).
Proof.
  intros Hi Hj. unfold both_directions.
  assert ((i, j) ∈ (i ← list_range n; j ← list_range m; [(i, j)])) as Hin
    by (apply elem_of_pairs; split; by apply elem_of_list_range).
  revert Hin. generalize (i ← list_range n; j ← list_range m; [(i, j)]).
  intros l. induction l as [|[i' j'] l IH]; intros Hin.
  - by apply elem_of_nil in Hin.
  - cbn [map msum fold_right]. rewrite !expr_vars_eadd, !elem_of_app.
    apply elem_of_cons in Hin as [[= <- <-]|Hin].
    + left. destruct over; [right|left]; by left.
    + right. by apply IH.
Qed.

Lemma both_directions_3_member over i :
  1 <= i <= n ->
  var_of (FamD over 3) [i] ∈ expr_vars (both_directions_3 n).
Proof.
  intros Hi%elem_of_list_range. unfold both_directions_3.
  revert Hi. generalize (list_range n).
  intros l. induction l as [|i' l IH]; intros Hin.
  - by apply elem_of_nil in Hin.
  - cbn [map msum fold_right]. rewrite !expr_vars_eadd, !elem_of_app.
    apply elem_of_cons in Hin as [<-|Hin].
    + left. destruct over; [right|left]; by left.
    + right. by apply IH.
Qed.

Lemma over_only_member g j l :
  1 <= j <= m -> 1 <= l <= t ->
  d_pos g [j; l] ∈ expr_vars (over_only m t g).
Proof.
  intros Hj Hl. unfold over_only.
  rewrite (expr_vars_msum _ (fun '(j, l) => d_pos g [j; l]))
    by (by intros [??]).
  apply list_elem_of_fmap. exists (j, l). split; [done|].
  apply elem_of_pairs. split; by apply elem_of_list_range.
Qed.

Lemma goal_deviation_in_objective over g i j :
  g = 1 \/ g = 2 -> 1 <= i <= n -> 1 <= j <= m ->
  var_of (FamD over g) [i; j] ∈ expr_vars (spec_objective n m t).
Proof.
  intros Hg Hi Hj. unfold spec_objective.
  rewrite !expr_vars_eadd, !elem_of_app.
  destruct Hg as [-> | ->].
  - do 9 left. by apply both_directions_member.
  - do 8 left. right. by apply both_directions_member.
Qed.

(** *** The variables the declaration cells create *)

Lemma declared_cases v :
  v ∈ declared_variables n m s t ->
  used v \/ last_days n m v \/ shift_zero m v.
Proof.
  assert (forall name over g a b,
            dev_var name = var_of (FamD over g) -> g = 1 \/ g = 2 ->
            a ∈ range 1 (n + 1) -> b ∈ range 1 (m + 1) ->
            used (dev_var name [a; b]) \/ last_days n m (dev_var name [a; b])
            \/ shift_zero m (dev_var name [a; b])) as Hgoal.
  { intros name over g a b -> Hg Ha%elem_of_range Hb%elem_of_range.
    destruct (decide (b <= m - 2)).
    - left. do 2 right. left. exists over, g, a, b.
      repeat split; (done || lia).
    - right. left. exists over, g, a, b. repeat split; (done || lia). }
  assert (forall name over g a b,
            dev_var name = var_of (FamD over g) -> 4 <= g <= 10 ->
            a ∈ range 1 (m + 1) -> b ∈ range 1 (t + 1) ->
            used (dev_var name [a; b]) \/ last_days n m (dev_var name [a; b])
            \/ shift_zero m (dev_var name [a; b])) as Hquality.
  { intros name over g a b Heq Hg Ha%elem_of_range Hb%elem_of_range.
    left. eapply used_quality; (done || lia). }
  unfold declared_variables. intros H.
  apply elem_of_app in H as [H|H].
  { apply list_elem_of_fmap in H as ([[[i j] k] l] & -> & Hin).
    apply elem_of_X_keys in Hin. left. apply used_X; lia. }
  apply elem_of_app in H as [H|H].
  { apply list_elem_of_fmap in H as ([i j] & -> & Hin).
    apply elem_of_h_keys in Hin. left. apply used_h; lia. }
  apply elem_of_app in H as [H|H].
  { apply matrix_vars_keys in H as (a & b & Ha & Hb & ->).
    by apply (Hgoal _ false 1); [|left| |]. }
  apply elem_of_app in H as [H|H].
  { apply matrix_vars_keys in H as (a & b & Ha & Hb & ->).
    by apply (Hgoal _ true 1); [|left| |]. }
  apply elem_of_app in H as [H|H].
  { apply matrix_vars_keys in H as (a & b & Ha & Hb & ->).
    by apply (Hgoal _ false 2); [|right| |]. }
  apply elem_of_app in H as [H|H].
  { apply matrix_vars_keys in H as (a & b & Ha & Hb & ->).
    by apply (Hgoal _ true 2); [|right| |]. }
  apply elem_of_app in H as [H|H].
  { apply list_vars_keys in H as (k & Hk%elem_of_range & ->).
    left. apply (used_goal_3 _ false); [done|lia]. }
  apply elem_of_app in H as [H|H].
  { apply list_vars_keys in H as (k & Hk%elem_of_range & ->).
    left. apply (used_goal_3 _ true); [done|lia]. }
  apply elem_of_app in H as [H|H].
  { apply matrix_vars_keys in H as (a & b & Ha & Hb & ->).
    by apply (Hquality _ false 4); [|lia| |]. }
  apply elem_of_app in H as [H|H].
  { apply matrix_vars_keys in H as (a & b & Ha & Hb & ->).
    by apply (Hquality _ true 4); [|lia| |]. }
  apply elem_of_app in H as [H|H].
  { apply matrix_vars_keys in H as (a & b & Ha & Hb & ->).
    by apply (Hquality _ false 5); [|lia| |]. }
  apply elem_of_app in H as [H|H].
  { apply matrix_vars_keys in H as (a & b & Ha & Hb & ->).
    by apply (Hquality _ true 5); [|lia| |]. }
  apply elem_of_app in H as [H|H].
  { apply matrix_vars_keys in H as (a & b & Ha & Hb & ->).
    apply elem_of_range in Ha, Hb.
    destruct (decide (b = 0)) as [->|Hb0].
    - right. right. exists a. split; [lia|done].
    - left. apply (used_quality _ false 6); (done || lia). }
  apply elem_of_app in H as [H|H].
  { apply matrix_vars_keys in H as (a & b & Ha & Hb & ->).
    by apply (Hquality _ true 6); [|lia| |]. }
  apply elem_of_app in H as [H|H].
  { apply matrix_vars_keys in H as (a & b & Ha & Hb & ->).
    by apply (Hquality _ false 7); [|lia| |]. }
  apply elem_of_app in H as [H|H].
  { apply matrix_vars_keys in H as (a & b & Ha & Hb & ->).
    by apply (Hquality _ true 7); [|lia| |]. }
  apply elem_of_app in H as [H|H].
  { apply matrix_vars_keys in H as (a & b & Ha & Hb & ->).
    by apply (Hquality _ false 8); [|lia| |]. }
  apply elem_of_app in H as [H|H].
  { apply matrix_vars_keys in H as (a & b & Ha & Hb & ->).
    by apply (Hquality _ true 8); [|lia| |]. }
  apply elem_of_app in H as [H|H].
  { apply matrix_vars_keys in H as (a & b & Ha & Hb & ->).
    by apply (Hquality _ false 9); [|lia| |]. }
  apply elem_of_app in H as [H|H].
  { apply matrix_vars_keys in H as (a & b & Ha & Hb & ->).
    by apply (Hquality _ true 9); [|lia| |]. }
  apply elem_of_app in H as [H|H].
  { apply matrix_vars_keys in H as (a & b & Ha & Hb & ->).
    by apply (Hquality _ false 10); [|lia| |]. }
  apply matrix_vars_keys in H as (a & b & Ha & Hb & ->).
  by apply (Hquality _ true 10); [|lia| |].
Qed.

Lemma quality_deviation_declared g over j l :
  4 <= g <= 10 -> 1 <= j <= m -> 1 <= l <= t ->
  var_of (FamD over g) [j; l] ∈ declared_variables n m s t.
Proof.
  intros Hg Hj Hl.
  assert (j ∈ range 1 (m + 1)) as Hjin by (apply elem_of_range; lia).
  assert (l ∈ range 1 (t + 1)) as Hlin by (apply elem_of_range; lia).
  assert (l ∈ range0 (t + 1)) as Hlin0 by (apply elem_of_range; lia).
  unfold declared_variables.
  assert (g = 4 \/ g = 5 \/ g = 6 \/ g = 7 \/ g = 8 \/ g = 9 \/ g = 10)
    as [->|[->|[->|[->|[->|[->| ->]]]]]] by lia; destruct over.
  - do 9 (apply elem_of_app; right). apply elem_of_app. left.
    by apply (matrix_vars_member _ _ "d_pos_4").
  - do 8 (apply elem_of_app; right). apply elem_of_app. left.
    by apply (matrix_vars_member _ _ "d_neg_4").
  - do 11 (apply elem_of_app; right). apply elem_of_app. left.
    by apply (matrix_vars_member _ _ "d_pos_5").
  - do 10 (apply elem_of_app; right). apply elem_of_app. left.
    by apply (matrix_vars_member _ _ "d_neg_5").
  - do 13 (apply elem_of_app; right). apply elem_of_app. left.
    by apply (matrix_vars_member _ _ "d_pos_6").
  - do 12 (apply elem_of_app; right). apply elem_of_app. left.
    by apply (matrix_vars_member _ _ "d_neg_6").
  - do 15 (apply elem_of_app; right). apply elem_of_app. left.
    by apply (matrix_vars_member _ _ "d_pos_7").
  - do 14 (apply elem_of_app; right). apply elem_of_app. left.
    by apply (matrix_vars_member _ _ "d_neg_7").
  - do 17 (apply elem_of_app; right). apply elem_of_app. left.
    by apply (matrix_vars_member _ _ "d_pos_8").
  - do 16 (apply elem_of_app; right). apply elem_of_app. left.
    by apply (matrix_vars_member _ _ "d_neg_8").
  - do 19 (apply elem_of_app; right). apply elem_of_app. left.
    by apply (matrix_vars_member _ _ "d_pos_9").
  - do 18 (apply elem_of_app; right). apply elem_of_app. left.
    by apply (matrix_vars_member _ _ "d_neg_9").
  - do 21 (apply elem_of_app; right).
    by apply (matrix_vars_member _ _ "d_pos_10").
  - do 20 (apply elem_of_app; right). apply elem_of_app. left.
    by apply (matrix_vars_member _ _ "d_neg_10").
Qed.

Lemma goal_3_deviation_declared over i :
  1 <= i <= n -> var_of (FamD over 3) [i] ∈ declared_variables n m s t.
Proof.
  intros Hi.
  assert (i ∈ range 1 (n + 1)) as Hiin by (apply elem_of_range; lia).
  unfold declared_variables. destruct over.
  - do 7 (apply elem_of_app; right). apply elem_of_app. left.
    apply list_elem_of_fmap. by exists i.
  - do 6 (apply elem_of_app; right). apply elem_of_app. left.
    apply list_elem_of_fmap. by exists i.
Qed.

Lemma used_declared w : used w -> w ∈ declared_variables n m s t.
Proof.
  intros [(i & j & k & l & -> & Hi & Hj & Hk & Hl)
         |[(i & j & -> & Hi & Hj)
         |[(over & g & i & j & -> & Hg & Hi & Hj)
         |[(over & i & -> & Hi)
         |(over & g & j & l & -> & Hg & Hj & Hl)]]]].
  - unfold declared_variables. apply elem_of_app. left.
    apply list_elem_of_fmap. exists (i, j, k, l). split; [done|].
    apply elem_of_X_keys. lia.
  - unfold declared_variables. apply elem_of_app. right.
    apply elem_of_app. left.
    apply list_elem_of_fmap. exists (i, j). split; [done|].
    apply elem_of_h_keys. lia.
  - apply goal_deviation_declared; (done || lia).
  - by apply goal_3_deviation_declared.
  - by apply quality_deviation_declared.
Qed.

Lemma objective_declared w :
  w ∈ expr_vars (spec_objective n m t) -> w ∈ declared_variables n m s t.
Proof.
  assert (forall g, g = 1 \/ g = 2 ->
            Forall (fun w => w ∈ declared_variables n m s t)
              (expr_vars (both_directions n m g))) as Hboth.
  { intros g Hg. apply Forall_vars_msum_in. intros [i j] Hin.
    apply elem_of_pairs in Hin as [Hi%elem_of_list_range Hj%elem_of_list_range].
    rewrite expr_vars_eadd. apply Forall_app.
    split; apply Forall_of_var; by apply goal_deviation_declared. }
  assert (forall g, 4 <= g <= 10 ->
            Forall (fun w => w ∈ declared_variables n m s t)
              (expr_vars (over_only m t g))) as Hover.
  { intros g Hg. apply Forall_vars_msum_in. intros [j l] Hin.
    apply elem_of_pairs in Hin as [Hj%elem_of_list_range Hl%elem_of_list_range].
    apply Forall_of_var. by apply quality_deviation_declared. }
  assert (Forall (fun w => w ∈ declared_variables n m s t)
            (expr_vars (both_directions_3 n))) as H3.
  { apply Forall_vars_msum_in. intros i Hi%elem_of_list_range.
    rewrite expr_vars_eadd. apply Forall_app.
    split; apply Forall_of_var; by apply goal_3_deviation_declared. }
  intros Hw.
  assert (Forall (fun w => w ∈ declared_variables n m s t)
            (expr_vars (spec_objective n m t))) as Hall.
  { unfold spec_objective. rewrite !expr_vars_eadd, !Forall_app.
    repeat split; first [apply Hboth; tauto | apply Hover; lia | exact H3]. }
  rewrite Forall_forall in Hall. by apply Hall.
Qed.

Lemma shift_zero_unused j w :
  w = d_neg 6 [j; 0] ->
  ~ used w /\ w ∉ expr_vars (spec_objective n m t).
Proof.
  intros ->. split.
  - intros [(i & j' & k & l & Heq & _)
           |[(i & j' & Heq & _)
           |[(over & g & i & j' & Heq & Hg & _)
           |[(over & i & Heq & _)
           |(over & g & j' & l & Heq & Hg & Hj & Hl)]]]].
    + rewrite X_var_of in Heq. by apply var_of_inj in Heq as [? _].
    + rewrite h_var_of in Heq. by apply var_of_inj in Heq as [? _].
    + apply var_of_inj in Heq as [[= <- <-] _];
        [lia|done|cbn; by rewrite decide_False by lia].
    + by apply var_of_inj in Heq as [[= _ ?] _].
    + apply var_of_inj in Heq as [_ [= _ <-]];
        [lia|done|cbn; by rewrite decide_False by lia].
  - intros Hin. pose proof (spec_objective_penalised n m t) as Hall.
    rewrite Forall_forall in Hall.
    destruct (Hall _ Hin) as (over & g & key & Heq & Hlen & Hpen).
    apply var_of_inj in Heq as [[= <- <-] _]; [|done..].
    destruct Hpen; [done|lia].
Qed.

End Usage.

(** Every variable that a constraint or the objective of the model
    mentions is one the declaration cells created: no cell looks up an
    index tuple outside the dictionaries, and none builds a variable of its
    own.
    The dimensions are those with which the notebook builds a model: a
    person, a day, seven sections, two shifts, and a score for every
    person and section. *)
Theorem model_mentions_declared_variables n m s t competency :
  1 <= n -> 1 <= m -> 7 <= s -> 2 <= t -> covers competency n = true ->
  exists env mdl,
    build n m s t competency empty_model = Ok (env, mdl) /\
    forall v, v ∈ mentioned mdl -> v ∈ variables mdl.
Proof.
  intros Hn Hm Hs Ht Hc. eexists _, _. split; [by apply build_ok|].
  intros v. unfold mentioned, constraint_vars, objective_vars.
  cbn [constraints objective variables built_model].
  intros [Hv|Hv]%elem_of_app.
  - apply list_elem_of_bind in Hv as (c & Hv & Hin).
    eapply used_declared, all_cts_used; done.
  - by apply objective_declared.
Qed.

Lemma model_mentions_declared_variables_witness :
  1 <= 80 /\ 1 <= 30 /\ 7 <= 7 /\ 2 <= 2 /\
  covers (uniform_competency 80 1) 80 = true /\
  exists env mdl,
    build 80 30 7 2 (uniform_competency 80 1) empty_model = Ok (env, mdl) /\
    forall v, v ∈ mentioned mdl -> v ∈ variables mdl.
Proof.
  split; [lia|]. split; [lia|]. split; [lia|]. split; [lia|].
  split; [by vm_compute|].
  apply model_mentions_declared_variables; [lia|lia|lia|lia|by vm_compute].
Defined.

(** The variables of the model that neither a constraint nor the
    objective mentions are the [m] variables [d_neg_6_j_0] of the shift-0
    column of [d_neg_6], and no other: every assignment and leave
    variable, and every other deviation, occurs in a constraint or in the
    objective.
    The dimensions are those with which the notebook builds a model: a
    person, a day, seven sections, two shifts, and a score for every
    person and section. *)
Theorem unused_variables n m s t competency :
  1 <= n -> 1 <= m -> 7 <= s -> 2 <= t -> covers competency n = true ->
  exists env mdl,
    build n m s t competency empty_model = Ok (env, mdl) /\
    forall v, v ∈ variables mdl ->
      (v ∉ mentioned mdl <-> exists j, 1 <= j <= m /\ v = d_neg 6 [j; 0]).
Proof.
  intros Hn Hm Hs Ht Hc. eexists _, _. split; [by apply build_ok|].
  intros v Hv. unfold mentioned, constraint_vars, objective_vars.
  cbn [constraints objective variables built_model] in *.
  rewrite elem_of_app. split.
  - intros Hno. apply (declared_cases n m s t) in Hv as [Hu|[Hl|Hz]]; [| |done].
    + exfalso. apply Hno. left.
      destruct (used_occurs n m s t competency v Hu) as (c & Hin & Hw).
      apply list_elem_of_bind. by exists c.
    + exfalso. apply Hno. right.
      destruct Hl as (over & g & i & j & -> & Hg & Hi & Hj).
      apply goal_deviation_in_objective; (done || lia).
  - intros (j & Hj & ->).
    destruct (shift_zero_unused n m s t j _ eq_refl) as [Hnu Hno].
    intros [Hin|Hin]; [|done].
    apply list_elem_of_bind in Hin as (c & Hw & Hin).
    apply Hnu. by eapply all_cts_used.
Qed.

Lemma unused_variables_witness :
  1 <= 80 /\ 1 <= 30 /\ 7 <= 7 /\ 2 <= 2 /\
  covers (uniform_competency 80 1) 80 = true /\
  exists env mdl,
    build 80 30 7 2 (uniform_competency 80 1) empty_model = Ok (env, mdl) /\
    forall v, v ∈ variables mdl ->
      (v ∉ mentioned mdl <-> exists j, 1 <= j <= 30 /\ v = d_neg 6 [j; 0]).
Proof.
  split; [lia|]. split; [lia|]. split; [lia|]. split; [lia|].
  split; [by vm_compute|].
  apply unused_variables; [lia|lia|lia|lia|by vm_compute].
Defined.

(** ** Solutions of the model *)

Lemma sumQ_nil : sumQ [] = 0%Q.
Proof. done. Qed.

Lemma sumQ_cons x l : sumQ (x :: l) = (x + sumQ l)%Q.
Proof. done. Qed.

Lemma sumQ_app a b : (sumQ (a ++ b) == sumQ a + sumQ b)%Q.
Proof.
  induction a as [|x a IH].
  - rewrite app_nil_l, sumQ_nil. lra.
  - rewrite <- app_comm_cons, !sumQ_cons. lra.
Qed.

Lemma sumQ_perm a b : a ≡ₚ b -> (sumQ a == sumQ b)%Q.
Proof. induction 1; rewrite ?sumQ_cons; lra. Qed.

Lemma sumQ_nonneg l : Forall (fun x => (0 <= x)%Q) l -> (0 <= sumQ l)%Q.
Proof.
  induction 1 as [|x l Hx _ IH]; [rewrite sumQ_nil; lra|].
  rewrite sumQ_cons. lra.
Qed.

Lemma sumQ_bind {A} (f : A -> list Q) (l : list A) :
  (sumQ (l ≫= f) == sumQ (map (fun x => sumQ (f x)) l))%Q.
Proof.
  induction l as [|x l IH].
  - change ([] ≫= f) with (@nil Q). cbn [map]. lra.
  - rewrite bind_cons. cbn [map]. rewrite sumQ_cons.
    pose proof (sumQ_app (f x) (l ≫= f)). lra.
Qed.

(** A sum of [length l] terms, each at most, at least or equal to [c]. *)
Lemma sumQ_le {A} (f : A -> Q) (l : list A) c :
  (forall x, x ∈ l -> (f x <= c)%Q) ->
  (sumQ (map f l) <= inject_Z (Z.of_nat (length l)) * c)%Q.
Proof.
  induction l as [|x l IH]; intros Hf.
  - cbn [map length]. rewrite sumQ_nil. change (inject_Z (Z.of_nat 0)) with 0%Q. lra.
  - cbn [map length]. rewrite sumQ_cons, Nat2Z.inj_succ.
    unfold Z.succ. rewrite inject_Z_plus.
    assert (f x <= c)%Q by (apply Hf; by left).
    assert (sumQ (map f l) <= inject_Z (Z.of_nat (length l)) * c)%Q
      by (apply IH; intros y Hy; apply Hf; by right).
    change (inject_Z 1) with 1%Q. lra.
Qed.

Lemma sumQ_ge {A} (f : A -> Q) (l : list A) c :
  (forall x, x ∈ l -> (c <= f x)%Q) ->
  (inject_Z (Z.of_nat (length l)) * c <= sumQ (map f l))%Q.
Proof.
  induction l as [|x l IH]; intros Hf.
  - cbn [map length]. rewrite sumQ_nil. change (inject_Z (Z.of_nat 0)) with 0%Q. lra.
  - cbn [map length]. rewrite sumQ_cons, Nat2Z.inj_succ.
    unfold Z.succ. rewrite inject_Z_plus.
    assert (c <= f x)%Q by (apply Hf; by left).
    assert (inject_Z (Z.of_nat (length l)) * c <= sumQ (map f l))%Q
      by (apply IH; intros y Hy; apply Hf; by right).
    change (inject_Z 1) with 1%Q. lra.
Qed.

Section Evaluation.

Variable σ : Var -> Q.

Lemma eval_terms_app a b :
  (eval_terms σ (a ++ b) == eval_terms σ a + eval_terms σ b)%Q.
Proof. unfold eval_terms. rewrite map_app. apply sumQ_app. Qed.

Lemma eval_terms_negate ts :
  (eval_terms σ (negate ts) == - eval_terms σ ts)%Q.
Proof.
  unfold eval_terms, negate. induction ts as [|[v c] ts IH].
  - cbn [map]. rewrite sumQ_nil. lra.
  - cbn [map fst snd]. rewrite !sumQ_cons, inject_Z_opp. lra.
Qed.

Lemma eval_of_var v : (eval σ (of_var v) == σ v)%Q.
Proof.
  unfold eval, eval_terms, of_var. cbn [terms constant map fst snd].
  rewrite sumQ_cons, sumQ_nil.
  change (inject_Z 1) with 1%Q. change (inject_Z 0) with 0%Q. lra.
Qed.

Lemma eval_of_num c : (eval σ (of_num c) == inject_Z c)%Q.
Proof.
  unfold eval, eval_terms, of_num. cbn [terms constant map].
  rewrite sumQ_nil. lra.
Qed.

Lemma eval_eadd a b : (eval σ (eadd a b) == eval σ a + eval σ b)%Q.
Proof.
  unfold eval, eadd. cbn [terms constant].
  pose proof (eval_terms_app (terms a) (terms b)).
  rewrite inject_Z_plus. lra.
Qed.

Lemma eval_esub a b : (eval σ (esub a b) == eval σ a - eval σ b)%Q.
Proof.
  unfold eval, esub. cbn [terms constant].
  pose proof (eval_terms_app (terms a) (negate (terms b))).
  pose proof (eval_terms_negate (terms b)).
  unfold Z.sub. rewrite inject_Z_plus, inject_Z_opp. lra.
Qed.

(** The value of [model.sum] is the sum of the values. *)
Lemma eval_msum {A} (f : A -> LinExpr) (g : A -> Q) l :
  (forall x, (eval σ (f x) == g x)%Q) ->
  (eval σ (msum (map f l)) == sumQ (map g l))%Q.
Proof.
  intros Hf. induction l as [|x l IH].
  - cbn [map msum fold_right]. rewrite sumQ_nil.
    pose proof (eval_of_num 0). change (inject_Z 0) with 0%Q in *. lra.
  - cbn [map msum fold_right]. fold (msum (map f l)).
    rewrite sumQ_cons.
    pose proof (eval_eadd (f x) (msum (map f l))). pose proof (Hf x). lra.
Qed.

(** *** Sums of assignment variables *)

Lemma assignments_app a b :
  (assignments σ (a ++ b) == assignments σ a + assignments σ b)%Q.
Proof. unfold assignments. rewrite map_app. apply sumQ_app. Qed.

Lemma assignments_perm a b :
  a ≡ₚ b -> (assignments σ a == assignments σ b)%Q.
Proof. intros H. unfold assignments. apply sumQ_perm. by rewrite H. Qed.

Lemma assignments_bind {A} (f : A -> list (Z * Z * Z * Z)) (l : list A) :
  (assignments σ (l ≫= f) == sumQ (map (fun x => assignments σ (f x)) l))%Q.
Proof.
  induction l as [|x l IH].
  - change ([] ≫= f) with (@nil (Z * Z * Z * Z)). cbn [map]. done.
  - rewrite bind_cons. cbn [map]. rewrite sumQ_cons.
    pose proof (assignments_app (f x) (l ≫= f)). lra.
Qed.

Lemma assignments_nonneg keys :
  (forall key, key ∈ keys -> (0 <= σ (X_entry key))%Q) ->
  (0 <= assignments σ keys)%Q.
Proof.
  intros H. apply sumQ_nonneg, Forall_forall.
  intros x (key & -> & Hkey)%list_elem_of_fmap. by apply H.
Qed.

(** Fewer index tuples, fewer assignments, no value being negative. *)
Lemma assignments_mono keys1 keys2 :
  NoDup keys1 -> (forall key, key ∈ keys1 -> key ∈ keys2) ->
  (forall key, key ∈ keys2 -> (0 <= σ (X_entry key))%Q) ->
  (assignments σ keys1 <= assignments σ keys2)%Q.
Proof.
  intros Hnd Hsub Hpos.
  destruct (submseteq_Permutation keys1 keys2) as [rest Hrest].
  { by apply NoDup_submseteq. }
  pose proof (assignments_perm _ _ Hrest) as Heq.
  pose proof (assignments_app keys1 rest).
  assert (0 <= assignments σ rest)%Q.
  { apply assignments_nonneg. intros key Hkey. apply Hpos.
    rewrite Hrest. apply elem_of_app. by right. }
  lra.
Qed.

Lemma assignments_member key keys :
  key ∈ keys -> (forall key, key ∈ keys -> (0 <= σ (X_entry key))%Q) ->
  (σ (X_entry key) <= assignments σ keys)%Q.
Proof.
  intros Hin Hpos.
  pose proof (assignments_mono [key] keys) as Hle.
  unfold assignments at 1 in Hle. cbn [map] in Hle.
  rewrite sumQ_cons, sumQ_nil in Hle.
  assert (σ (X_entry key) + 0 <= assignments σ keys)%Q; [|lra].
  apply Hle; [apply NoDup_singleton| |done].
  by intros ? ->%list_elem_of_singleton.
Qed.

(** *** The values of the sums of the cells *)

Lemma eval_headcount n j k l :
  (eval σ (headcount n j k l) == assignments σ (headcount_keys n j k l))%Q.
Proof.
  unfold headcount, assignments, headcount_keys. rewrite map_map.
  apply eval_msum. intros i. apply eval_of_var.
Qed.

Lemma eval_day_sum s t i j :
  (eval σ (day_sum s t i j) == assignments σ (day_keys s t i j))%Q.
Proof.
  unfold day_sum, assignments, day_keys. rewrite map_map.
  apply eval_msum. intros [k l]. apply eval_of_var.
Qed.

Lemma eval_shift_sum m s i l :
  (eval σ (shift_sum m s i l) == assignments σ (shift_keys m s i l))%Q.
Proof.
  unfold shift_sum, assignments, shift_keys. rewrite map_map.
  apply eval_msum. intros [j k]. apply eval_of_var.
Qed.

End Evaluation.

(** *** The index tuples of the sums *)

Lemma elem_of_headcount_keys n j k l key :
  key ∈ headcount_keys n j k l <-> exists i, key = (i, j, k, l) /\ 1 <= i <= n.
Proof.
  unfold headcount_keys. rewrite list_elem_of_fmap.
  split; intros (i & -> & Hi); exists i; (split; [done|]);
    by apply elem_of_list_range.
Qed.

Lemma elem_of_day_keys s t i j key :
  key ∈ day_keys s t i j
  <-> exists k l, key = (i, j, k, l) /\ 1 <= k <= s /\ 1 <= l <= t.
Proof.
  unfold day_keys. rewrite list_elem_of_fmap. split.
  - intros ([k l] & -> & [Hk Hl]%elem_of_pairs). exists k, l.
    split; [done|]. split; by apply elem_of_list_range.
  - intros (k & l & -> & Hk & Hl). exists (k, l). split; [done|].
    apply elem_of_pairs. split; by apply elem_of_list_range.
Qed.

Lemma elem_of_shift_keys m s i l key :
  key ∈ shift_keys m s i l
  <-> exists j k, key = (i, j, k, l) /\ 1 <= j <= m /\ 1 <= k <= s.
Proof.
  unfold shift_keys. rewrite list_elem_of_fmap. split.
  - intros ([j k] & -> & [Hj Hk]%elem_of_pairs). exists j, k.
    split; [done|]. split; by apply elem_of_list_range.
  - intros (j & k & -> & Hj & Hk). exists (j, k). split; [done|].
    apply elem_of_pairs. split; by apply elem_of_list_range.
Qed.

Lemma NoDup_headcount_keys n j k l : NoDup (headcount_keys n j k l).
Proof.
  apply NoDup_fmap_2; [|apply NoDup_list_range]. by intros i i' [= ->].
Qed.

Lemma NoDup_day_keys s t i j : NoDup (day_keys s t i j).
Proof.
  apply NoDup_fmap_2; [|apply NoDup_pairs; apply NoDup_list_range].
  by intros [k l] [k' l'] [= -> ->].
Qed.

Lemma NoDup_shift_keys m s i l : NoDup (shift_keys m s i l).
Proof.
  apply NoDup_fmap_2; [|apply NoDup_pairs; apply NoDup_list_range].
  by intros [j k] [j' k'] [= -> ->].
Qed.

Section Feasible.

Variables n m s t : Z.
Variable competency : gmap Z (gmap Z Z).
Variable σ : Var -> Q.
Hypothesis sections : 7 <= s.
Hypothesis shifts : 2 <= t.
Hypothesis domains : Forall (in_domain σ) (declared_variables n m s t).

Lemma X_value i j k l :
  1 <= i <= n -> 1 <= j <= m -> 1 <= k <= s -> 1 <= l <= t ->
  (σ (X_var i j k l) == 0 \/ σ (X_var i j k l) == 1)%Q.
Proof.
  intros Hi Hj Hk Hl. rewrite Forall_forall in domains.
  apply (domains (X_var i j k l)).
  apply elem_of_app. left. apply list_elem_of_fmap.
  exists (i, j, k, l). split; [done|]. apply elem_of_X_keys. lia.
Qed.

Lemma h_value i j :
  1 <= i <= n -> 1 <= j <= m ->
  (σ (h_var i j) == 0 \/ σ (h_var i j) == 1)%Q.
Proof.
  intros Hi Hj. rewrite Forall_forall in domains.
  apply (domains (h_var i j)).
  apply elem_of_app. right. apply elem_of_app. left.
  apply list_elem_of_fmap. exists (i, j). split; [done|].
  apply elem_of_h_keys. lia.
Qed.

Lemma X_nonneg key : key ∈ X_keys n m s t -> (0 <= σ (X_entry key))%Q.
Proof.
  destruct key as [[[i j] k] l]. intros Hin%elem_of_X_keys.
  destruct (X_value i j k l) as [H|H]; try lia; cbn [X_entry]; lra.
Qed.

Lemma day_keys_declared i j key :
  1 <= i <= n -> 1 <= j <= m -> key ∈ day_keys s t i j ->
  key ∈ X_keys n m s t.
Proof.
  intros Hi Hj (k & l & -> & Hk & Hl)%elem_of_day_keys.
  apply elem_of_X_keys. lia.
Qed.

Lemma shift_keys_declared i l key :
  1 <= i <= n -> 1 <= l <= t -> key ∈ shift_keys m s i l ->
  key ∈ X_keys n m s t.
Proof.
  intros Hi Hl (j & k & -> & Hj & Hk)%elem_of_shift_keys.
  apply elem_of_X_keys. lia.
Qed.

End Feasible.

(** *** One shift a day, and none on a day of leave *)

Section Day.

Variables n m s t : Z.
Variable σ : Var -> Q.
Hypothesis domains : Forall (in_domain σ) (declared_variables n m s t).
Variables i j : Z.
Hypothesis person : 1 <= i <= n.
Hypothesis day : 1 <= j <= m.
Hypothesis no_work_on_leave :
  holds σ (mkCt (day_sum s t i j) LE (esub (of_num 1) (of_var (h_var i j)))
             ("Equation_14_No_Work_On_Vacation_" +:+ str i +:+ "_" +:+ str j)).

Lemma day_bound :
  (assignments σ (day_keys s t i j) <= 1 - σ (h_var i j))%Q.
Proof.
  unfold holds in no_work_on_leave. cbn [ct_sense ct_lhs ct_rhs] in *.
  pose proof (eval_day_sum σ s t i j).
  pose proof (eval_esub σ (of_num 1) (of_var (h_var i j))).
  pose proof (eval_of_num σ 1). pose proof (eval_of_var σ (h_var i j)).
  change (inject_Z 1) with 1%Q in *. lra.
Qed.

Lemma day_keys_nonneg key :
  key ∈ day_keys s t i j -> (0 <= σ (X_entry key))%Q.
Proof.
  intros Hin. apply (X_nonneg n m s t σ domains).
  eapply day_keys_declared; [exact person|exact day|exact Hin].
Qed.

Lemma single_shift_follows :
  holds σ (mkCt (day_sum s t i j) LE (of_num 1)
             ("Equation_13_Single_Shift_Per_Day_" +:+ str i +:+ "_" +:+ str j)).
Proof.
  unfold holds. cbn [ct_sense ct_lhs ct_rhs].
  pose proof day_bound. pose proof (eval_day_sum σ s t i j).
  pose proof (eval_of_num σ 1). change (inject_Z 1) with 1%Q in *.
  destruct (h_value n m s t σ domains i j) as [Hh|Hh]; try done; lra.
Qed.

Lemma leave_is_no_work k l :
  1 <= k <= s -> 1 <= l <= t ->
  (σ (h_var i j) == 1)%Q -> (σ (X_var i j k l) == 0)%Q.
Proof.
  intros Hk Hl Hh. pose proof day_bound.
  pose proof (assignments_member σ (i, j, k, l) (day_keys s t i j)) as Hle.
  cbn [X_entry] in Hle.
  assert (σ (X_var i j k l) <= assignments σ (day_keys s t i j))%Q.
  { apply Hle; [|apply day_keys_nonneg].
    apply elem_of_day_keys. by exists k, l. }
  destruct (X_value n m s t σ domains i j k l) as [Hz|Ho]; try done; lra.
Qed.

Lemma one_assignment k l k' l' :
  1 <= k <= s -> 1 <= l <= t -> 1 <= k' <= s -> 1 <= l' <= t ->
  (k, l) <> (k', l') ->
  (σ (X_var i j k l) == 1)%Q -> (σ (X_var i j k' l') == 0)%Q.
Proof.
  intros Hk Hl Hk' Hl' Hne Hone. pose proof day_bound.
  pose proof (assignments_mono σ [(i, j, k, l); (i, j, k', l')]
                (day_keys s t i j)) as Hle.
  unfold assignments at 1 in Hle. cbn [map X_entry] in Hle.
  rewrite !sumQ_cons, sumQ_nil in Hle.
  assert (σ (X_var i j k l) + (σ (X_var i j k' l') + 0)
          <= assignments σ (day_keys s t i j))%Q.
  { apply Hle; [| |apply day_keys_nonneg].
    - apply NoDup_cons. split; [|apply NoDup_singleton].
      intros [= -> ->]%list_elem_of_singleton. done.
    - intros key [->|[->|[]%elem_of_nil]%elem_of_cons]%elem_of_cons;
        apply elem_of_day_keys; eauto 6. }
  destruct (h_value n m s t σ domains i j) as [Hh|Hh]; try done;
    destruct (X_value n m s t σ domains i j k' l') as [Hz|Ho]; try done; lra.
Qed.

End Day.

(** *** The dimensions a feasible model needs *)

Lemma Zle_of_Qle a x b y :
  (inject_Z a * inject_Z x <= inject_Z b * inject_Z y)%Q -> a * x <= b * y.
Proof. rewrite <- !inject_Z_mult. by rewrite Zle_Qle. Qed.

Lemma covered_sections_range k : k ∈ covered_sections -> 1 <= k <= 7 /\ k <> 4.
Proof.
  unfold covered_sections. rewrite !elem_of_cons, elem_of_nil. lia.
Qed.

Lemma NoDup_covered_sections : NoDup covered_sections.
Proof. apply (bool_decide_unpack _). by vm_compute. Qed.

Section Bounds.

Variables n m s t : Z.
Variable competency : gmap Z (gmap Z Z).
Variable σ : Var -> Q.
Hypothesis persons : 1 <= n.
Hypothesis days : 1 <= m.
Hypothesis sections : 7 <= s.
Hypothesis shifts : 2 <= t.
Hypothesis solution : feasible (built_model n m s t competency) σ.

Lemma constraint_holds c : c ∈ all_cts n m s t competency -> holds σ c.
Proof.
  destruct solution as [_ Hall]. cbn [constraints built_model] in Hall.
  rewrite Forall_forall in Hall. apply Hall.
Qed.

Lemma solution_domains : Forall (in_domain σ) (declared_variables n m s t).
Proof. by destruct solution as [Hall _]. Qed.

Lemma day_at_most_one i j :
  1 <= i <= n -> 1 <= j <= m -> (assignments σ (day_keys s t i j) <= 1)%Q.
Proof.
  intros Hi Hj.
  pose proof (constraint_holds _
    (hard_cts_all n m s t competency _
       (hard_cts_cells n m s t _ (or_introl (cts_17_member n m s t i j Hi Hj)))))
    as Hc.
  unfold holds in Hc. cbn [ct_sense ct_lhs ct_rhs] in Hc.
  pose proof (eval_day_sum σ s t i j). pose proof (eval_of_num σ 1).
  change (inject_Z 1) with 1%Q in *. lra.
Qed.

Lemma shift_band i l :
  1 <= i <= n -> l = 1 \/ l = 2 ->
  (10 <= assignments σ (shift_keys m s i l) <= 12)%Q.
Proof.
  intros Hi Hl.
  destruct (cts_20_member n m s i Hi) as [H17 H18].
  destruct (cts_21_member n m s i Hi) as [H19 H20].
  assert (forall c,
    c ∈ cts_20 n m s \/ c ∈ cts_21 n m s -> holds σ c) as Hholds.
  { intros c Hc. apply constraint_holds, hard_cts_all.
    apply (hard_cts_cells n m s t). tauto. }
  pose proof (eval_shift_sum σ m s i l). pose proof (eval_of_num σ 12).
  pose proof (eval_of_num σ 10).
  change (inject_Z 12) with 12%Q in *. change (inject_Z 10) with 10%Q in *.
  destruct Hl as [-> | ->].
  - pose proof (Hholds _ (or_introl H17)) as Hle.
    pose proof (Hholds _ (or_intror H19)) as Hge.
    unfold holds in Hle, Hge. cbn [ct_sense ct_lhs ct_rhs] in Hle, Hge. lra.
  - pose proof (Hholds _ (or_introl H18)) as Hle.
    pose proof (Hholds _ (or_intror H20)) as Hge.
    unfold holds in Hle, Hge. cbn [ct_sense ct_lhs ct_rhs] in Hle, Hge. lra.
Qed.

Lemma headcount_covered j k l :
  1 <= j <= m -> 1 <= l <= t -> k ∈ covered_sections ->
  (assignments σ (headcount_keys n j k l) == inject_Z (requirement k))%Q.
Proof.
  intros Hj Hl [Hk Hne]%covered_sections_range.
  destruct (coverage_row_of k Hk Hne) as [label Hrow].
  pose proof (constraint_holds _
    (coverage_rows_model n m s t competency _ _ _ _ Hrow
       (coverage_cts_member n m t k (requirement k) label j l Hj Hl))) as Hc.
  unfold holds in Hc. cbn [ct_sense ct_lhs ct_rhs] in Hc.
  pose proof (eval_headcount σ n j k l).
  pose proof (eval_of_num σ (requirement k)). lra.
Qed.

(** The six covered sections take 30 persons per day and shift. *)
Lemma covered_headcount j l :
  1 <= j <= m -> 1 <= l <= t ->
  (assignments σ (k ← covered_sections; headcount_keys n j k l) == 30)%Q.
Proof.
  intros Hj Hl.
  pose proof (assignments_bind σ (fun k => headcount_keys n j k l)
                covered_sections) as Hsum.
  unfold covered_sections in Hsum at 2. cbn [map] in Hsum.
  rewrite !sumQ_cons, sumQ_nil in Hsum.
  assert (forall k, k ∈ covered_sections ->
            (assignments σ (headcount_keys n j k l)
             == inject_Z (requirement k))%Q) as Hk
    by (intros k Hin; by apply headcount_covered).
  pose proof (Hk 1) as H1. pose proof (Hk 2) as H2. pose proof (Hk 3) as H3.
  pose proof (Hk 5) as H5. pose proof (Hk 6) as H6. pose proof (Hk 7) as H7.
  unfold covered_sections in H1, H2, H3, H5, H6, H7.
  rewrite !elem_of_cons in H1, H2, H3, H5, H6, H7.
  cbn [requirement] in *.
  change (inject_Z 3) with 3%Q in *. change (inject_Z 4) with 4%Q in *.
  change (inject_Z 6) with 6%Q in *. change (inject_Z 8) with 8%Q in *.
  change (inject_Z 5) with 5%Q in *.
  specialize (H1 ltac:(tauto)). specialize (H2 ltac:(tauto)).
  specialize (H3 ltac:(tauto)). specialize (H5 ltac:(tauto)).
  specialize (H6 ltac:(tauto)). specialize (H7 ltac:(tauto)).
  lra.
Qed.

Lemma X_keys_nonneg key : key ∈ X_keys n m s t -> (0 <= σ (X_entry key))%Q.
Proof. apply X_nonneg, solution_domains. Qed.

Lemma length_days : inject_Z (Z.of_nat (length (list_range m))) = inject_Z m.
Proof. rewrite length_list_range, Z2Nat.id by lia. done. Qed.

Lemma length_persons : inject_Z (Z.of_nat (length (list_range n))) = inject_Z n.
Proof. rewrite length_list_range, Z2Nat.id by lia. done. Qed.

Lemma length_shifts : inject_Z (Z.of_nat (length (list_range t))) = inject_Z t.
Proof. rewrite length_list_range, Z2Nat.id by lia. done. Qed.

(** Ten mornings and ten nights, one shift a day: twenty days. *)
Lemma horizon_bound : 20 <= m.
Proof.
  assert (1 <= 1 <= n) as Hone by lia.
  pose proof (shift_band 1 1 Hone (or_introl eq_refl)) as [Hmorning _].
  pose proof (shift_band 1 2 Hone (or_intror eq_refl)) as [Hnight _].
  pose proof (assignments_app σ (shift_keys m s 1 1) (shift_keys m s 1 2))
    as Hboth.
  pose proof (assignments_bind σ (day_keys s t 1) (list_range m)) as Hdays.
  pose proof (sumQ_le (fun j => assignments σ (day_keys s t 1 j))
                (list_range m) 1) as Hle.
  rewrite length_days in Hle.
  assert (assignments σ (shift_keys m s 1 1 ++ shift_keys m s 1 2)
          <= assignments σ (list_range m ≫= day_keys s t 1))%Q as Hmono.
  { apply assignments_mono.
    - apply NoDup_app. split; [apply NoDup_shift_keys|].
      split; [|apply NoDup_shift_keys].
      intros key (j & k & -> & _)%elem_of_shift_keys
        (j' & k' & [=] & _)%elem_of_shift_keys.
    - intros key Hkey. apply list_elem_of_bind.
      apply elem_of_app in Hkey
        as [(j & k & -> & Hj & Hk)%elem_of_shift_keys
           |(j & k & -> & Hj & Hk)%elem_of_shift_keys];
        exists j; (split; [|by apply elem_of_list_range]);
        apply elem_of_day_keys; exists k; eexists;
        (split; [reflexivity|lia]).
    - intros key (j & Hkey & Hj%elem_of_list_range)%list_elem_of_bind.
      apply X_keys_nonneg. by apply (day_keys_declared n m s t 1 j). }
  assert (sumQ (map (fun j => assignments σ (day_keys s t 1 j)) (list_range m))
          <= inject_Z m * 1)%Q as Hsum.
  { apply Hle. intros j Hj%elem_of_list_range. by apply day_at_most_one. }
  rewrite Zle_Qle. change (inject_Z 20) with 20%Q. lra.
Qed.

(** Thirty persons per shift, one shift a day for each: [30·t] persons. *)
Lemma staff_bound : 30 * t <= n.
Proof.
  assert (1 <= 1 <= m) as Hone by lia.
  pose proof (assignments_bind σ
    (fun l => k ← covered_sections; headcount_keys n 1 k l) (list_range t))
    as Hneed.
  pose proof (sumQ_ge
    (fun l => assignments σ (k ← covered_sections; headcount_keys n 1 k l))
    (list_range t) 30) as Hge.
  rewrite length_shifts in Hge.
  pose proof (assignments_bind σ (fun i => day_keys s t i 1) (list_range n))
    as Hhave.
  pose proof (sumQ_le (fun i => assignments σ (day_keys s t i 1))
                (list_range n) 1) as Hle.
  rewrite length_persons in Hle.
  assert (assignments σ
            (l ← list_range t; k ← covered_sections; headcount_keys n 1 k l)
          <= assignments σ (i ← list_range n; day_keys s t i 1))%Q as Hmono.
  { apply assignments_mono.
    - apply (NoDup_bind_proj _ snd); [| |apply NoDup_list_range].
      + intros l key (k & Hkey & _)%list_elem_of_bind.
        by apply elem_of_headcount_keys in Hkey as (i & -> & _).
      + intros l _.
        apply (NoDup_bind_proj _ (fun key => key.1.2));
          [| |apply NoDup_covered_sections].
        * intros k key Hkey.
          by apply elem_of_headcount_keys in Hkey as (i & -> & _).
        * intros k _. apply NoDup_headcount_keys.
    - intros key (l & Hkey & Hl%elem_of_list_range)%list_elem_of_bind.
      apply list_elem_of_bind in Hkey
        as (k & Hkey & [Hk _]%covered_sections_range).
      apply elem_of_headcount_keys in Hkey as (i & -> & Hi).
      apply list_elem_of_bind. exists i.
      split; [|by apply elem_of_list_range].
      apply elem_of_day_keys. exists k, l. split; [done|lia].
    - intros key (i & Hkey & Hi%elem_of_list_range)%list_elem_of_bind.
      apply X_keys_nonneg. by apply (day_keys_declared n m s t i 1). }
  assert (inject_Z t * 30
          <= sumQ (map (fun l => assignments σ
                      (k ← covered_sections; headcount_keys n 1 k l))
                    (list_range t)))%Q as Hlow.
  { apply Hge. intros l Hl%elem_of_list_range.
    pose proof (covered_headcount 1 l Hone Hl). lra. }
  assert (sumQ (map (fun i => assignments σ (day_keys s t i 1)) (list_range n))
          <= inject_Z n * 1)%Q as Hup.
  { apply Hle. intros i Hi%elem_of_list_range. by apply day_at_most_one. }
  cbv beta in Hneed, Hhave.
  replace n with (1 * n) by lia. apply Zle_of_Qle.
  change (inject_Z 30) with 30%Q. change (inject_Z 1) with 1%Q. lra.
Qed.

(** Thirty persons every morning, twelve mornings for each at most. *)
Lemma morning_bound : 5 * m <= 2 * n.
Proof.
  assert (1 <= 1 <= t) as Hone by lia.
  pose proof (assignments_bind σ
    (fun j => k ← covered_sections; headcount_keys n j k 1) (list_range m))
    as Hneed.
  pose proof (sumQ_ge
    (fun j => assignments σ (k ← covered_sections; headcount_keys n j k 1))
    (list_range m) 30) as Hge.
  rewrite length_days in Hge.
  pose proof (assignments_bind σ (fun i => shift_keys m s i 1) (list_range n))
    as Hhave.
  pose proof (sumQ_le (fun i => assignments σ (shift_keys m s i 1))
                (list_range n) 12) as Hle.
  rewrite length_persons in Hle.
  assert (assignments σ
            (j ← list_range m; k ← covered_sections; headcount_keys n j k 1)
          <= assignments σ (i ← list_range n; shift_keys m s i 1))%Q as Hmono.
  { apply assignments_mono.
    - apply (NoDup_bind_proj _ (fun key => key.1.1.2));
        [| |apply NoDup_list_range].
      + intros j key (k & Hkey & _)%list_elem_of_bind.
        by apply elem_of_headcount_keys in Hkey as (i & -> & _).
      + intros j _.
        apply (NoDup_bind_proj _ (fun key => key.1.2));
          [| |apply NoDup_covered_sections].
        * intros k key Hkey.
          by apply elem_of_headcount_keys in Hkey as (i & -> & _).
        * intros k _. apply NoDup_headcount_keys.
    - intros key (j & Hkey & Hj%elem_of_list_range)%list_elem_of_bind.
      apply list_elem_of_bind in Hkey
        as (k & Hkey & [Hk _]%covered_sections_range).
      apply elem_of_headcount_keys in Hkey as (i & -> & Hi).
      apply list_elem_of_bind. exists i.
      split; [|by apply elem_of_list_range].
      apply elem_of_shift_keys. exists j, k. split; [done|lia].
    - intros key (i & Hkey & Hi%elem_of_list_range)%list_elem_of_bind.
      apply X_keys_nonneg. by apply (shift_keys_declared n m s t i 1). }
  assert (inject_Z m * 30
          <= sumQ (map (fun j => assignments σ
                      (k ← covered_sections; headcount_keys n j k 1))
                    (list_range m)))%Q as Hlow.
  { apply Hge. intros j Hj%elem_of_list_range.
    pose proof (covered_headcount j 1 Hj Hone). lra. }
  assert (sumQ (map (fun i => assignments σ (shift_keys m s i 1)) (list_range n))
          <= inject_Z n * 12)%Q as Hup.
  { apply Hle. intros i Hi%elem_of_list_range.
    by apply shift_band; [|left]. }
  cbv beta in Hneed, Hhave.
  assert (30 * m <= 12 * n); [|lia]. apply Zle_of_Qle.
  change (inject_Z 30) with 30%Q. change (inject_Z 12) with 12%Q. lra.
Qed.

End Bounds.

(** The bounds the cells write as numbers decide for which dimensions the
    model can have a solution at all.  Every person owes ten mornings and
    ten nights (equations 19 and 20) at one shift a day (equation 13), so
    a horizon under twenty days is infeasible; the six covered sections
    take thirty persons per day and shift (equations 6 to 12), at one
    shift a day each, so fewer than [30·t] persons are not enough; and
    thirty mornings a day at twelve mornings per person at most (equation
    17) need [30·m ≤ 12·n].  Outside these bounds no assignment of values
    to the variables satisfies the model, whatever the competency scores. *)
Theorem infeasible_dimensions n m s t competency :
  1 <= n -> 1 <= m -> 7 <= s -> 2 <= t -> covers competency n = true ->
  m < 20 \/ n < 30 * t \/ 2 * n < 5 * m ->
  exists env mdl,
    build n m s t competency empty_model = Ok (env, mdl) /\
    forall σ, ~ feasible mdl σ.
Proof.
  intros Hn Hm Hs Ht Hc Hdim. eexists _, _. split; [by apply build_ok|].
  intros σ Hfeas.
  pose proof (horizon_bound n m s t competency σ Hn Hm Ht Hfeas).
  pose proof (staff_bound n m s t competency σ Hn Hm Hs Ht Hfeas).
  pose proof (morning_bound n m s t competency σ Hn Hm Hs Ht Hfeas).
  lia.
Qed.

Lemma infeasible_dimensions_witness :
  1 <= 80 /\ 1 <= 7 /\ 7 <= 7 /\ 2 <= 2 /\
  covers (uniform_competency 80 1) 80 = true /\
  (7 < 20 \/ 80 < 30 * 2 \/ 2 * 80 < 5 * 7) /\
  exists env mdl,
    build 80 7 7 2 (uniform_competency 80 1) empty_model = Ok (env, mdl) /\
    forall σ, ~ feasible mdl σ.
Proof.
  split; [lia|]. split; [lia|]. split; [lia|]. split; [lia|].
  split; [by vm_compute|]. split; [lia|].
  apply infeasible_dimensions; [lia|lia|lia|lia|by vm_compute|lia].
Defined.

(** Equation 14 does what its heading says, and with it equation 13 says
    nothing more.  For every person and day the constraint
    [Σ_{k,l} X(i,j,k,l) ≤ 1 − h(i,j)] is in the model, and under any values
    of the binary variables that satisfy it: a person on leave that day
    has no assignment, a person with an assignment has no other that day,
    and the constraint [Σ_{k,l} X(i,j,k,l) ≤ 1] of equation 13 holds.
    The dimensions are those with which the notebook builds a model: a
    person, a day, seven sections, two shifts, and a score for every
    person and section. *)
Theorem leave_day_has_no_shift n m s t competency :
  1 <= n -> 1 <= m -> 7 <= s -> 2 <= t -> covers competency n = true ->
  exists env mdl,
    build n m s t competency empty_model = Ok (env, mdl) /\
    forall i j, 1 <= i <= n -> 1 <= j <= m ->
      mkCt (day_sum s t i j) LE (of_num 1 ⊖ of_var (h_var i j))%expr
        ("Equation_14_No_Work_On_Vacation_" +:+ str i +:+ "_" +:+ str j)
        ∈ constraints mdl /\
      forall σ,
        Forall (in_domain σ) (variables mdl) ->
        holds σ
          (mkCt (day_sum s t i j) LE (of_num 1 ⊖ of_var (h_var i j))%expr
             ("Equation_14_No_Work_On_Vacation_" +:+ str i +:+ "_" +:+ str j)) ->
        (forall k l, 1 <= k <= s -> 1 <= l <= t ->
           (σ (h_var i j) == 1)%Q -> (σ (X_var i j k l) == 0)%Q) /\
        (forall k l k' l',
           1 <= k <= s -> 1 <= l <= t -> 1 <= k' <= s -> 1 <= l' <= t ->
           (k, l) <> (k', l') ->
           (σ (X_var i j k l) == 1)%Q -> (σ (X_var i j k' l') == 0)%Q) /\
        holds σ
          (mkCt (day_sum s t i j) LE (of_num 1)
             ("Equation_13_Single_Shift_Per_Day_" +:+ str i +:+ "_" +:+ str j)).
Proof.
  intros Hn Hm Hs Ht Hc. eexists _, _. split; [by apply build_ok|].
  intros i j Hi Hj. cbn [constraints variables built_model]. split.
  - apply hard_cts_all, hard_cts_cells. right. left. by apply cts_18_member.
  - intros σ Hdom Hholds. split; [|split].
    + intros k l Hk Hl. by apply (leave_is_no_work n m s t σ Hdom i j).
    + intros k l k' l' Hk Hl Hk' Hl'.
      by apply (one_assignment n m s t σ Hdom i j).
    + by apply (single_shift_follows n m s t σ Hdom i j).
Qed.

Lemma leave_day_has_no_shift_witness :
  1 <= 80 /\ 1 <= 30 /\ 7 <= 7 /\ 2 <= 2 /\
  covers (uniform_competency 80 1) 80 = true /\
  exists env mdl,
    build 80 30 7 2 (uniform_competency 80 1) empty_model = Ok (env, mdl) /\
    forall i j, 1 <= i <= 80 -> 1 <= j <= 30 ->
      mkCt (day_sum 7 2 i j) LE (of_num 1 ⊖ of_var (h_var i j))%expr
        ("Equation_14_No_Work_On_Vacation_" +:+ str i +:+ "_" +:+ str j)
        ∈ constraints mdl /\
      forall σ,
        Forall (in_domain σ) (variables mdl) ->
        holds σ
          (mkCt (day_sum 7 2 i j) LE (of_num 1 ⊖ of_var (h_var i j))%expr
             ("Equation_14_No_Work_On_Vacation_" +:+ str i +:+ "_" +:+ str j)) ->
        (forall k l, 1 <= k <= 7 -> 1 <= l <= 2 ->
           (σ (h_var i j) == 1)%Q -> (σ (X_var i j k l) == 0)%Q) /\
        (forall k l k' l',
           1 <= k <= 7 -> 1 <= l <= 2 -> 1 <= k' <= 7 -> 1 <= l' <= 2 ->
           (k, l) <> (k', l') ->
           (σ (X_var i j k l) == 1)%Q -> (σ (X_var i j k' l') == 0)%Q) /\
        holds σ
          (mkCt (day_sum 7 2 i j) LE (of_num 1)
             ("Equation_13_Single_Shift_Per_Day_" +:+ str i +:+ "_" +:+ str j)).
Proof.
  split; [lia|]. split; [lia|]. split; [lia|]. split; [lia|].
  split; [by vm_compute|].
  apply leave_day_has_no_shift; [lia|lia|lia|lia|by vm_compute].
Defined.

(** ** The value of the objective *)

Lemma eval_terms_nonneg (σ : Var -> Q) ts :
  Forall (fun tm : Var * Z => snd tm = 1 /\ (0 <= σ (fst tm))%Q) ts ->
  (0 <= eval_terms σ ts)%Q.
Proof.
  intros Hall. unfold eval_terms. apply sumQ_nonneg.
  apply Forall_forall. intros x (tm & -> & Htm)%list_elem_of_fmap.
  rewrite Forall_forall in Hall. destruct (Hall tm Htm) as [-> Hpos].
  change (inject_Z 1) with 1%Q. lra.
Qed.

(** The objective is a sum of deviations, each with coefficient one, and
    no deviation is negative: under any values within the domains of the
    variables the objective is at least [0], so that the minimisation is
    bounded below.
    The dimensions are those with which the notebook builds a model: a
    person, a day, seven sections, two shifts, and a score for every
    person and section. *)
Theorem objective_bounded_below n m s t competency :
  1 <= n -> 1 <= m -> 7 <= s -> 2 <= t -> covers competency n = true ->
  exists env mdl obj,
    build n m s t competency empty_model = Ok (env, mdl) /\
    objective mdl = Some obj /\
    forall σ, Forall (in_domain σ) (variables mdl) -> (0 <= eval σ obj)%Q.
Proof.
  intros Hn Hm Hs Ht Hc. eexists _, _, _. split; [by apply build_ok|].
  split; [done|]. cbn [variables built_model]. intros σ Hdom.
  unfold eval. rewrite spec_objective_constant.
  change (inject_Z 0) with 0%Q.
  assert (0 <= eval_terms σ (terms (spec_objective n m t)))%Q; [|lra].
  apply eval_terms_nonneg.
  pose proof (spec_objective_unit n m t) as Hunit.
  pose proof (spec_objective_penalised n m t) as Hpen.
  rewrite Forall_forall in Hunit. rewrite Forall_forall in Hpen.
  rewrite Forall_forall in Hdom.
  apply Forall_forall. intros tm Htm. split; [by apply Hunit|].
  assert (fst tm ∈ expr_vars (spec_objective n m t)) as Hin
    by (apply list_elem_of_fmap; by exists tm).
  destruct (Hpen _ Hin) as (over & g & key & Heq & _).
  pose proof (Hdom _ (objective_declared n m s t _ Hin)) as Hv.
  rewrite Heq in Hv. unfold in_domain in Hv. cbn in Hv. by rewrite Heq.
Qed.

Lemma objective_bounded_below_witness :
  1 <= 80 /\ 1 <= 30 /\ 7 <= 7 /\ 2 <= 2 /\
  covers (uniform_competency 80 1) 80 = true /\
  exists env mdl obj,
    build 80 30 7 2 (uniform_competency 80 1) empty_model = Ok (env, mdl) /\
    objective mdl = Some obj /\
    forall σ, Forall (in_domain σ) (variables mdl) -> (0 <= eval σ obj)%Q.
Proof.
  split; [lia|]. split; [lia|]. split; [lia|]. split; [lia|].
  split; [by vm_compute|].
  apply objective_bounded_below; [lia|lia|lia|lia|by vm_compute].
Defined.

(** ** The dictionary of the solve cell *)

Lemma dict_set_fresh {V} (d : list (string * V)) k v :
  k ∉ d.*1 -> dict_set d k v = d ++ [(k, v)].
Proof.
  induction d as [|[k' v'] d IH]; intros Hk; [done|].
  cbn [dict_set]. rewrite fmap_cons, not_elem_of_cons in Hk.
  destruct Hk as [Hne Hk]. cbn [fst] in Hne.
  rewrite decide_False by done. cbn [app]. by rewrite IH.
Qed.

(** Filled from variables whose names are pairwise distinct, the
    dictionary grows by one entry per variable. *)
Lemma fill_distinct {V} (value : Var -> V) (vs : list Var) d :
  NoDup (map var_name vs) ->
  (forall v, v ∈ vs -> var_name v ∉ d.*1) ->
  fold_left (fun d var => dict_set d (var_name var) (value var)) vs d
  = d ++ map (fun var => (var_name var, value var)) vs.
Proof.
  revert d. induction vs as [|v vs IH]; intros d Hnd Hfresh.
  - cbn. by rewrite app_nil_r.
  - cbn [fold_left map]. apply NoDup_cons in Hnd as [Hv Hnd].
    rewrite dict_set_fresh by (apply Hfresh; by left).
    rewrite IH; [by rewrite <- app_assoc|done|].
    intros w Hw. rewrite fmap_app, elem_of_app. intros [Hin|Hin].
    + by apply (Hfresh w); [right|].
    + cbn in Hin. apply list_elem_of_singleton in Hin.
      apply Hv. rewrite <- Hin. apply list_elem_of_fmap. by exists w.
Qed.

Lemma declared_names_distinct n m s t :
  NoDup (map var_name (declared_variables n m s t)).
Proof.
  rewrite declared_variables_tagged, map_map.
  apply NoDup_fmap_2_strong; [|apply declared_tagged_distinct].
  intros [f key] [f' key'] Hin Hin' Heq. cbn in Heq.
  apply declared_tagged_arity in Hin, Hin'.
  apply encode_inj in Heq as [-> ->]; done.
Qed.

(** The dictionary the solve cell builds from a solution, keyed by
    variable name, loses nothing: it holds one entry per variable of the
    model, in creation order, each with the name and the value of its
    variable, and no entry is overwritten by a variable of the same name.
    These are the rows written to [solution.xlsx].
    The dimensions are those with which the notebook builds a model: a
    person, a day, seven sections, two shifts, and a score for every
    person and section. *)
Theorem solution_dict_has_every_variable n m s t competency :
  1 <= n -> 1 <= m -> 7 <= s -> 2 <= t -> covers competency n = true ->
  exists env mdl,
    build n m s t competency empty_model = Ok (env, mdl) /\
    forall (V : Type) (solution_value : Var -> V),
      solution_dict solution_value mdl
      = map (fun var => (var_name var, solution_value var)) (variables mdl) /\
      length (solution_dict solution_value mdl) = length (variables mdl) /\
      NoDup (solution_dict solution_value mdl).*1.
Proof.
  intros Hn Hm Hs Ht Hc. eexists _, _. split; [by apply build_ok|].
  intros V value. unfold solution_dict. cbn [variables built_model].
  rewrite fill_distinct;
    [|apply declared_names_distinct|intros v _; apply not_elem_of_nil].
  cbn [app]. split; [done|]. split; [by rewrite length_map|].
  rewrite <- list_fmap_compose.
  apply (declared_names_distinct n m s t).
Qed.

Lemma solution_dict_has_every_variable_witness :
  1 <= 80 /\ 1 <= 30 /\ 7 <= 7 /\ 2 <= 2 /\
  covers (uniform_competency 80 1) 80 = true /\
  exists env mdl,
    build 80 30 7 2 (uniform_competency 80 1) empty_model = Ok (env, mdl) /\
    forall (V : Type) (solution_value : Var -> V),
      solution_dict solution_value mdl
      = map (fun var => (var_name var, solution_value var)) (variables mdl) /\
      length (solution_dict solution_value mdl) = length (variables mdl) /\
      NoDup (solution_dict solution_value mdl).*1.
Proof.
  split; [lia|]. split; [lia|]. split; [lia|]. split; [lia|].
  split; [by vm_compute|].
  apply solution_dict_has_every_variable; [lia|lia|lia|lia|by vm_compute].
Defined.

(** ** The labels of the constraints *)

Lemma pair_suffix_inj i j i' j' :
  str i +:+ "_" +:+ str j = str i' +:+ "_" +:+ str j' -> i = i' /\ j = j'.
Proof.
  intros Heq. apply (f_equal (split_on "_")) in Heq.
  change ("_" +:+ str j) with (String "_" (str j)) in Heq.
  change ("_" +:+ str j') with (String "_" (str j')) in Heq.
  rewrite !split_on_app, !split_on_no_sep in Heq by apply str_no_sep.
  injection Heq as Hi Hj. split; by apply str_inj.
Qed.

Lemma day_shift_suffix_inj j l j' l' :
  str j +:+ "_Shift_" +:+ str l = str j' +:+ "_Shift_" +:+ str l' ->
  j = j' /\ l = l'.
Proof.
  intros Heq. apply (f_equal (split_on "_")) in Heq.
  change ("_Shift_" +:+ str l) with (String "_" ("Shift" +:+ String "_" (str l))) in Heq.
  change ("_Shift_" +:+ str l') with (String "_" ("Shift" +:+ String "_" (str l'))) in Heq.
  assert (no_sep "_" "Shift") as Hshift by (repeat split; discriminate).
  rewrite !split_on_app, !split_on_no_sep in Heq by (done || apply str_no_sep).
  injection Heq as Hj Hl. split; by apply str_inj.
Qed.

Lemma map_bind {A C D} (g : C -> D) (f : A -> list C) l :
  map g (l ≫= f) = l ≫= (fun a => map g (f a)).
Proof.
  induction l as [|a l IH]; [done|].
  by rewrite !bind_cons, map_app, IH.
Qed.

Lemma map_bind_pairs {A B C D} (g : C -> D) (f : A -> B -> list C) l1 l2 :
  map g (a ← l1; b ← l2; f a b) = (a ← l1; b ← l2; map g (f a b)).
Proof.
  rewrite map_bind. apply list_bind_ext; [|done]. intros a.
  by rewrite map_bind.
Qed.

Lemma NoDup_bind_pairs {A B C} (f : A -> B -> list C) l1 l2 :
  NoDup l1 -> NoDup l2 ->
  (forall a b, NoDup (f a b)) ->
  (forall a b a' b' y, y ∈ f a b -> y ∈ f a' b' -> a = a' /\ b = b') ->
  NoDup (a ← l1; b ← l2; f a b).
Proof.
  intros H1 H2 Hf Hinj. apply NoDup_bind; [| |done].
  - intros a a' y _ _ (b & Hy & _)%list_elem_of_bind
      (b' & Hy' & _)%list_elem_of_bind.
    by destruct (Hinj _ _ _ _ _ Hy Hy').
  - intros a _. apply NoDup_bind; [| |done].
    + intros b b' y _ _ Hy Hy'. by destruct (Hinj _ _ _ _ _ Hy Hy').
    + intros b _. apply Hf.
Qed.

Lemma NoDup_bind_single {A C} (f : A -> list C) l :
  NoDup l -> (forall a, NoDup (f a)) ->
  (forall a a' y, y ∈ f a -> y ∈ f a' -> a = a') ->
  NoDup (a ← l; f a).
Proof.
  intros Hl Hf Hinj. apply NoDup_bind; [| |done].
  - intros a a' y _ _ Hy Hy'. by apply (Hinj _ _ y).
  - intros a _. apply Hf.
Qed.

(** Two segments of constraints whose labels belong to equations in
    increasing order. *)
Lemma labels_chain (a b : list Constraint) (lo hi lo' : nat) :
  NoDup (map ct_name a) ->
  Forall (fun c => (lo <= label_of c <= hi)%nat) a ->
  (lo <= hi < lo')%nat ->
  NoDup (map ct_name b) /\ Forall (fun c => (lo' <= label_of c)%nat) b ->
  NoDup (map ct_name (a ++ b))
  /\ Forall (fun c => (lo <= label_of c)%nat) (a ++ b).
Proof.
  intros Ha Hta Hlt [Hb Htb]. split.
  - rewrite map_app. apply NoDup_app. split; [done|]. split; [|done].
    intros name (c & -> & Hc)%list_elem_of_fmap (c' & Heq & Hc')%list_elem_of_fmap.
    rewrite Forall_forall in Hta. rewrite Forall_forall in Htb.
    specialize (Hta _ Hc). specialize (Htb _ Hc').
    unfold label_of in *. rewrite Heq in Hta. lia.
  - apply Forall_app. split.
    + eapply Forall_impl; [exact Hta|]. cbn. lia.
    + eapply Forall_impl; [exact Htb|]. cbn. lia.
Qed.

(** *** The shapes of the cells *)

(** A cell that adds one constraint per pair of indices, labelled with a
    beginning of its own followed by the two indices. *)
Lemma pair_cell_labels (mk : Z -> Z -> Constraint) p l1 l2 k :
  (forall a b, ct_name (mk a b) = p +:+ str a +:+ "_" +:+ str b) ->
  (forall tail, label_index label_prefixes (p +:+ tail) = k) ->
  NoDup l1 -> NoDup l2 ->
  NoDup (map ct_name (a ← l1; b ← l2; [mk a b]))
  /\ Forall (fun c => (k <= label_of c <= k)%nat) (a ← l1; b ← l2; [mk a b]).
Proof.
  intros Hname Htag H1 H2. split.
  - rewrite map_bind_pairs. apply NoDup_bind_pairs; [done|done| |].
    + intros. apply NoDup_singleton.
    + intros a b a' b' y ->%list_elem_of_singleton Heq%list_elem_of_singleton.
      rewrite !Hname in Heq. apply String.app_inj in Heq.
      by apply pair_suffix_inj.
  - apply Forall_forall. intros c Hc. bind_inv.
    unfold label_of. rewrite Hname, Htag. lia.
Qed.

(** The same for the coverage cells, whose labels name the day and the
    shift. *)
Lemma day_shift_cell_labels (mk : Z -> Z -> Constraint) p l1 l2 k :
  (forall a b, ct_name (mk a b) = p +:+ str a +:+ "_Shift_" +:+ str b) ->
  (forall tail, label_index label_prefixes (p +:+ tail) = k) ->
  NoDup l1 -> NoDup l2 ->
  NoDup (map ct_name (a ← l1; b ← l2; [mk a b]))
  /\ Forall (fun c => (k <= label_of c <= k)%nat) (a ← l1; b ← l2; [mk a b]).
Proof.
  intros Hname Htag H1 H2. split.
  - rewrite map_bind_pairs. apply NoDup_bind_pairs; [done|done| |].
    + intros. apply NoDup_singleton.
    + intros a b a' b' y ->%list_elem_of_singleton Heq%list_elem_of_singleton.
      rewrite !Hname in Heq. apply String.app_inj in Heq.
      by apply day_shift_suffix_inj.
  - apply Forall_forall. intros c Hc. bind_inv.
    unfold label_of. rewrite Hname, Htag. lia.
Qed.

(** A cell that adds one constraint per person. *)
Lemma person_cell_labels (mk : Z -> Constraint) p l k :
  (forall a, ct_name (mk a) = p +:+ str a) ->
  (forall tail, label_index label_prefixes (p +:+ tail) = k) ->
  NoDup l ->
  NoDup (map ct_name (a ← l; [mk a]))
  /\ Forall (fun c => (k <= label_of c <= k)%nat) (a ← l; [mk a]).
Proof.
  intros Hname Htag Hl. split.
  - rewrite map_bind. apply NoDup_bind_single; [done| |].
    + intros. apply NoDup_singleton.
    + intros a a' y ->%list_elem_of_singleton Heq%list_elem_of_singleton.
      rewrite !Hname in Heq. apply String.app_inj in Heq.
      by apply str_inj.
  - apply Forall_forall. intros c Hc. bind_inv.
    unfold label_of. rewrite Hname, Htag. lia.
Qed.

(** A cell that adds two constraints per pair of indices, under two
    beginnings. *)
Lemma pair_cell_labels_2 (mk1 mk2 : Z -> Z -> Constraint) p1 p2 l1 l2 k :
  (forall a b, ct_name (mk1 a b) = p1 +:+ str a +:+ "_" +:+ str b) ->
  (forall a b, ct_name (mk2 a b) = p2 +:+ str a +:+ "_" +:+ str b) ->
  (forall tail, label_index label_prefixes (p1 +:+ tail) = k) ->
  (forall tail, label_index label_prefixes (p2 +:+ tail) = S k) ->
  NoDup l1 -> NoDup l2 ->
  NoDup (map ct_name (a ← l1; b ← l2; [mk1 a b; mk2 a b]))
  /\ Forall (fun c => (k <= label_of c <= S k)%nat)
       (a ← l1; b ← l2; [mk1 a b; mk2 a b]).
Proof.
  intros Hname1 Hname2 Htag1 Htag2 H1 H2.
  assert (forall a b a' b', ct_name (mk1 a b) <> ct_name (mk2 a' b')) as Hne.
  { intros a b a' b' Heq.
    apply (f_equal (label_index label_prefixes)) in Heq.
    rewrite Hname1, Hname2, Htag1, Htag2 in Heq. lia. }
  split.
  - rewrite map_bind_pairs. apply NoDup_bind_pairs; [done|done| |].
    + intros a b. cbn [map]. apply NoDup_cons. split; [|apply NoDup_singleton].
      intros Heq%list_elem_of_singleton. by apply Hne in Heq.
    + intros a b a' b' y. cbn [map]. rewrite !elem_of_cons, !elem_of_nil.
      intros [->|[->|[]]] [Heq|[Heq|[]]].
      * rewrite !Hname1 in Heq. apply String.app_inj in Heq.
        by apply pair_suffix_inj.
      * by apply Hne in Heq.
      * symmetry in Heq. by apply Hne in Heq.
      * rewrite !Hname2 in Heq. apply String.app_inj in Heq.
        by apply pair_suffix_inj.
  - apply Forall_forall. intros c Hc. bind_inv.
    apply elem_of_cons in Hc as [->|Hc%list_elem_of_singleton]; [|subst c];
      unfold label_of; rewrite ?Hname1, ?Hname2, ?Htag1, ?Htag2; lia.
Qed.

(** A cell that adds two constraints per person. *)
Lemma person_cell_labels_2 (mk1 mk2 : Z -> Constraint) p1 p2 l k :
  (forall a, ct_name (mk1 a) = p1 +:+ str a) ->
  (forall a, ct_name (mk2 a) = p2 +:+ str a) ->
  (forall tail, label_index label_prefixes (p1 +:+ tail) = k) ->
  (forall tail, label_index label_prefixes (p2 +:+ tail) = S k) ->
  NoDup l ->
  NoDup (map ct_name (a ← l; [mk1 a; mk2 a]))
  /\ Forall (fun c => (k <= label_of c <= S k)%nat) (a ← l; [mk1 a; mk2 a]).
Proof.
  intros Hname1 Hname2 Htag1 Htag2 Hl.
  assert (forall a a', ct_name (mk1 a) <> ct_name (mk2 a')) as Hne.
  { intros a a' Heq.
    apply (f_equal (label_index label_prefixes)) in Heq.
    rewrite Hname1, Hname2, Htag1, Htag2 in Heq. lia. }
  split.
  - rewrite map_bind. apply NoDup_bind_single; [done| |].
    + intros a. cbn [map]. apply NoDup_cons. split; [|apply NoDup_singleton].
      intros Heq%list_elem_of_singleton. by apply Hne in Heq.
    + intros a a' y. cbn [map]. rewrite !elem_of_cons, !elem_of_nil.
      intros [->|[->|[]]] [Heq|[Heq|[]]].
      * rewrite !Hname1 in Heq. apply String.app_inj in Heq.
        by apply str_inj.
      * by apply Hne in Heq.
      * symmetry in Heq. by apply Hne in Heq.
      * rewrite !Hname2 in Heq. apply String.app_inj in Heq.
        by apply str_inj.
  - apply Forall_forall. intros c Hc. bind_inv.
    apply elem_of_cons in Hc as [->|Hc%list_elem_of_singleton]; [|subst c];
      unfold label_of; rewrite ?Hname1, ?Hname2, ?Htag1, ?Htag2; lia.
Qed.

Section Labels.

Variables n m s t : Z.
Variable competency : gmap Z (gmap Z Z).

Lemma all_cts_labels :
  NoDup (map ct_name (all_cts n m s t competency))
  /\ Forall (fun c => (0 <= label_of c)%nat) (all_cts n m s t competency).
Proof.
  unfold all_cts, hard_cts, goal_cts. rewrite <- !app_assoc.
  pose proof (NoDup_list_range n) as Hn.
  pose proof (NoDup_list_range m) as Hm.
  pose proof (NoDup_list_range t) as Ht.
  pose proof (NoDup_list_range (m - 6)) as Hm6.
  pose proof (NoDup_list_range (m - 1)) as Hm1.
  pose proof (NoDup_list_range (m - 2)) as Hm2.
  eapply (labels_chain _ _ 0 0 1);
    [eapply (day_shift_cell_labels _ "Equation_6_Personnel_Requirement_Section_1_Day_" _ _ 0); done
    |eapply (day_shift_cell_labels _ "Equation_6_Personnel_Requirement_Section_1_Day_" _ _ 0); done|lia|].
  eapply (labels_chain _ _ 1 1 2);
    [eapply (day_shift_cell_labels _ "Equation_7_Personnel_Requirement_Section_2_Day_" _ _ 1); done
    |eapply (day_shift_cell_labels _ "Equation_7_Personnel_Requirement_Section_2_Day_" _ _ 1); done|lia|].
  eapply (labels_chain _ _ 2 2 3);
    [eapply (day_shift_cell_labels _ "Equation_8_Personnel_Requirement_Section_3_Day_" _ _ 2); done
    |eapply (day_shift_cell_labels _ "Equation_8_Personnel_Requirement_Section_3_Day_" _ _ 2); done|lia|].
  eapply (labels_chain _ _ 3 3 4);
    [eapply (day_shift_cell_labels _ "Equation_9_Personnel_Requirement_Section_4_Day_" _ _ 3); done
    |eapply (day_shift_cell_labels _ "Equation_9_Personnel_Requirement_Section_4_Day_" _ _ 3); done|lia|].
  eapply (labels_chain _ _ 4 4 5);
    [eapply (day_shift_cell_labels _ "Equation_10_Personnel_Requirement_Section_5_Day_" _ _ 4); done
    |eapply (day_shift_cell_labels _ "Equation_10_Personnel_Requirement_Section_5_Day_" _ _ 4); done|lia|].
  eapply (labels_chain _ _ 5 5 6);
    [eapply (day_shift_cell_labels _ "Equation_11_Personnel_Requirement_Section_6_Day_" _ _ 5); done
    |eapply (day_shift_cell_labels _ "Equation_11_Personnel_Requirement_Section_6_Day_" _ _ 5); done|lia|].
  eapply (labels_chain _ _ 6 6 7);
    [eapply (day_shift_cell_labels _ "Equation_12_Personnel_Requirement_Section_7_Day_" _ _ 6); done
    |eapply (day_shift_cell_labels _ "Equation_12_Personnel_Requirement_Section_7_Day_" _ _ 6); done|lia|].
  eapply (labels_chain _ _ 7 7 8);
    [eapply (pair_cell_labels _ "Equation_13_Single_Shift_Per_Day_" _ _ 7); done
    |eapply (pair_cell_labels _ "Equation_13_Single_Shift_Per_Day_" _ _ 7); done|lia|].
  eapply (labels_chain _ _ 8 8 9);
    [eapply (pair_cell_labels _ "Equation_14_No_Work_On_Vacation_" _ _ 8); done
    |eapply (pair_cell_labels _ "Equation_14_No_Work_On_Vacation_" _ _ 8); done|lia|].
  eapply (labels_chain _ _ 9 10 11);
    [eapply (pair_cell_labels_2 _ _ "Equation_15_Max_2_Vacations_7_Days_" "Equation_16_Min_1_Vacation_7_Days_" _ _ 9); done
    |eapply (pair_cell_labels_2 _ _ "Equation_15_Max_2_Vacations_7_Days_" "Equation_16_Min_1_Vacation_7_Days_" _ _ 9); done|lia|].
  eapply (labels_chain _ _ 11 12 13);
    [eapply (person_cell_labels_2 _ _ "Equation_17_Max_Shift_1_Assignments_" "Equation_18_Max_Shift_2_Assignments_" _ 11); done
    |eapply (person_cell_labels_2 _ _ "Equation_17_Max_Shift_1_Assignments_" "Equation_18_Max_Shift_2_Assignments_" _ 11); done|lia|].
  eapply (labels_chain _ _ 13 14 15);
    [eapply (person_cell_labels_2 _ _ "Equation_19_Min_Shift_1_Assignments_" "Equation_20_Min_Shift_2_Assignments_" _ 13); done
    |eapply (person_cell_labels_2 _ _ "Equation_19_Min_Shift_1_Assignments_" "Equation_20_Min_Shift_2_Assignments_" _ 13); done|lia|].
  eapply (labels_chain _ _ 15 15 16);
    [eapply (pair_cell_labels _ "Equation_21_No_Night_To_Morning_Consecutive_Shift_" _ _ 15); done
    |eapply (pair_cell_labels _ "Equation_21_No_Night_To_Morning_Consecutive_Shift_" _ _ 15); done|lia|].
  eapply (labels_chain _ _ 16 16 17);
    [eapply (pair_cell_labels _ "Goal_Constraint_Equation_22_" _ _ 16); done
    |eapply (pair_cell_labels _ "Goal_Constraint_Equation_22_" _ _ 16); done|lia|].
  eapply (labels_chain _ _ 17 17 18);
    [eapply (pair_cell_labels _ "Goal_Constraint_Equation_23_" _ _ 17); done
    |eapply (pair_cell_labels _ "Goal_Constraint_Equation_23_" _ _ 17); done|lia|].
  eapply (labels_chain _ _ 18 18 19);
    [eapply (person_cell_labels _ "Goal_Constraint_Equation_24_" _ 18); done
    |eapply (person_cell_labels _ "Goal_Constraint_Equation_24_" _ 18); done|lia|].
  eapply (labels_chain _ _ 19 19 20);
    [eapply (pair_cell_labels _ "Equation_25_" _ _ 19); done
    |eapply (pair_cell_labels _ "Equation_25_" _ _ 19); done|lia|].
  eapply (labels_chain _ _ 20 20 21);
    [eapply (pair_cell_labels _ "Equation_26_" _ _ 20); done
    |eapply (pair_cell_labels _ "Equation_26_" _ _ 20); done|lia|].
  eapply (labels_chain _ _ 21 21 22);
    [eapply (pair_cell_labels _ "Equation_27_" _ _ 21); done
    |eapply (pair_cell_labels _ "Equation_27_" _ _ 21); done|lia|].
  eapply (labels_chain _ _ 22 22 23);
    [eapply (pair_cell_labels _ "Equation_28_" _ _ 22); done
    |eapply (pair_cell_labels _ "Equation_28_" _ _ 22); done|lia|].
  eapply (labels_chain _ _ 23 23 24);
    [eapply (pair_cell_labels _ "Equation_29_" _ _ 23); done
    |eapply (pair_cell_labels _ "Equation_29_" _ _ 23); done|lia|].
  eapply (labels_chain _ _ 24 24 25);
    [eapply (pair_cell_labels _ "Equation_30_" _ _ 24); done
    |eapply (pair_cell_labels _ "Equation_30_" _ _ 24); done|lia|].
  split.
  - eapply (pair_cell_labels _ "Equation_31_" _ _ 25); done.
  - eapply Forall_impl; [eapply (pair_cell_labels _ "Equation_31_" _ _ 25); done|].
    cbn. lia.
Qed.

End Labels.

(** No two constraints of the model have the same label: within a cell
    the labels differ by their indices, and the labels of two cells begin
    with different equation numbers.  The label of a constraint tells the
    cell and the index tuple it was written for.
    The dimensions are those with which the notebook builds a model: a
    person, a day, seven sections, two shifts, and a score for every
    person and section. *)
Theorem constraint_labels_distinct n m s t competency :
  1 <= n -> 1 <= m -> 7 <= s -> 2 <= t -> covers competency n = true ->
  exists env mdl,
    build n m s t competency empty_model = Ok (env, mdl) /\
    NoDup (map ct_name (constraints mdl)).
Proof.
  intros Hn Hm Hs Ht Hc. eexists _, _. split; [by apply build_ok|].
  cbn [constraints built_model]. apply all_cts_labels.
Qed.

Lemma constraint_labels_distinct_witness :
  1 <= 80 /\ 1 <= 30 /\ 7 <= 7 /\ 2 <= 2 /\
  covers (uniform_competency 80 1) 80 = true /\
  exists env mdl,
    build 80 30 7 2 (uniform_competency 80 1) empty_model = Ok (env, mdl) /\
    NoDup (map ct_name (constraints mdl)).
Proof.
  split; [lia|]. split; [lia|]. split; [lia|]. split; [lia|].
  split; [by vm_compute|].
  apply constraint_labels_distinct; [lia|lia|lia|lia|by vm_compute].
Defined.

(** ** The goal constraints restrict nothing *)

Lemma positive_part_nonneg x : (0 <= positive_part x)%Q.
Proof.
  unfold positive_part. destruct (Qle_bool 0 x) eqn:Hx; [|lra].
  by apply Qle_bool_iff.
Qed.

Lemma positive_part_difference x :
  (positive_part x - positive_part (- x) == x)%Q.
Proof.
  unfold positive_part.
  destruct (Qle_bool 0 x) eqn:Hx; destruct (Qle_bool 0 (- x)) eqn:Hy;
    try apply Qle_bool_iff in Hx; try apply Qle_bool_iff in Hy; try lra.
  assert (~ (0 <= x)%Q) by (rewrite <- Qle_bool_iff; congruence).
  assert (~ (0 <= - x)%Q) by (rewrite <- Qle_bool_iff; congruence).
  lra.
Qed.

(** The value of an expression depends on the values of its variables
    only. *)
Lemma eval_ext (σ σ' : Var -> Q) e :
  (forall v, v ∈ expr_vars e -> σ v = σ' v) -> eval σ e = eval σ' e.
Proof.
  intros Hv. unfold eval, eval_terms. do 2 f_equal.
  apply map_ext_in. intros tm Htm%list_elem_of_In. f_equal. apply Hv.
  apply list_elem_of_fmap. by exists tm.
Qed.

Lemma holds_ext (σ σ' : Var -> Q) c :
  (forall v, v ∈ ct_vars c -> σ v = σ' v) -> holds σ c -> holds σ' c.
Proof.
  intros Hv. unfold holds.
  rewrite (eval_ext σ σ' (ct_lhs c)), (eval_ext σ σ' (ct_rhs c)); [done| |];
    intros v Hin; apply Hv; unfold ct_vars; apply elem_of_app; auto.
Qed.

Section Absorb.

Variables n m s t : Z.
Variable competency : gmap Z (gmap Z Z).
Variable σ : Var -> Q.
Abbreviation σ' := (absorb n m s t competency σ).

Lemma absorb_binary v : var_type v = Binary -> σ' v = σ v.
Proof. intros Hv. unfold absorb. by rewrite Hv. Qed.

Lemma absorb_deviation over g key :
  length key = arity (FamD over g) ->
  σ' (var_of (FamD over g) key)
  = let gap := (eval σ (achieved n m s t competency g key)
                - inject_Z (goal_target g))%Q in
    if over then positive_part gap else positive_part (- gap).
Proof.
  intros Hlen. unfold absorb. cbn [var_type var_of family_type var_name].
  by rewrite decode_encode.
Qed.

(** The absorbed solution is within the domain of every declared
    variable as soon as [σ] is within that of the binary ones. *)
Lemma absorb_domain v :
  v ∈ declared_variables n m s t ->
  (var_type v = Binary -> in_domain σ v) -> in_domain σ' v.
Proof.
  intros Hv Hbin. unfold in_domain in *.
  destruct (var_type v) eqn:Htype.
  - rewrite absorb_binary by done. by apply Hbin.
  - unfold absorb. rewrite Htype.
    destruct (decode (var_name v)) as [[[| |over g] key]|]; try lra.
    cbn zeta. destruct over; apply positive_part_nonneg.
Qed.

Lemma absorb_assignments e :
  Forall (fun v => is_assignment v \/ is_leave v) (expr_vars e) ->
  eval σ' e = eval σ e.
Proof.
  intros Hall. apply eval_ext. intros v Hv.
  rewrite Forall_forall in Hall. apply absorb_binary.
  destruct (Hall v Hv) as [(i & j & k & l & ->)|(i & j & ->)]; done.
Qed.

(** A goal constraint holds under the absorbed solution: the two
    deviations make up for the gap between what is achieved and the
    target. *)
Lemma absorb_goal over_n over_p g key e tgt name :
  over_n = false -> over_p = true ->
  length key = arity (FamD false g) ->
  achieved n m s t competency g key = e ->
  goal_target g = tgt ->
  Forall (fun v => is_assignment v \/ is_leave v) (expr_vars e) ->
  holds σ' (mkCt (esub (eadd e (of_var (var_of (FamD over_n g) key)))
                    (of_var (var_of (FamD over_p g) key)))
              EQ (of_num tgt) name).
Proof.
  intros -> -> Hlen He Htgt Hbin. unfold holds. cbn [ct_sense ct_lhs ct_rhs].
  pose proof (eval_esub σ' (eadd e (of_var (var_of (FamD false g) key)))
                (of_var (var_of (FamD true g) key))) as H1.
  pose proof (eval_eadd σ' e (of_var (var_of (FamD false g) key))) as H2.
  pose proof (eval_of_var σ' (var_of (FamD false g) key)) as H3.
  pose proof (eval_of_var σ' (var_of (FamD true g) key)) as H4.
  pose proof (eval_of_num σ' tgt) as H5.
  rewrite absorb_deviation in H3 by done.
  rewrite absorb_deviation in H4 by done.
  cbn zeta in H3, H4. rewrite He, Htgt in H3, H4.
  rewrite (absorb_assignments e Hbin) in H2.
  pose proof (positive_part_difference (eval σ e - inject_Z tgt)).
  lra.
Qed.

(** *** The goal cells *)

Lemma assignments_plain e :
  Forall is_assignment (expr_vars e) ->
  Forall (fun v => is_assignment v \/ is_leave v) (expr_vars e).
Proof. intros He. eapply Forall_impl; [exact He|]. intros v Hv. by left. Qed.

Lemma leave_plain i j :
  Forall (fun v => is_assignment v \/ is_leave v)
    (expr_vars (of_var (h_var i j))).
Proof. apply Forall_of_var. right. by exists i, j. Qed.

Lemma quality_cts_absorbed k dn dp g tgt label c :
  4 <= g <= 10 -> g - 3 = k -> goal_target g = tgt ->
  dev_var dn = d_neg g -> dev_var dp = d_pos g ->
  c ∈ quality_cts n m t competency k dn dp tgt label -> holds σ' c.
Proof.
  intros Hg Hk Htgt Hdn Hdp Hc. unfold quality_cts in Hc. member_of_cell.
  unfold quality_lhs. rewrite Hdn, Hdp.
  apply (absorb_goal false true g); try done.
  - cbn. by rewrite decide_False by lia.
  - unfold achieved. rewrite !decide_False by lia. by rewrite Hk.
  - apply assignments_plain, quality_sum_assignment.
Qed.

Lemma goal_cts_absorbed c :
  c ∈ goal_cts n m s t competency -> holds σ' c.
Proof.
  unfold goal_cts. intros Hc.
  apply elem_of_app in Hc as [Hc|Hc].
  { unfold cts_23 in Hc. member_of_cell. unfold goal_1_lhs.
    apply (absorb_goal false true 1 [_; _]); try done.
    rewrite !expr_vars_eadd, !Forall_app.
    repeat split; [apply leave_plain| |apply leave_plain].
    apply assignments_plain, day_sum_assignment. }
  apply elem_of_app in Hc as [Hc|Hc].
  { unfold cts_24 in Hc. member_of_cell. unfold goal_2_lhs.
    apply (absorb_goal false true 2 [_; _]); try done.
    rewrite !expr_vars_eadd, !Forall_app.
    repeat split; [|apply leave_plain|];
      apply assignments_plain, day_sum_assignment. }
  apply elem_of_app in Hc as [Hc|Hc].
  { unfold cts_25 in Hc. member_of_cell. unfold goal_3_lhs.
    apply (absorb_goal false true 3 [_]); try done.
    apply assignments_plain, person_sum_assignment. }
  apply elem_of_app in Hc as [Hc|Hc].
  { by apply (quality_cts_absorbed _ _ _ 4) in Hc. }
  apply elem_of_app in Hc as [Hc|Hc].
  { by apply (quality_cts_absorbed _ _ _ 5) in Hc. }
  apply elem_of_app in Hc as [Hc|Hc].
  { by apply (quality_cts_absorbed _ _ _ 6) in Hc. }
  apply elem_of_app in Hc as [Hc|Hc].
  { by apply (quality_cts_absorbed _ _ _ 7) in Hc. }
  apply elem_of_app in Hc as [Hc|Hc].
  { by apply (quality_cts_absorbed _ _ _ 8) in Hc. }
  apply elem_of_app in Hc as [Hc|Hc].
  { by apply (quality_cts_absorbed _ _ _ 9) in Hc. }
  by apply (quality_cts_absorbed _ _ _ 10) in Hc.
Qed.

(** *** The hard cells *)

Lemma hard_cts_plain c :
  c ∈ hard_cts n m s t ->
  Forall (fun v => is_assignment v \/ is_leave v) (ct_vars c).
Proof.
  unfold hard_cts. intros Hc.
  do 7 (apply elem_of_app in Hc as [Hc|Hc];
        [unfold coverage_cts in Hc; member_of_cell;
         unfold ct_vars; cbn [ct_lhs ct_rhs]; apply Forall_app;
         split; [apply assignments_plain, headcount_assignment|constructor]|]).
  apply elem_of_app in Hc as [Hc|Hc].
  { unfold cts_17 in Hc. member_of_cell.
    unfold ct_vars. cbn [ct_lhs ct_rhs]. apply Forall_app.
    split; [apply assignments_plain, day_sum_assignment|constructor]. }
  apply elem_of_app in Hc as [Hc|Hc].
  { unfold cts_18 in Hc. member_of_cell.
    unfold ct_vars. cbn [ct_lhs ct_rhs]. rewrite expr_vars_esub, !Forall_app.
    repeat split; [apply assignments_plain, day_sum_assignment|constructor|].
    apply leave_plain. }
  apply elem_of_app in Hc as [Hc|Hc].
  { unfold cts_19, window_max, window_min in Hc. member_of_cell;
      unfold ct_vars; cbn [ct_lhs ct_rhs]; apply Forall_app;
      (split; [|constructor]);
      (eapply Forall_impl; [apply window_sum_leave|]); by right. }
  apply elem_of_app in Hc as [Hc|Hc].
  { unfold cts_20 in Hc. member_of_cell;
      unfold ct_vars; cbn [ct_lhs ct_rhs]; apply Forall_app;
      (split; [apply assignments_plain, shift_sum_assignment|constructor]). }
  apply elem_of_app in Hc as [Hc|Hc].
  { unfold cts_21 in Hc. member_of_cell;
      unfold ct_vars; cbn [ct_lhs ct_rhs]; apply Forall_app;
      (split; [apply assignments_plain, shift_sum_assignment|constructor]). }
  unfold cts_22 in Hc. member_of_cell.
  unfold ct_vars. cbn [ct_lhs ct_rhs].
  rewrite expr_vars_eadd, !Forall_app.
  repeat split; [apply assignments_plain, sections_sum_assignment..|constructor].
Qed.

Lemma hard_cts_absorbed c :
  c ∈ hard_cts n m s t -> holds σ c -> holds σ' c.
Proof.
  intros Hc. apply holds_ext. intros v Hv. symmetry. apply absorb_binary.
  pose proof (hard_cts_plain c Hc) as Hall. rewrite Forall_forall in Hall.
  destruct (Hall v Hv) as [(i & j & k & l & ->)|(i & j & ->)]; done.
Qed.

End Absorb.

(** The goal constraints restrict nothing: they only measure.  Take any
    values of the binary variables that are within their domains and
    satisfy the constraints written over binary variables alone, which
    are the hard constraints of equations 6 to 21.  Giving every [d⁺] the
    excess of its goal over the target and every [d⁻] the shortfall, and
    leaving the binary variables as they are, yields a feasible solution
    of the whole model.  So the model has a solution exactly when its
    hard constraints have one.
    The dimensions are those with which the notebook builds a model: a
    person, a day, seven sections, two shifts, and a score for every
    person and section. *)
Theorem goals_restrict_nothing n m s t competency :
  1 <= n -> 1 <= m -> 7 <= s -> 2 <= t -> covers competency n = true ->
  exists env mdl,
    build n m s t competency empty_model = Ok (env, mdl) /\
    forall σ,
      (forall v, v ∈ variables mdl -> var_type v = Binary -> in_domain σ v) ->
      (forall c, c ∈ constraints mdl ->
         Forall (fun v => var_type v = Binary) (ct_vars c) -> holds σ c) ->
      exists σ',
        (forall v, var_type v = Binary -> σ' v = σ v) /\ feasible mdl σ'.
Proof.
  intros Hn Hm Hs Ht Hc. eexists _, _. split; [by apply build_ok|].
  cbn [variables constraints built_model]. intros σ Hdom Hhard.
  exists (absorb n m s t competency σ). split; [apply absorb_binary|].
  split; cbn [variables constraints built_model].
  - apply Forall_forall. intros v Hv. apply absorb_domain; [done|].
    by apply Hdom.
  - apply Forall_forall. intros c Hin. unfold all_cts in Hin.
    pose proof Hin as Hin'. apply elem_of_app in Hin' as [Hh|Hg].
    + apply hard_cts_absorbed; [done|]. apply Hhard; [by apply hard_cts_all|].
      eapply Forall_impl; [eapply hard_cts_plain, Hh|].
      intros v [(i & j & k & l & ->)|(i & j & ->)]; done.
    + by apply goal_cts_absorbed.
Qed.

Lemma goals_restrict_nothing_witness :
  1 <= 80 /\ 1 <= 30 /\ 7 <= 7 /\ 2 <= 2 /\
  covers (uniform_competency 80 1) 80 = true /\
  exists env mdl,
    build 80 30 7 2 (uniform_competency 80 1) empty_model = Ok (env, mdl) /\
    forall σ,
      (forall v, v ∈ variables mdl -> var_type v = Binary -> in_domain σ v) ->
      (forall c, c ∈ constraints mdl ->
         Forall (fun v => var_type v = Binary) (ct_vars c) -> holds σ c) ->
      exists σ',
        (forall v, var_type v = Binary -> σ' v = σ v) /\ feasible mdl σ'.
Proof.
  split; [lia|]. split; [lia|]. split; [lia|]. split; [lia|].
  split; [by vm_compute|].
  apply goals_restrict_nothing; [lia|lia|lia|lia|by vm_compute].
Defined.
